(** * Fast-Image-Deduplicator: the catalog store and the pipeline driver

  A shallow embedding of [fast_diff_py/sqlite_db.py] (class [SQLiteDB]) and
  of the parts of [fast_diff_py/fast_dif_new.py] (class [FastDifPy]) that
  drive it.  Tables are lists of rows in the order of their insertion, which
  is the rowid order of the AUTOINCREMENT tables; SQL statements are
  functions on these lists, Python exceptions are an outcome of a
  state-and-exception monad in which the state survives the exception (the
  sqlite3 transaction stays open when a statement fails). *)

From Stdlib Require Import ZArith List Bool String Ascii Lia Permutation.
From Stdlib Require Import QArith Sorting.Sorted.
Import ListNotations.
Local Open Scope string_scope.
Local Open Scope list_scope.
Local Open Scope Z_scope.

Set Implicit Arguments.

(* ================================================================== *)
(** * SQL primitives *)
(* ================================================================== *)

Module Sql.

(** [LIMIT n]: a negative limit is no limit. *)
Definition limit {A : Type} (n : Z) (l : list A) : list A :=
  if n <? 0 then l else firstn (Z.to_nat n) l.

(** Arithmetic on nullable integers: any NULL operand gives NULL, and the
    integer division truncates and gives NULL on a zero divisor. *)
Definition sub (a b : option Z) : option Z :=
  match a, b with
  | Some x, Some y => Some (x - y)
  | _, _ => None
  end.

Definition add (a b : option Z) : option Z :=
  match a, b with
  | Some x, Some y => Some (x + y)
  | _, _ => None
  end.

Definition div (a b : option Z) : option Z :=
  match a, b with
  | Some x, Some y => if y =? 0 then None else Some (Z.quot x y)
  | _, _ => None
  end.

(** [a = b] in a WHERE clause: never true on NULL. *)
Definition eqb (a b : option Z) : bool :=
  match a, b with
  | Some x, Some y => x =? y
  | _, _ => false
  end.

(** The order of [ORDER BY] on a nullable integer: NULL sorts first. *)
Definition leb (a b : option Z) : bool :=
  match a, b with
  | None, _ => true
  | Some _, None => false
  | Some x, Some y => x <=? y
  end.

(** [ORDER BY e1, e2] on two sort keys. *)
Definition leb2 (p q : option Z * option Z) : bool :=
  if leb (fst p) (fst q)
  then if leb (fst q) (fst p) then leb (snd p) (snd q) else true
  else false.

(** [ORDER BY]: a stable insertion sort on the sort key. *)
Fixpoint insert_by {A : Type} (le : A -> A -> bool) (x : A) (l : list A)
  : list A :=
  match l with
  | [] => [x]
  | y :: t => if le x y then x :: y :: t else y :: insert_by le x t
  end.

Definition order_by {A : Type} (le : A -> A -> bool) (l : list A) : list A :=
  fold_right (insert_by le) [] l.

(** [MIN(...)] and [MAX(...)]: NULL on no row. *)
Definition min_of (l : list Z) : option Z :=
  match l with
  | [] => None
  | x :: t => Some (fold_left Z.min t x)
  end.

Definition max_of (l : list Z) : option Z :=
  match l with
  | [] => None
  | x :: t => Some (fold_left Z.max t x)
  end.

(** [SELECT DISTINCT]: the first occurrence of every value is kept (two
    NULLs are not distinct). *)
Fixpoint distinct {A : Type} (eq : A -> A -> bool) (l : list A) : list A :=
  match l with
  | [] => []
  | x :: t => x :: filter (fun y => negb (eq x y)) (distinct eq t)
  end.

Definition opt_eqb (a b : option Z) : bool :=
  match a, b with
  | None, None => true
  | Some x, Some y => x =? y
  | _, _ => false
  end.

Definition pair_eqb (p q : option Z * option Z) : bool :=
  opt_eqb (fst p) (fst q) && opt_eqb (snd p) (snd q).

(** [dif < ?] on REAL values. *)
Definition real_ltb (x y : Q) : bool := negb (Qle_bool y x).

(** The rowid an AUTOINCREMENT table gives to the next row: one more than
    the largest rowid it ever held. *)
Definition next_rowid (seq : Z) (keys : list Z) : Z :=
  match max_of keys with
  | Some m => Z.max seq m + 1
  | None => seq + 1
  end.

End Sql.

(* ================================================================== *)
(** * Exceptions and the monad of the store *)
(* ================================================================== *)

Inductive exn : Type :=
| IntegrityError   (* sqlite3: a UNIQUE or PRIMARY KEY constraint failed *)
| AssertionError
| ValueError
| KeyError
| IndexError.

Inductive outcome (A : Type) : Type :=
| Val (a : A)
| Raise (e : exn).
Arguments Val {A} a.
Arguments Raise {A} e.

Definition M (St A : Type) : Type := St -> outcome A * St.

Definition ret {St A : Type} (a : A) : M St A := fun s => (Val a, s).

Definition bind {St A B : Type} (c : M St A) (k : A -> M St B) : M St B :=
fun s =>
  match c s with
  | (Val a, s') => k a s'
  | (Raise e, s') => (Raise e, s')
  end.

Definition raise {St A : Type} (e : exn) : M St A := fun s => (Raise e, s).

Definition get {St : Type} : M St St := fun s => (Val s, s).

Definition put {St : Type} (s : St) : M St unit := fun _ => (Val tt, s).

Definition modify {St : Type} (f : St -> St) : M St unit :=
fun s => (Val tt, f s).

Declare Scope monad_scope.
Delimit Scope monad_scope with monad.
Notation "x <- c ;; k" := (bind c (fun x => k))
(at level 61, c at next level, right associativity) : monad_scope.
Notation "c ;; k" := (bind c (fun _ => k))
(at level 61, right associativity) : monad_scope.
Local Open Scope monad_scope.

(** Python's [assert c, msg]. *)
Definition assert {St : Type} (c : bool) : M St unit :=
if c then ret tt else raise AssertionError.

(** [for a in args: body(a)], and with it [executemany]: the statements run
  in order and the first exception ends the loop. *)
Fixpoint for_each {St A : Type} (body : A -> M St unit) (args : list A)
: M St unit :=
match args with
| [] => ret tt
| a :: t => body a ;; for_each body t
end.

(* ================================================================== *)
(** * The tables *)
(* ================================================================== *)

(** Table [directory] (and [directory_temp]). *)
Module Directory.
Record row : Type := mk {
  key : Z;
  path : string;
  filename : string;
  error : option string;
  success : Z;
  px : option Z;
  py : option Z;
  dir_b : Z;
  hash_0 : option Z;
  hash_90 : option Z;
  hash_180 : option Z;
  hash_270 : option Z
}.
End Directory.

(** Table [hash_table]. *)
Module HashTable.
Record row : Type := mk {
  key : Z;
  hash : option string;
  count : Z
}.
End HashTable.

(** Table [dif_table]. *)
Module Dif.
Record row : Type := mk {
  key : Z;
  key_a : Z;
  key_b : Z;
  dif : Q;
  success : Z;
  block_a : option Z;
  block_b : option Z;
  block_key : option Z
}.
End Dif.

(** The database: every table with the counter of its AUTOINCREMENT key. *)
Record SQLiteDB : Type := mkdb {
  directory : list Directory.row;
  directory_seq : Z;
  hash_table : list HashTable.row;
  hash_table_seq : Z;
  dif_table : list Dif.row;
  dif_table_seq : Z;
  dif_error_table : list (Z * string)
}.

Definition set_directory (t : list Directory.row) (s : SQLiteDB)
  : SQLiteDB :=
mkdb t (directory_seq s) (hash_table s) (hash_table_seq s)
     (dif_table s) (dif_table_seq s) (dif_error_table s).

Definition set_directory_seq (t : list Directory.row) (q : Z)
  (s : SQLiteDB) : SQLiteDB :=
mkdb t q (hash_table s) (hash_table_seq s)
     (dif_table s) (dif_table_seq s) (dif_error_table s).

Definition set_hash_table (t : list HashTable.row) (q : Z) (s : SQLiteDB)
  : SQLiteDB :=
mkdb (directory s) (directory_seq s) t q
     (dif_table s) (dif_table_seq s) (dif_error_table s).

Definition set_dif_table (t : list Dif.row) (s : SQLiteDB) : SQLiteDB :=
mkdb (directory s) (directory_seq s) (hash_table s) (hash_table_seq s)
     t (dif_table_seq s) (dif_error_table s).

Definition set_dif_table_seq (t : list Dif.row) (q : Z) (s : SQLiteDB)
  : SQLiteDB :=
mkdb (directory s) (directory_seq s) (hash_table s) (hash_table_seq s)
     t q (dif_error_table s).

Definition set_dif_error_table (t : list (Z * string)) (s : SQLiteDB)
  : SQLiteDB :=
mkdb (directory s) (directory_seq s) (hash_table s) (hash_table_seq s)
     (dif_table s) (dif_table_seq s) t.

(* ================================================================== *)
(** * Python dictionaries *)
(* ================================================================== *)

(** A [dict] keeps its keys in insertion order; assigning to a key that is
  present replaces the value in place. *)
Module PyDict.
Section Dict.
Variables K V : Type.
Variable keq : K -> K -> bool.

Definition t : Type := list (K * V).

Fixpoint lookup (k : K) (d : t) : option V :=
  match d with
  | [] => None
  | (k', v) :: r => if keq k k' then Some v else lookup k r
  end.

Fixpoint set (k : K) (v : V) (d : t) : t :=
  match d with
  | [] => [(k, v)]
  | (k', v') :: r => if keq k k' then (k', v) :: r else (k', v') :: set k v r
  end.

Definition pop (k : K) (d : t) : t :=
  filter (fun kv => negb (keq k (fst kv))) d.

Definition keys (d : t) : list K := map fst d.
Definition values (d : t) : list V := map snd d.
End Dict.
End PyDict.

(** [set(l)] for a list of nullable strings, in order of first occurrence. *)
Definition ostr_eqb (a b : option string) : bool :=
match a, b with
| None, None => true
| Some x, Some y => String.eqb x y
| _, _ => false
end.

Fixpoint py_set (l : list (option string)) : list (option string) :=
match l with
| [] => []
| x :: t => x :: filter (fun y => negb (ostr_eqb x y)) (py_set t)
end.

(** [os.path.join(a, b)] of [posixpath]. *)
Definition starts_with_sep (s : string) : bool :=
match s with
| String c _ => Ascii.eqb c "/"%char
| EmptyString => false
end.

Fixpoint ends_with_sep (s : string) : bool :=
match s with
| EmptyString => false
| String c EmptyString => Ascii.eqb c "/"%char
| String _ r => ends_with_sep r
end.

Definition os_path_join (a b : string) : string :=
if starts_with_sep b then b
else if (String.eqb a "" || ends_with_sep a)%bool then (a ++ b)%string
else (a ++ "/" ++ b)%string.

(* ================================================================== *)
(** * Messages between the driver and its workers *)
(* ================================================================== *)

(** Modelled from the spec: the message classes of
  [fast_diff_py.datatransfer_new], which is not part of the source tree.
  A failed preprocessing result is, by section 4.3,
  [PreprocessResult{key, error}] and a successful one is
  [PreprocessResult{key, px, py, hash_0, hash_90, hash_180, hash_270,
  error=null}]; section 4.6 gives [ItemCompareArgs], [ItemCompareResult],
  [BatchCompareArgs] and [BatchCompareResult].  A field that is not set is
  [None].  The hash fields hold the hash text when the worker sends the
  result and the key of the hash row once the driver has rewritten them,
  hence the parameter [H]. *)
Module PreprocessArg.
Record t : Type := mk { file_path : string; key : Z }.
End PreprocessArg.

Module PreprocessResult.
Record t (H : Type) : Type := mk {
  key : Z;
  org_x : option Z;
  org_y : option Z;
  hash_0 : option H;
  hash_90 : option H;
  hash_180 : option H;
  hash_270 : option H;
  error : option string
}.
Arguments mk {H}.
End PreprocessResult.

Module ItemCompareArgs.
Record t : Type := mk {
  key : Z;
  key_a : Z;
  key_b : Z;
  path_a : string;
  path_b : string;
  cache_key : option Z
}.
End ItemCompareArgs.

Module ItemCompareResult.
Record t : Type := mk { key : Z; diff : Q; error : string }.
End ItemCompareResult.

Module BatchCompareResult.
Record t : Type := mk {
  key : Z;
  key_a : Z;
  key_b : Z;
  diff : list Q;
  errors : list (Z * string);
  cache_key : option Z
}.
End BatchCompareResult.

(* ================================================================== *)
(** * class SQLiteDB *)
(* ================================================================== *)

Section Store.

(** [fast_diff_py.utils.to_b64], which is not part of the source tree. *)
Variable to_b64 : string -> string.

(** Modelled from the spec: [debug_execute] and [debug_execute_many] of
    [BaseSQliteDB] ([fast_diff_py.sqlite_wrapper] is not part of the source
    tree).  Section 7 lists a constraint violation as a [CatalogError] that
    is fatal to the driver, so the wrappers run the statement on the sqlite3
    cursor and let its exception through: [debug_execute_many] is
    [executemany], which stops at the first statement that fails. *)
Definition debug_execute_many {A : Type} (stmt : A -> M SQLiteDB unit)
  (args : list A) : M SQLiteDB unit :=
  for_each stmt args.

(* ---------------------------------------------------------------- *)
(** ** Dir Table *)

Definition with_key (k : Z) (r : Directory.row) : Directory.row :=
  Directory.mk k (Directory.path r) (Directory.filename r)
    (Directory.error r) (Directory.success r) (Directory.px r)
    (Directory.py r) (Directory.dir_b r) (Directory.hash_0 r)
    (Directory.hash_90 r) (Directory.hash_180 r) (Directory.hash_270 r).

Definition with_dir_b (b : Z) (r : Directory.row) : Directory.row :=
  Directory.mk (Directory.key r) (Directory.path r) (Directory.filename r)
    (Directory.error r) (Directory.success r) (Directory.px r)
    (Directory.py r) b (Directory.hash_0 r)
    (Directory.hash_90 r) (Directory.hash_180 r) (Directory.hash_270 r).

Definition with_success (v : Z) (r : Directory.row) : Directory.row :=
  Directory.mk (Directory.key r) (Directory.path r) (Directory.filename r)
    (Directory.error r) v (Directory.px r)
    (Directory.py r) (Directory.dir_b r) (Directory.hash_0 r)
    (Directory.hash_90 r) (Directory.hash_180 r) (Directory.hash_270 r).

(** [UNIQUE (path, dir_b)]: does the table hold a row with these values? *)
Definition path_dir_b_taken (p : string) (b : Z) (t : list Directory.row)
  : bool :=
  existsb (fun r => String.eqb (Directory.path r) p
                    && (Directory.dir_b r =? b))%bool t.

(** One row of an [INSERT INTO directory]: the key comes from
    AUTOINCREMENT, the other columns from [r]; [None] when the UNIQUE
    constraint fails. *)
Definition insert_directory (tbl : list Directory.row * Z)
  (r : Directory.row) : option (list Directory.row * Z) :=
  let (t, q) := tbl in
  if path_dir_b_taken (Directory.path r) (Directory.dir_b r) t then None
  else
    let k := Sql.next_rowid q (map Directory.key t) in
    Some (t ++ [with_key k r], k).

(** [INSERT INTO ... SELECT ...]: one statement, all rows or none. *)
Fixpoint insert_select_directory (tbl : list Directory.row * Z)
  (rows : list Directory.row) : option (list Directory.row * Z) :=
  match rows with
  | [] => Some tbl
  | r :: rest =>
      match insert_directory tbl r with
      | Some tbl' => insert_select_directory tbl' rest
      | None => None
      end
  end.

(** The row of [INSERT INTO directory (path, filename, dir_b) VALUES
    (?, ?, ?)] with the defaults of the other columns. *)
Definition new_file (arg : string * string * Z) : Directory.row :=
  let '(p, f, b) := arg in
  Directory.mk 0 p f None (-1) (Some (-1)) (Some (-1)) b
               None None None None.

Definition insert_file_stmt (arg : string * string * Z) : M SQLiteDB unit :=
  fun s =>
    match insert_directory (directory s, directory_seq s) (new_file arg) with
    | Some (t, q) => (Val tt, set_directory_seq t q s)
    | None => (Raise IntegrityError, s)
    end.

Definition bulk_insert_file (path : string) (filenames : list string)
  (dir_b : bool) : M SQLiteDB unit :=
  let _dir_b := if dir_b then 1 else 0 in
  let tgt := map (fun f => (os_path_join path f, f, _dir_b)) filenames in
  debug_execute_many insert_file_stmt tgt.

Definition reset_preprocessing (s : SQLiteDB) : SQLiteDB :=
  set_directory
    (map (fun r => if Directory.success r =? -2 then with_success (-1) r
                   else r) (directory s)) s.

(** [SELECT key FROM directory WHERE success = -1 LIMIT ?]. *)
Definition unprocessed (batch_size : Z) (s : SQLiteDB) : list Directory.row :=
  Sql.limit batch_size
    (filter (fun r => Directory.success r =? -1) (directory s)).

Definition batch_of_preprocessing_args (batch_size : Z) (s : SQLiteDB)
  : list PreprocessArg.t * SQLiteDB :=
  let results :=
    map (fun row => PreprocessArg.mk (Directory.path row) (Directory.key row))
        (unprocessed batch_size s) in
  (* Update to processing *)
  let keys := map Directory.key (unprocessed batch_size s) in
  let t :=
    map (fun r => if existsb (Z.eqb (Directory.key r)) keys
                  then with_success (-2) r else r) (directory s) in
  (results, set_directory t s).

(** [UPDATE directory SET error = ?, success = ? WHERE key = ?]. *)
Definition update_err_stmt (arg : string * Z * Z) (s : SQLiteDB)
  : SQLiteDB :=
  let '(e, v, k) := arg in
  set_directory
    (map (fun r =>
            if Directory.key r =? k then
              Directory.mk (Directory.key r) (Directory.path r)
                (Directory.filename r) (Some e) v (Directory.px r)
                (Directory.py r) (Directory.dir_b r) (Directory.hash_0 r)
                (Directory.hash_90 r) (Directory.hash_180 r)
                (Directory.hash_270 r)
            else r) (directory s)) s.

(** [UPDATE directory SET px = ?, py = ?, hash_0 = ?, hash_90 = ?,
    hash_180 = ?, hash_270 = ?, success = 1 WHERE key = ?]. *)
Definition update_success_hash_stmt
  (arg : option Z * option Z * option Z * option Z * option Z * option Z * Z)
  (s : SQLiteDB) : SQLiteDB :=
  let '(x, y, h0, h90, h180, h270, k) := arg in
  set_directory
    (map (fun r =>
            if Directory.key r =? k then
              Directory.mk (Directory.key r) (Directory.path r)
                (Directory.filename r) (Directory.error r) 1 x y
                (Directory.dir_b r) h0 h90 h180 h270
            else r) (directory s)) s.

(** [UPDATE directory SET px = ?, py = ?, success = 1 WHERE key = ?]. *)
Definition update_success_stmt (arg : option Z * option Z * Z) (s : SQLiteDB)
  : SQLiteDB :=
  let '(x, y, k) := arg in
  set_directory
    (map (fun r =>
            if Directory.key r =? k then
              Directory.mk (Directory.key r) (Directory.path r)
                (Directory.filename r) (Directory.error r) 1 x y
                (Directory.dir_b r) (Directory.hash_0 r)
                (Directory.hash_90 r) (Directory.hash_180 r)
                (Directory.hash_270 r)
            else r) (directory s)) s.

Definition is_error {H : Type} (res : PreprocessResult.t H) : bool :=
  match PreprocessResult.error res with Some _ => true | None => false end.

Definition error_text {H : Type} (res : PreprocessResult.t H) : string :=
  match PreprocessResult.error res with Some e => e | None => "" end.

(** The updates of this function cannot fail: they insert no row, and the
    CHECK on [px], [py] holds for the dimensions of a decoded image. *)
Definition batch_of_first_loop_results (results : list (PreprocessResult.t Z))
  (has_hash : bool) (s : SQLiteDB) : SQLiteDB :=
  (* Split errors and successes *)
  let err := filter is_error results in
  let success := filter (fun res => negb (is_error res)) results in
  (* Update the errors *)
  let update_err :=
    map (fun res => (to_b64 (error_text res), 0, PreprocessResult.key res))
        err in
  let s1 := fold_left (fun st a => update_err_stmt a st) update_err s in
  (* Update the successes *)
  if has_hash then
    let update_success :=
      map (fun res =>
             (PreprocessResult.org_x res, PreprocessResult.org_y res,
              PreprocessResult.hash_0 res, PreprocessResult.hash_90 res,
              PreprocessResult.hash_180 res, PreprocessResult.hash_270 res,
              PreprocessResult.key res)) success in
    fold_left (fun st a => update_success_hash_stmt a st) update_success s1
  else
    let update_success :=
      map (fun res =>
             (PreprocessResult.org_x res, PreprocessResult.org_y res,
              PreprocessResult.key res)) success in
    fold_left (fun st a => update_success_stmt a st) update_success s1.

Definition get_dir_entry_count (dir_b : bool) (s : SQLiteDB) : Z :=
  let dir_b := if dir_b then 1 else 0 in
  Z.of_nat
    (List.length (filter (fun r => Directory.dir_b r =? dir_b) (directory s))).

Definition get_b_offset (s : SQLiteDB) : option Z :=
  Sql.min_of
    (map Directory.key
         (filter (fun r => Directory.dir_b r =? 1) (directory s))).

(** [swap_dir_b]: the rows of directory b go first into the temporary
    table, labelled 0, then the rows of directory a, labelled 1; the
    temporary table, with its fresh keys, replaces the directory table.
    When an insert fails the directory table is as it was. *)
Definition swap_dir_b : M SQLiteDB unit :=
  fun s =>
    let d_tbl := directory s in
    match insert_select_directory ([], 0)
            (map (with_dir_b 0)
                 (filter (fun r => Directory.dir_b r =? 1) d_tbl)) with
    | None => (Raise IntegrityError, s)
    | Some tmp_tbl =>
        match insert_select_directory tmp_tbl
                (map (with_dir_b 1)
                     (filter (fun r => Directory.dir_b r =? 0) d_tbl)) with
        | None => (Raise IntegrityError, s)
        | Some (t, q) => (Val tt, set_directory_seq t q s)
        end
    end.

(* ---------------------------------------------------------------- *)
(** ** Hash Table *)

(** [INSERT INTO hash_table (hash, count) VALUES (?, 1) ON CONFLICT(hash)
  DO UPDATE SET count = count + 1]: a NULL hash conflicts with no row.  The
  statement takes a rowid from AUTOINCREMENT before it meets the conflict,
  so the counter of the table advances on the update as well. *)
Definition hash_is (h : string) (r : HashTable.row) : bool :=
  match HashTable.hash r with
  | Some x => String.eqb x h
  | None => false
  end.

Definition upsert_hash_stmt (h : option string) (s : SQLiteDB) : SQLiteDB :=
  let k := Sql.next_rowid (hash_table_seq s)
                          (map HashTable.key (hash_table s)) in
  let conflict :=
    match h with
    | Some x => existsb (hash_is x) (hash_table s)
    | None => false
    end in
  if conflict then
    set_hash_table
      (map (fun r => if match h with
                        | Some x => hash_is x r
                        | None => false
                        end
                     then HashTable.mk (HashTable.key r)
                            (HashTable.hash r) (HashTable.count r + 1)
                     else r) (hash_table s))
      k s
  else set_hash_table (hash_table s ++ [HashTable.mk k h 1]) k s.

Definition bulk_insert_hashes (hashes : list (option string))
  (s : SQLiteDB) : SQLiteDB :=
  fold_left (fun st h => upsert_hash_stmt h st) hashes s.

(** [SELECT key FROM hash_table WHERE hash = ?] and [fetchone()]. *)
Definition select_hash_key (h : option string) (s : SQLiteDB) : option Z :=
  match h with
  | Some x => option_map HashTable.key (find (hash_is x) (hash_table s))
  | None => None
  end.

Fixpoint get_bulk_hash_lookup (hashes : list (option string))
  : M SQLiteDB (PyDict.t (option string) Z) :=
  match hashes with
  | [] => ret []
  | h :: rest =>
      s <- get ;;
      match select_hash_key h s with
      | None => raise AssertionError   (* "Hash not found" *)
      | Some k =>
          lookup <- get_bulk_hash_lookup rest ;;
          ret ((h, k) :: lookup)
      end
  end.

(* ---------------------------------------------------------------- *)
(** ** Diff Table *)

Definition with_blocks (a b : option Z) (r : Dif.row) : Dif.row :=
  Dif.mk (Dif.key r) (Dif.key_a r) (Dif.key_b r) (Dif.dif r)
         (Dif.success r) a b (Dif.block_key r).

Definition with_block_key (k : option Z) (r : Dif.row) : Dif.row :=
  Dif.mk (Dif.key r) (Dif.key_a r) (Dif.key_b r) (Dif.dif r)
         (Dif.success r) (Dif.block_a r) (Dif.block_b r) k.

Definition with_dif_success (d : Q) (v : Z) (r : Dif.row) : Dif.row :=
  Dif.mk (Dif.key r) (Dif.key_a r) (Dif.key_b r) d v
         (Dif.block_a r) (Dif.block_b r) (Dif.block_key r).

(** [ORDER BY a.key, b.key]. *)
Definition key_pair_leb (p q : Z * Z) : bool :=
  Sql.leb2 (Some (fst p), Some (snd p)) (Some (fst q), Some (snd q)).

(** [SELECT a.key, b.key FROM directory AS a CROSS JOIN directory AS b
    WHERE ... ORDER BY a.key, b.key]. *)
Definition candidate_pairs (has_dir_b : bool) (d : list Directory.row)
  : list (Z * Z) :=
  let joined := list_prod d d in
  let selected :=
    if has_dir_b then
      filter (fun ab => (Directory.dir_b (fst ab) =? 0)
                        && (Directory.dir_b (snd ab) =? 1))%bool joined
    else
      filter (fun ab => Directory.key (fst ab) <? Directory.key (snd ab))
             joined in
  Sql.order_by key_pair_leb
    (map (fun ab => (Directory.key (fst ab), Directory.key (snd ab)))
         selected).

(** [UNIQUE (key_a, key_b)]. *)
Definition key_pair_taken (ka kb : Z) (t : list Dif.row) : bool :=
  existsb (fun r => (Dif.key_a r =? ka) && (Dif.key_b r =? kb))%bool t.

(** One row of [INSERT INTO dif_table (key_a, key_b)], with the defaults of
    the other columns. *)
Definition insert_dif (tbl : list Dif.row * Z) (ab : Z * Z)
  : option (list Dif.row * Z) :=
  let (t, q) := tbl in
  if key_pair_taken (fst ab) (snd ab) t then None
  else
    let k := Sql.next_rowid q (map Dif.key t) in
    Some (t ++ [Dif.mk k (fst ab) (snd ab) (-1 # 1) (-1) None None None], k).

Fixpoint insert_select_dif (tbl : list Dif.row * Z) (rows : list (Z * Z))
  : option (list Dif.row * Z) :=
  match rows with
  | [] => Some tbl
  | ab :: rest =>
      match insert_dif tbl ab with
      | Some tbl' => insert_select_dif tbl' rest
      | None => None
      end
  end.

(** [UPDATE dif_table SET block_a = key_a / ?, block_b = ...]. *)
Definition set_blocks (block_size : Z) (has_dir_b : bool) (s : SQLiteDB)
  : list Dif.row :=
  map (fun r =>
         with_blocks
           (Sql.div (Some (Dif.key_a r)) (Some block_size))
           (if has_dir_b
            then Sql.div (Sql.sub (Some (Dif.key_b r)) (get_b_offset s))
                         (Some block_size)
            else Sql.div (Some (Dif.key_b r)) (Some block_size))
           r)
      (dif_table s).

(** The two orders of the block keys: along x and y, or along the
    diagonals. *)
Definition row_major_leb (p q : option Z * option Z) : bool :=
  Sql.leb2 p q.

Definition diagonal_key (p : option Z * option Z) : option Z * option Z :=
  (Sql.sub (snd p) (fst p), Sql.add (snd p) (fst p)).

Definition diagonal_leb (p q : option Z * option Z) : bool :=
  Sql.leb2 (diagonal_key p) (diagonal_key q).

(** The keys an empty AUTOINCREMENT table gives to the rows inserted. *)
Fixpoint number_from {A : Type} (k : Z) (l : list A) : list (Z * A) :=
  match l with
  | [] => []
  | x :: t => (k, x) :: number_from (k + 1) t
  end.

(** Table [block_key_temp] after [INSERT INTO block_key_temp (block_a,
    block_b) SELECT DISTINCT block_a, block_b FROM dif_table ORDER BY ...]. *)
Definition block_key_temp (has_dir_b : bool) (t : list Dif.row)
  : list (Z * (option Z * option Z)) :=
  number_from 1
    (Sql.order_by (if has_dir_b then row_major_leb else diagonal_leb)
       (Sql.distinct Sql.pair_eqb
          (map (fun r => (Dif.block_a r, Dif.block_b r)) t))).

(** [SELECT key FROM block_key_temp WHERE block_a = dif_table.block_a AND
    block_b = dif_table.block_b]. *)
Definition select_block_key (tmp : list (Z * (option Z * option Z)))
  (r : Dif.row) : option Z :=
  option_map fst
    (find (fun kb => Sql.eqb (fst (snd kb)) (Dif.block_a r)
                     && Sql.eqb (snd (snd kb)) (Dif.block_b r))%bool tmp).

Definition prepopulate_diff_table (block_size : Z) (has_dir_b : bool)
  : M SQLiteDB unit :=
  fun s =>
    (* Populate the Table with all diff entries that will exist *)
    match insert_select_dif (dif_table s, dif_table_seq s)
            (candidate_pairs has_dir_b (directory s)) with
    | None => (Raise IntegrityError, s)
    | Some (t, q) =>
        let s1 := set_dif_table_seq t q s in
        (* Set the blocks *)
        let s2 := set_dif_table (set_blocks block_size has_dir_b s1) s1 in
        (* Convert the blocks to block keys *)
        let tmp := block_key_temp has_dir_b (dif_table s2) in
        let s3 :=
          set_dif_table
            (map (fun r => with_block_key (select_block_key tmp r) r)
                 (dif_table s2)) s2 in
        (Val tt, s3)
    end.

(** The rows of a block: [WHERE dif_table.block_key = ?]. *)
Definition in_block (block_key : Z) (r : Dif.row) : bool :=
  Sql.eqb (Dif.block_key r) (Some block_key).

Definition count_distinct (l : list Z) : Z :=
  Z.of_nat (List.length (Sql.distinct Z.eqb l)).

Definition get_cache_block_thumb (block_key : Z) (has_dir_b : bool)
  (s : SQLiteDB)
  : Z * Z * Z * Z :=
  let rows := filter (in_block block_key) (dif_table s) in
  match Sql.min_of (map Dif.key_a rows), Sql.min_of (map Dif.key_b rows) with
  | Some lower_key_x, Some lower_key_y =>
      (lower_key_x, lower_key_y,
       count_distinct (map Dif.key_a rows),
       count_distinct (map Dif.key_b rows))
  | _, _ => (-1, -1, -1, -1)
  end.

(** [SELECT path FROM directory WHERE key >= ? LIMIT ?]. *)
Definition select_paths_from (lower size : Z) (s : SQLiteDB) : list string :=
  map Directory.path
      (Sql.limit size
         (filter (fun r => Directory.key r >=? lower) (directory s))).

Definition get_cache_block_original (block_key : Z) (has_dir_b : bool)
  : M SQLiteDB (Z * Z * list string * list string) :=
  s <- get ;;
  let '(lower_x, lower_y, size_x, size_y) :=
    get_cache_block_thumb block_key has_dir_b s in
  (* Exit on empty *)
  if ((lower_x =? -1) && (lower_y =? -1) && (size_x =? -1)
      && (size_y =? -1))%bool
  then ret (-1, -1, [], [])
  else
    let paths_a := select_paths_from lower_x size_x s in
    assert (Z.of_nat (List.length paths_a) =? size_x) ;;
    let paths_b := select_paths_from lower_y size_y s in
    assert (Z.of_nat (List.length paths_b) =? size_y) ;;
    ret (lower_x, lower_y, paths_a, paths_b).

(** [UPDATE dif_table SET dif = ?, success = 1 WHERE key_a = ? AND
    key_b = ?]; the CHECK on [dif] holds for a mean squared error. *)
Definition update_block_result_stmt (arg : Q * Z * Z) (s : SQLiteDB)
  : SQLiteDB :=
  let '(d, ka, kb) := arg in
  set_dif_table
    (map (fun r => if ((Dif.key_a r =? ka) && (Dif.key_b r =? kb))%bool
                   then with_dif_success d 1 r else r) (dif_table s)) s.

(** [[(results[i], min_key_x, max_key_y - i) for i in range(len(results))]]. *)
Fixpoint block_result_args (min_key_x max_key_y : Z) (results : list Q)
  : list (Q * Z * Z) :=
  match results with
  | [] => []
  | d :: rest =>
      (d, min_key_x, max_key_y)
        :: block_result_args min_key_x (max_key_y - 1) rest
  end.

Definition insert_batch_diff_block_result (min_key_x max_key_y : Z)
  (results : list Q) (s : SQLiteDB) : SQLiteDB :=
  fold_left (fun st a => update_block_result_stmt a st)
            (block_result_args min_key_x max_key_y results) s.

(** [UPDATE dif_table SET dif = ?, success = 1 WHERE key = ?]. *)
Definition update_item_result_stmt (arg : Q * Z) (s : SQLiteDB)
  : SQLiteDB :=
  let '(d, k) := arg in
  set_dif_table
    (map (fun r => if Dif.key r =? k then with_dif_success d 1 r else r)
         (dif_table s)) s.

(** [[(res[i], key[i]) for i in range(len(key))]]: [None] is the IndexError
    of a [res] shorter than [key]. *)
Fixpoint item_result_args (key : list Z) (res : list Q)
  : option (list (Q * Z)) :=
  match key, res with
  | [], _ => Some []
  | k :: kt, d :: rt => option_map (cons (d, k)) (item_result_args kt rt)
  | _ :: _, [] => None
  end.

Definition insert_batch_diff_item_result (key : list Z) (res : list Q)
  : M SQLiteDB unit :=
  match item_result_args key res with
  | None => raise IndexError
  | Some args =>
      modify (fun s => fold_left (fun st a => update_item_result_stmt a st)
                                 args s)
  end.

(** [UPDATE dif_table SET success = 0 WHERE key = ?]. *)
Definition set_error_stmt (k : Z) : M SQLiteDB unit :=
  modify (fun s =>
    set_dif_table
      (map (fun r => if Dif.key r =? k
                     then with_dif_success (Dif.dif r) 0 r else r)
           (dif_table s)) s).

(** [INSERT INTO dif_error_table (key, error) VALUES (?, ?)]; the key is
    the PRIMARY KEY of the table. *)
Definition insert_error_stmt (arg : Z * string) : M SQLiteDB unit :=
  fun s =>
    if existsb (fun e => fst e =? fst arg) (dif_error_table s)
    then (Raise IntegrityError, s)
    else (Val tt, set_dif_error_table (dif_error_table s ++ [arg]) s).

Definition insert_batch_diff_error (errors : PyDict.t Z string)
  : M SQLiteDB unit :=
  (* Set errors in the dif_table *)
  debug_execute_many set_error_stmt (map fst errors) ;;
  (* Insert the errors *)
  debug_execute_many insert_error_stmt
    (map (fun kv => (fst kv, to_b64 (snd kv))) errors).

(** [FROM dif_table AS d JOIN directory AS a ON key_a = a.key JOIN
    directory AS b ON key_b = b.key] over the rows [ds] of [dif_table]. *)
Definition join_directory (ds : list Dif.row) (s : SQLiteDB)
  : list (Dif.row * Directory.row * Directory.row) :=
  flat_map
    (fun d =>
       flat_map
         (fun a =>
            map (fun b => (d, a, b))
                (filter (fun b => Dif.key_b d =? Directory.key b)
                        (directory s)))
         (filter (fun a => Dif.key_a d =? Directory.key a) (directory s)))
    ds.

Definition get_item_block (block_key : Z) (include_block_key : bool)
  (s : SQLiteDB) : list (Z * Z * Z * string * string * option Z) :=
  map (fun dab =>
         let '(d, a, b) := dab in
         (Dif.key d, Dif.key_a d, Dif.key_b d,
          Directory.path a, Directory.path b,
          if include_block_key then Dif.block_key d else None))
      (join_directory
         (filter (fun d => in_block block_key d && (Dif.success d =? -1))%bool
                 (dif_table s)) s).

Definition verify_item_block (block_key : Z) (s : SQLiteDB) : bool :=
  Z.of_nat
    (List.length
       (filter (fun d => in_block block_key d && (Dif.success d =? -1))%bool
               (dif_table s))) =? 0.

(** [ORDER BY d.key_a, d.key_b] and [ORDER BY d.key_b, d.key_a]. *)
Definition by_key_a_key_b (x y : Dif.row * Directory.row * Directory.row)
  : bool :=
  key_pair_leb (Dif.key_a (fst (fst x)), Dif.key_b (fst (fst x)))
               (Dif.key_a (fst (fst y)), Dif.key_b (fst (fst y))).

Definition by_key_b_key_a (x y : Dif.row * Directory.row * Directory.row)
  : bool :=
  key_pair_leb (Dif.key_b (fst (fst x)), Dif.key_a (fst (fst x)))
               (Dif.key_b (fst (fst y)), Dif.key_a (fst (fst y))).

(** [WHERE dif < ? AND d.success = 1]. *)
Definition below (delta : Q) (d : Dif.row) : bool :=
  (Sql.real_ltb (Dif.dif d) delta && (Dif.success d =? 1))%bool.

(** The rows the two query surfaces select, before the projection on
    [a.path, b.path, d.dif]. *)
Definition select_duplicates (delta : Q) (group_a : bool) (s : SQLiteDB)
  : list (Dif.row * Directory.row * Directory.row) :=
  Sql.order_by (if group_a then by_key_a_key_b else by_key_b_key_a)
    (join_directory (filter (below delta) (dif_table s)) s).

Definition project (x : Dif.row * Directory.row * Directory.row)
  : string * string * Q :=
  (Directory.path (snd (fst x)), Directory.path (snd x), Dif.dif (fst (fst x))).

Definition get_duplicate_pairs (delta : Q) (s : SQLiteDB)
  : list (string * string * Q) :=
  map project (select_duplicates delta true s).

(** [{r[1]: r[2] for r in acc}] and [{r[0]: r[2] for r in acc}]. *)
Definition cluster_dict (group_a : bool) (acc : list (string * string * Q))
  : PyDict.t string Q :=
  fold_left
    (fun d r =>
       PyDict.set String.eqb
         (if group_a then snd (fst r) else fst (fst r)) (snd r) d)
    acc [].

(** The loop of [get_cluster]; the result lists what the generator
    yields. *)
Fixpoint cluster_loop (group_a : bool) (head : string)
  (acc : list (string * string * Q)) (rows : list (string * string * Q))
  : list (string * PyDict.t string Q) :=
  match rows with
  | [] => [(head, cluster_dict group_a acc)]
  | row :: rest =>
      let int_head := if group_a then fst (fst row) else snd (fst row) in
      if String.eqb int_head head
      then cluster_loop group_a head (acc ++ [row]) rest
      else (head, cluster_dict group_a acc)
             :: cluster_loop group_a int_head [row] rest
  end.

Definition get_cluster (delta : Q) (group_a : bool) (s : SQLiteDB)
  : list (string * PyDict.t string Q) :=
  match map project (select_duplicates delta group_a s) with
  | [] => []
  | row :: rest =>
      let head := if group_a then fst (fst row) else snd (fst row) in
      cluster_loop group_a head [row] rest
  end.

End Store.

(* ================================================================== *)
(** * class FastDifPy *)
(* ================================================================== *)

(** Modelled from the spec: the fields of [Config], [FirstLoopConfig] and
  [SecondLoopRuntimeConfig] this development reads
  ([fast_diff_py.config_new] is not part of the source tree), after section
  3: the root paths, the options [compute_hash] and [compress] of the first
  loop and the options of the second loop with its [cache_index]. *)
Module FirstLoopConfig.
Record t : Type := mk {
  compute_hash : bool;
  compress : bool
}.
End FirstLoopConfig.

Module SecondLoopConfig.
Record t : Type := mk {
  batch_size : Z;
  batch_args : bool;
  use_ram_cache : bool;
  skip_matching_hash : bool;
  match_aspect_by : Q;
  cache_index : Z
}.

Definition with_cache_index (i : Z) (c : t) : t :=
  mk (batch_size c) (batch_args c) (use_ram_cache c) (skip_matching_hash c)
     (match_aspect_by c) i.
End SecondLoopConfig.

Module Config.
Record t : Type := mk {
  root_dir_a : string;
  root_dir_b : option string;
  first_loop : FirstLoopConfig.t;
  second_loop : SecondLoopConfig.t
}.

Definition with_roots (a : string) (b : option string) (c : t) : t :=
  mk a b (first_loop c) (second_loop c).

Definition with_cache_index (i : Z) (c : t) : t :=
  mk (root_dir_a c) (root_dir_b c) (first_loop c)
     (SecondLoopConfig.with_cache_index i (second_loop c)).
End Config.

(** Modelled from the spec: [ImageCache] and [BatchCache] of
  [fast_diff_py.cache], which is not part of the source tree, after section
  4.5: an [ImageCache] has the key [offset] of its first image and a
  [size]; the pixels play no part here. *)
Module ImageCache.
Record t : Type := mk { offset : Z; size : Z }.
End ImageCache.

Module BatchCache.
Record t : Type := mk { x : ImageCache.t; y : ImageCache.t }.
End BatchCache.

(** What the driver puts on [cmd_queue] in item mode. *)
Inductive cmd : Type :=
| PutItem (a : ItemCompareArgs.t)
| PutList (l : list ItemCompareArgs.t).

(** The driver.  [R] is the type of the messages of [result_queue]; [None]
  in the queue is the sentinel of a worker that exits.  [handles] is
  [len(self.handles)]. *)
Record FastDifPy (R : Type) : Type := mkdriver {
  db : SQLiteDB;
  config : Config.t;
  handles : Z;
  exit_counter : Z;
  cmd_queue : list cmd;
  result_queue : list (option R);
  _enqueue_counter : Z;
  _dequeue_counter : Z;
  ram_cache : PyDict.t Z BatchCache.t;
  block_progress_dict : PyDict.t Z (PyDict.t Z bool)
}.

(** [self.config.first_loop] and [self.config.second_loop]. *)
Definition first_loop {R : Type} (f : FastDifPy R) : FirstLoopConfig.t :=
  Config.first_loop (config f).

Definition second_loop {R : Type} (f : FastDifPy R) : SecondLoopConfig.t :=
  Config.second_loop (config f).

Section Driver.

Variable to_b64 : string -> string.
Variable R : Type.

Local Abbreviation driver := (FastDifPy R).

Definition set_db (d : SQLiteDB) (f : driver) : driver :=
  mkdriver d (config f) (handles f) (exit_counter f) (cmd_queue f)
    (result_queue f) (_enqueue_counter f) (_dequeue_counter f)
    (ram_cache f) (block_progress_dict f).

Definition set_config (c : Config.t) (f : driver) : driver :=
  mkdriver (db f) c (handles f) (exit_counter f) (cmd_queue f)
    (result_queue f) (_enqueue_counter f) (_dequeue_counter f)
    (ram_cache f) (block_progress_dict f).

Definition set_cmd_queue (q : list cmd) (f : driver) : driver :=
  mkdriver (db f) (config f) (handles f) (exit_counter f) q
    (result_queue f) (_enqueue_counter f) (_dequeue_counter f)
    (ram_cache f) (block_progress_dict f).

Definition set_enqueue_counter (n : Z) (f : driver) : driver :=
  mkdriver (db f) (config f) (handles f) (exit_counter f) (cmd_queue f)
    (result_queue f) n (_dequeue_counter f)
    (ram_cache f) (block_progress_dict f).

Definition set_dequeue_counter (n : Z) (f : driver) : driver :=
  mkdriver (db f) (config f) (handles f) (exit_counter f) (cmd_queue f)
    (result_queue f) (_enqueue_counter f) n
    (ram_cache f) (block_progress_dict f).

Definition set_ram_cache (c : PyDict.t Z BatchCache.t) (f : driver)
  : driver :=
  mkdriver (db f) (config f) (handles f) (exit_counter f) (cmd_queue f)
    (result_queue f) (_enqueue_counter f) (_dequeue_counter f)
    c (block_progress_dict f).

Definition set_block_progress_dict (p : PyDict.t Z (PyDict.t Z bool))
  (f : driver) : driver :=
  mkdriver (db f) (config f) (handles f) (exit_counter f) (cmd_queue f)
    (result_queue f) (_enqueue_counter f) (_dequeue_counter f)
    (ram_cache f) p.

(** A call of a method of [self.db]. *)
Definition on_db {A : Type} (c : M SQLiteDB A) : M driver A :=
  fun f =>
    match c (db f) with
    | (o, d) => (o, set_db d f)
    end.

Definition cmd_queue_put (c : cmd) : M driver unit :=
  modify (fun f => set_cmd_queue (cmd_queue f ++ [c]) f).

(* ---------------------------------------------------------------- *)
(** ** Util *)

Definition get_diff_pairs (delta : Q) (f : driver)
  : list (string * string * Q) :=
  get_duplicate_pairs delta (db f).

Definition get_diff_clusters (delta : Q) (dir_a : bool) (f : driver)
  : list (string * PyDict.t string Q) :=
  get_cluster delta dir_a (db f).

(* ---------------------------------------------------------------- *)
(** ** Indexing *)

Definition cond_switch_a_b : M driver unit :=
  f <- get ;;
  (* not necessary, if there's no dir b *)
  match Config.root_dir_b (config f) with
  | None => ret tt
  | Some root_dir_b =>
      (* If directory a has already less or equal number to directory b,
         skip *)
      if get_dir_entry_count false (db f)
         <=? get_dir_entry_count true (db f)
      then ret tt
      else
        modify (fun f =>
          set_config (Config.with_roots root_dir_b
                        (Some (Config.root_dir_a (config f))) (config f)) f) ;;
        on_db swap_dir_b
  end.

(* ---------------------------------------------------------------- *)
(** ** First Loop *)

(** [res.hash_0 = lookup[res.hash_0]] and so on for the four hashes. *)
Definition lookup_hash (lookup : PyDict.t (option string) Z)
  (h : option string) : M driver Z :=
  match PyDict.lookup ostr_eqb h lookup with
  | Some k => ret k
  | None => raise KeyError
  end.

Fixpoint rewrite_hashes (lookup : PyDict.t (option string) Z)
  (results : list (PreprocessResult.t string))
  : M driver (list (PreprocessResult.t Z)) :=
  match results with
  | [] => ret []
  | res :: rest =>
      h0 <- lookup_hash lookup (PreprocessResult.hash_0 res) ;;
      h90 <- lookup_hash lookup (PreprocessResult.hash_90 res) ;;
      h180 <- lookup_hash lookup (PreprocessResult.hash_180 res) ;;
      h270 <- lookup_hash lookup (PreprocessResult.hash_270 res) ;;
      rest' <- rewrite_hashes lookup rest ;;
      ret (PreprocessResult.mk (PreprocessResult.key res)
             (PreprocessResult.org_x res) (PreprocessResult.org_y res)
             (Some h0) (Some h90) (Some h180) (Some h270)
             (PreprocessResult.error res) :: rest')
  end.

(** Without hashing the hash fields are not read. *)
Definition without_hashes (res : PreprocessResult.t string)
  : PreprocessResult.t Z :=
  PreprocessResult.mk (PreprocessResult.key res)
    (PreprocessResult.org_x res) (PreprocessResult.org_y res)
    None None None None (PreprocessResult.error res).

Definition store_batch_first_loop
  (results : list (PreprocessResult.t string)) : M driver unit :=
  f <- get ;;
  (* Check the hashes, if they should be computed *)
  if FirstLoopConfig.compute_hash (first_loop f) then
    (* Extract all hashes from the results *)
    let hashes :=
      flat_map (fun res =>
                  [PreprocessResult.hash_0 res; PreprocessResult.hash_90 res;
                   PreprocessResult.hash_180 res;
                   PreprocessResult.hash_270 res]) results in
    (* Put the hashes into the SQLiteDB *)
    on_db (modify (bulk_insert_hashes hashes)) ;;
    lookup <- on_db (get_bulk_hash_lookup (py_set hashes)) ;;
    (* Update the hashes from string to int *)
    results' <- rewrite_hashes lookup results ;;
    on_db (modify (batch_of_first_loop_results to_b64 results' true))
  else
    on_db (modify (batch_of_first_loop_results to_b64
                     (map without_hashes results) false)).

(* ---------------------------------------------------------------- *)
(** ** Second Loop Cache Functions *)

Definition has_dir_b (f : driver) : bool :=
  match Config.root_dir_b (config f) with Some _ => true | None => false end.

(** [{i + l_x: False for i in range(s_x)}]. *)
Definition fresh_progress (l_x s_x : Z) : PyDict.t Z bool :=
  map (fun i => (Z.of_nat i + l_x, false)) (seq 0 (Z.to_nat s_x)).

Definition register_cache (l_x s_x : Z) (bc : BatchCache.t)
  : M driver unit :=
  modify (fun f =>
    let index := SecondLoopConfig.cache_index (second_loop f) in
    let f1 :=
      (* In batched mode, we need to submit the block progress *)
      if SecondLoopConfig.batch_args (second_loop f)
      then set_block_progress_dict
             (PyDict.set Z.eqb index (fresh_progress l_x s_x)
                         (block_progress_dict f)) f
      else f in
    set_ram_cache (PyDict.set Z.eqb index bc (ram_cache f1)) f1).

Definition __build_thumb_cache (l_x l_y s_x s_y : Z) : M driver unit :=
  f <- get ;;
  assert (SecondLoopConfig.use_ram_cache (second_loop f)
          && FirstLoopConfig.compress (first_loop f))%bool ;;
  (* check we're on the diagonal *)
  bc <-
  (if l_x + 1 =? l_y then
     (* Perform sanity check *)
     if negb (s_x =? s_y) then raise ValueError
     else
       let cache := ImageCache.mk l_x (s_x + 1) in
       ret (BatchCache.mk cache cache)
   else
     ret (BatchCache.mk (ImageCache.mk l_x s_x) (ImageCache.mk l_y s_y))) ;;
  register_cache l_x s_x bc.

(** [set(a) == set(b)] on lists of paths. *)
Definition same_set (a b : list string) : bool :=
  (forallb (fun p => existsb (String.eqb p) b) a
   && forallb (fun p => existsb (String.eqb p) a) b)%bool.

Definition __build_org_cache (l_x l_y : Z) (p_x p_y : list string)
  : M driver unit :=
  f <- get ;;
  assert (SecondLoopConfig.use_ram_cache (second_loop f)
          && negb (FirstLoopConfig.compress (first_loop f)))%bool ;;
  let len_x := Z.of_nat (List.length p_x) in
  let len_y := Z.of_nat (List.length p_y) in
  bc <-
  (if l_x + 1 =? l_y then
     if negb (len_x =? len_y) then raise ValueError
     else
       match p_x with
       | [] => raise IndexError
       | p_x0 :: _ =>
           assert (same_set (p_x0 :: p_y) (p_x ++ p_y)) ;;
           let p := p_x0 :: p_y in
           let cache := ImageCache.mk l_x (Z.of_nat (List.length p)) in
           ret (BatchCache.mk cache cache)
       end
   else
     ret (BatchCache.mk (ImageCache.mk l_x len_x) (ImageCache.mk l_y len_y))) ;;
  register_cache l_x len_x bc.

Definition prune_cache_batch : M driver unit :=
  f <- get ;;
  (* Guard since we're min doesn't like empty lists *)
  match Sql.min_of (PyDict.keys (ram_cache f)) with
  | None => ret tt
  | Some lowest_key =>
      match PyDict.lookup Z.eqb lowest_key (block_progress_dict f) with
      | None => raise KeyError
      | Some progress =>
          if forallb (fun b => b) (PyDict.values progress) then
            modify (fun f =>
              set_block_progress_dict
                (PyDict.pop Z.eqb lowest_key (block_progress_dict f))
                (set_ram_cache (PyDict.pop Z.eqb lowest_key (ram_cache f)) f))
          else ret tt
      end
  end.

Definition prune_cache_item : M driver unit :=
  f <- get ;;
  match Sql.min_of (PyDict.keys (ram_cache f)) with
  | None => ret tt
  | Some lowest_key =>
      if verify_item_block lowest_key (db f) then
        modify (fun f =>
          set_ram_cache (PyDict.pop Z.eqb lowest_key (ram_cache f)) f)
      else ret tt
  end.

(* ---------------------------------------------------------------- *)
(** ** Build Second Loop Args *)

(** What [__item_block] returns: a flag, or the arguments themselves for
    the sequential loop. *)
Inductive item_block_result : Type :=
| Flag (b : bool)
| Args (l : list ItemCompareArgs.t).

(** [wrapped_args[i:i + n] for i in range(0, len(wrapped_args), n)], [n]
    positive. *)
Fixpoint slices {A : Type} (fuel : nat) (n : nat) (l : list A)
  : list (list A) :=
  match fuel with
  | O => []
  | S fuel' =>
      match l with
      | [] => []
      | _ :: _ => firstn n l :: slices fuel' n (skipn n l)
      end
  end.

Definition submit_slice (batch_args : bool) (sl : list ItemCompareArgs.t)
  : M driver unit :=
  if Z.of_nat (List.length sl) =? (if batch_args then 1 else 0)
  then cmd_queue_put (PutList sl)
  else for_each (fun a => cmd_queue_put (PutItem a)) sl.

Definition bump_cache_index : M driver unit :=
  modify (fun f =>
    set_config
      (Config.with_cache_index
         (SecondLoopConfig.cache_index (second_loop f) + 1) (config f)) f).

(** [__item_block]; [stop] is set where the source returns [False] at the
    stopping criterion of the cache. *)
Definition __item_block (submit : bool) : M driver item_block_result :=
  f <- get ;;
  assert (negb (SecondLoopConfig.batch_args (second_loop f))) ;;
  let index := SecondLoopConfig.cache_index (second_loop f) in
  (* Build caches if needed *)
  stop <-
    (if SecondLoopConfig.use_ram_cache (second_loop f) then
       if FirstLoopConfig.compress (first_loop f) then
         let '(l_x, l_y, s_x, s_y) :=
           get_cache_block_thumb index (has_dir_b f) (db f) in
         if ((l_x =? -1) && (l_y =? -1) && (s_x =? -1) && (s_y =? -1))%bool
         then ret true
         else __build_thumb_cache l_x l_y s_x s_y ;; ret false
       else
         r <- on_db (get_cache_block_original index (has_dir_b f)) ;;
         let '(l_x, l_y, p_x, p_y) := r in
         match l_x =? -1, l_y =? -1, p_x, p_y with
         | true, true, [], [] => ret true
         | _, _, _, _ => __build_org_cache l_x l_y p_x p_y ;; ret false
         end
     else ret false) ;;
  if stop : bool then ret (Flag false)
  else
    f <- get ;;
    (* Get the args *)
    let args :=
      get_item_block index (SecondLoopConfig.use_ram_cache (second_loop f))
                     (db f) in
    (* Stopping criterion *)
    match args with
    | [] => ret (Flag false)
    | _ :: _ =>
        (* Build the args *)
        let wrapped_args :=
          map (fun t =>
                 let '(key, key_a, key_b, path_a, path_b, block_key) := t in
                 ItemCompareArgs.mk key key_a key_b path_a path_b block_key)
              args in
        (* Submit or return the args *)
        if submit then
          let n := SecondLoopConfig.batch_size (second_loop f) in
          (if n =? 0 then raise ValueError
           else if n <? 0 then ret tt
           else
             for_each
               (submit_slice (SecondLoopConfig.batch_args (second_loop f)))
               (slices (List.length wrapped_args) (Z.to_nat n) wrapped_args)) ;;
          modify (fun f =>
            set_enqueue_counter
              (_enqueue_counter f + Z.of_nat (List.length wrapped_args)) f) ;;
          (* Default return True *)
          bump_cache_index ;;
          ret (Flag true)
        else
          bump_cache_index ;;
          ret (Args wrapped_args)
    end.

(* ---------------------------------------------------------------- *)
(** ** Second Loop Result Processing *)

Definition store_batch_result (res : BatchCompareResult.t) : M driver unit :=
  on_db (modify (insert_batch_diff_block_result
                   (BatchCompareResult.key_a res)
                   (BatchCompareResult.key_b res)
                   (BatchCompareResult.diff res))) ;;
  (match BatchCompareResult.errors res with
   | [] => ret tt
   | _ :: _ => on_db (insert_batch_diff_error to_b64
                        (BatchCompareResult.errors res))
   end) ;;
  f <- get ;;
  (* Update the progress *)
  if SecondLoopConfig.use_ram_cache (second_loop f) then
    match BatchCompareResult.cache_key res with
    | None => raise KeyError
    | Some cache_key =>
        match PyDict.lookup Z.eqb cache_key (block_progress_dict f) with
        | None => raise KeyError
        | Some progress =>
            modify (fun f =>
              set_block_progress_dict
                (PyDict.set Z.eqb cache_key
                   (PyDict.set Z.eqb (BatchCompareResult.key_a res) true
                               progress)
                   (block_progress_dict f)) f)
        end
    end
  else ret tt.

Definition store_batch_second_loop (results : list BatchCompareResult.t)
  : M driver unit :=
  for_each store_batch_result results ;;
  f <- get ;;
  if SecondLoopConfig.use_ram_cache (second_loop f) then prune_cache_batch
  else ret tt.

(** The split of the results of [store_item_second_loop]: the successes in
    order, the errors as a dictionary. *)
Fixpoint split_item_results (results : list ItemCompareResult.t)
  (key_success : list Z) (diff_success : list Q)
  (errors : PyDict.t Z string)
  : list Z * list Q * PyDict.t Z string :=
  match results with
  | [] => (key_success, diff_success, errors)
  | r :: rest =>
      if Qeq_bool (ItemCompareResult.diff r) (-1 # 1)
      then split_item_results rest key_success diff_success
             (PyDict.set Z.eqb (ItemCompareResult.key r)
                         (ItemCompareResult.error r) errors)
      else split_item_results rest
             (key_success ++ [ItemCompareResult.key r])
             (diff_success ++ [ItemCompareResult.diff r]) errors
  end.

Definition store_item_second_loop (results : list ItemCompareResult.t)
  : M driver unit :=
  let '(key_success, diff_success, errors) :=
    split_item_results results [] [] [] in
  on_db (insert_batch_diff_item_result key_success diff_success) ;;
  on_db (insert_batch_diff_error to_b64 errors) ;;
  f <- get ;;
  if SecondLoopConfig.use_ram_cache (second_loop f) then prune_cache_item
  else ret tt.

End Driver.

(** The messages of the result queue in item mode: one result or a list of
  results. *)
Inductive item_msg : Type :=
| One (r : ItemCompareResult.t)
| Many (l : list ItemCompareResult.t).

Section Dequeue.

Variable to_b64 : string -> string.

Definition set_result_queue {R : Type} (q : list (option R))
  (f : FastDifPy R) : FastDifPy R :=
  mkdriver (db f) (config f) (handles f) (exit_counter f) (cmd_queue f)
    q (_enqueue_counter f) (_dequeue_counter f)
    (ram_cache f) (block_progress_dict f).

Definition bump_exit_counter {R : Type} (f : FastDifPy R) : FastDifPy R :=
  mkdriver (db f) (config f) (handles f) (exit_counter f + 1)
    (cmd_queue f) (result_queue f) (_enqueue_counter f)
    (_dequeue_counter f) (ram_cache f) (block_progress_dict f).

(** The guard of the loop of [dequeue_second_loop_item], without the test
    of the queue. *)
Definition item_guard (drain : bool) (f : FastDifPy item_msg) : bool :=
  (_dequeue_counter f + (SecondLoopConfig.batch_size (second_loop f) ^ 2) * 2
     <? _enqueue_counter f) || drain.

(** The loop of [dequeue_second_loop_item] on the messages [q] that wait in
    the queue; it gives the driver, [results] and [count]. *)
Fixpoint item_loop (drain : bool) (q : list (option item_msg))
  (f : FastDifPy item_msg) (results : list ItemCompareResult.t) (count : Z)
  : FastDifPy item_msg * list ItemCompareResult.t * Z :=
  match q with
  | [] => (set_result_queue [] f, results, count)
  | res :: q' =>
      if item_guard drain f then
        match res with
        | None => item_loop drain q' (bump_exit_counter f) results count
        | Some (Many l) =>
            item_loop drain q' f (results ++ l)
                      (count + Z.of_nat (List.length l))
        | Some (One r) => item_loop drain q' f (results ++ [r]) (count + 1)
        end
      else (set_result_queue q f, results, count)
  end.

Definition dequeue_second_loop_item (drain : bool)
  : M (FastDifPy item_msg) unit :=
  fun f =>
    let '(f1, results, count) := item_loop drain (result_queue f) f [] 0 in
    (store_item_second_loop to_b64 results ;;
     modify (fun f => set_dequeue_counter (_dequeue_counter f + count) f)) f1.

(** The guard of the loop of [dequeue_second_loop_batch], without the test
    of the queue. *)
Definition batch_guard (drain : bool) (f : FastDifPy BatchCompareResult.t)
  : bool :=
  (_dequeue_counter f + SecondLoopConfig.batch_size (second_loop f) * handles f
     <? _enqueue_counter f) || drain.

Fixpoint batch_loop (drain : bool) (q : list (option BatchCompareResult.t))
  (f : FastDifPy BatchCompareResult.t) (results : list BatchCompareResult.t)
  : FastDifPy BatchCompareResult.t * list BatchCompareResult.t :=
  match q with
  | [] => (set_result_queue [] f, results)
  | res :: q' =>
      if batch_guard drain f then
        match res with
        | None => batch_loop drain q' (bump_exit_counter f) results
        | Some r =>
            batch_loop drain q'
              (set_dequeue_counter (_dequeue_counter f + 1) f)
              (results ++ [r])
        end
      else (set_result_queue q f, results)
  end.

Definition dequeue_second_loop_batch (drain : bool)
  : M (FastDifPy BatchCompareResult.t) unit :=
  fun f =>
    let '(f1, results) := batch_loop drain (result_queue f) f [] in
    store_batch_second_loop to_b64 results f1.

End Dequeue.


(* ================================================================== *)
(** * class SQLiteDB: the rest of the statements *)
(* ================================================================== *)

(** [UPDATE directory SET key = key - (SELECT MIN(key) FROM directory)].
    SQLite changes the rows one after the other, in rowid order, and checks
    the PRIMARY KEY of each new key against the rows as they are at that
    moment: [done] are the rows already changed, [todo] the rows still to
    change.  [None] is the failure of the constraint. *)
Fixpoint shift_keys (m : Z) (done todo : list Directory.row)
  : option (list Directory.row) :=
  match todo with
  | [] => Some done
  | r :: rest =>
      let k := Directory.key r - m in
      if existsb (fun x => Directory.key x =? k) (done ++ rest) then None
      else shift_keys m (done ++ [with_key k r]) rest
  end.

(** The statement is undone as a whole when it fails; on an empty table the
    minimum is NULL and there is no row to change. *)
Definition set_keys_zero_index : M SQLiteDB unit :=
  fun s =>
    match Sql.min_of (map Directory.key (directory s)) with
    | None => (Val tt, s)
    | Some m =>
        match shift_keys m [] (directory s) with
        | Some t => (Val tt, set_directory t s)
        | None => (Raise IntegrityError, s)
        end
    end.

(** The row of a group that [MAX(key_b)] picks for the bare column [key]. *)
Fixpoint max_key_b_row (best : Dif.row) (rows : list Dif.row) : Dif.row :=
  match rows with
  | [] => best
  | r :: rest =>
      max_key_b_row (if Dif.key_b best <? Dif.key_b r then r else best) rest
  end.

(** [SELECT key, key_a, MAX(key_b) FROM dif_table WHERE block_key = ? GROUP
    BY key_a]: one row for each [key_a] of the block, in the order of
    [key_a]. *)
Definition get_task_block_key (block_key : Z) (s : SQLiteDB)
  : list (Z * Z * Z) :=
  let rows := filter (in_block block_key) (dif_table s) in
  flat_map
    (fun ka =>
       match filter (fun r => Dif.key_a r =? ka) rows with
       | [] => []
       | r :: rest =>
           let top := max_key_b_row r rest in
           [(Dif.key top, ka, Dif.key_b top)]
       end)
    (Sql.order_by Z.leb (Sql.distinct Z.eqb (map Dif.key_a rows))).

(** [SELECT COUNT( * ) FROM dif_table WHERE success = -1]. *)
Definition get_pair_count_diff (s : SQLiteDB) : Z :=
  Z.of_nat
    (List.length (filter (fun d => Dif.success d =? -1) (dif_table s))).

(** [DELETE FROM dif_table WHERE dif > ?]. *)
Definition drop_diff (threshold : Q) (s : SQLiteDB) : SQLiteDB :=
  set_dif_table
    (filter (fun d => negb (Sql.real_ltb threshold (Dif.dif d))) (dif_table s))
    s.

(** [FastDifPy.reduce_diff]: the wrapper of [drop_diff]. *)
Definition reduce_diff {R : Type} (threshold : Q) (f : FastDifPy R)
  : FastDifPy R :=
  mkdriver (drop_diff threshold (db f)) (config f) (handles f)
    (exit_counter f) (cmd_queue f) (result_queue f) (_enqueue_counter f)
    (_dequeue_counter f) (ram_cache f) (block_progress_dict f).

(* ================================================================== *)
(** * Sample catalogs *)
(* ================================================================== *)

Unset Implicit Arguments.

Definition empty_db : SQLiteDB := mkdb [] 0 [] 0 [] 0 [].

(** A file as the indexer leaves it. *)
Definition indexed (k : Z) (dir name : string) (b : Z) : Directory.row :=
  Directory.mk k (os_path_join dir name) name None (-1) (Some (-1))
               (Some (-1)) b None None None None.

(** A file after a successful first loop with hashing. *)
Definition hashed (k : Z) (dir name : string) (b : Z) (h : Z)
  : Directory.row :=
  Directory.mk k (os_path_join dir name) name None 1 (Some 100) (Some 100) b
               (Some h) (Some (h + 1)) (Some (h + 2)) (Some (h + 3)).

Definition with_files (t : list Directory.row) (q : Z) : SQLiteDB :=
  mkdb t q [] 0 [] 0 [].

(** Three files of one directory, not yet preprocessed. *)
Definition three_files : SQLiteDB :=
  with_files [indexed 0 "/a" "x.jpg" 0; indexed 1 "/a" "y.jpg" 0;
              indexed 2 "/a" "z.jpg" 0] 3.

(** Two files in directory a, one in directory b. *)
Definition two_and_one : SQLiteDB :=
  with_files [indexed 1 "/a" "x.jpg" 0; indexed 2 "/a" "y.jpg" 0;
              indexed 3 "/b" "z.jpg" 1] 3.

(** One file in directory a, two in directory b. *)
Definition one_and_two : SQLiteDB :=
  with_files [indexed 1 "/a" "x.jpg" 0; indexed 2 "/b" "y.jpg" 1;
              indexed 3 "/b" "z.jpg" 1] 3.

(** A pair row with its score. *)
Definition scored (k ka kb : Z) (d : Q) (v : Z) : Dif.row :=
  Dif.mk k ka kb d v (Some 0) (Some 0) (Some 1).

(** Three files and their three pairs: one below the threshold 1, one above
    it and one that failed. *)
Definition three_pairs : SQLiteDB :=
  mkdb [indexed 0 "/a" "x.jpg" 0; indexed 1 "/a" "y.jpg" 0;
        indexed 2 "/a" "z.jpg" 0] 3 [] 0
       [scored 1 0 1 (0 # 1) 1; scored 2 0 2 (5 # 1) 1;
        scored 3 1 2 (-1 # 1) (-1)] 3 [].

(** The same pairs, none of them scored. *)
Definition unscored_pairs : SQLiteDB :=
  mkdb [indexed 0 "/a" "x.jpg" 0; indexed 1 "/a" "y.jpg" 0;
        indexed 2 "/a" "z.jpg" 0] 3 [] 0
       [scored 1 0 1 (-1 # 1) (-1); scored 2 0 2 (-1 # 1) (-1);
        scored 3 1 2 (-1 # 1) (-1)] 3 [].

(** A driver around a database, with empty queues. *)
Definition driver_of (R : Type) (d : SQLiteDB) (c : Config.t) : FastDifPy R :=
  mkdriver d c 1 0 [] [] 0 0 [] [].

Definition plain_config (a : string) (b : option string) : Config.t :=
  Config.mk a b (FirstLoopConfig.mk true true)
            (SecondLoopConfig.mk 2 false false false (-1 # 1) 1).

(** A stand-in for [to_b64] where a concrete run needs one. *)
Definition tagged (msg : string) : string := ("b64:" ++ msg)%string.

(** A driver of the second loop with [h] workers, the counters [enq] and
    [deq], and the messages [q] waiting in the result queue. *)
Definition waiting (R : Type) (d : SQLiteDB) (c : Config.t) (h enq deq : Z)
  (q : list (option R)) : FastDifPy R :=
  mkdriver d c h 0 [] q enq deq [] [].

Definition sized_config (batch_size : Z) (batch_args : bool) : Config.t :=
  Config.mk "/a" None (FirstLoopConfig.mk true true)
    (SecondLoopConfig.mk batch_size batch_args false false (-1 # 1) 1).

(** Batch mode, block size 2, one worker, five rows enqueued, one result
    waiting. *)
Definition batch_backlog_5 : FastDifPy BatchCompareResult.t :=
  waiting BatchCompareResult.t unscored_pairs (sized_config 2 true) 1 5 0
          [Some (BatchCompareResult.mk 1 0 1 [0 # 1] [] None)].

(** Item mode, block size 1, ten workers, five pairs enqueued, one result
    waiting. *)
Definition item_backlog_5 : FastDifPy item_msg :=
  waiting item_msg unscored_pairs (sized_config 1 false) 10 5 0
          [Some (One (ItemCompareResult.mk 1 (0 # 1) ""))].

(** Item mode, block size 2, one worker, five pairs enqueued, one result
    waiting. *)
Definition item_backlog_small : FastDifPy item_msg :=
  waiting item_msg unscored_pairs (sized_config 2 false) 1 5 0
          [Some (One (ItemCompareResult.mk 1 (0 # 1) ""))].

(** Two copies of one image after the first loop: the four hashes agree. *)
Definition twin_files : SQLiteDB :=
  mkdb [hashed 0 "/a" "x.jpg" 0 1; hashed 1 "/a" "y.jpg" 0 1] 2
       [HashTable.mk 1 (Some "h0") 2; HashTable.mk 2 (Some "h90") 2;
        HashTable.mk 3 (Some "h180") 2; HashTable.mk 4 (Some "h270") 2] 4
       [] 0 [].

(** Item mode with [skip_matching_hash], no cache, at the first block. *)
Definition skip_hash_config : Config.t :=
  Config.mk "/a" None (FirstLoopConfig.mk true true)
    (SecondLoopConfig.mk 2 false false true (-1 # 1) 1).

(** Two files handed to the workers of the first loop. *)
Definition two_processing : SQLiteDB :=
  with_files
    [Directory.mk 0 "/a/x.jpg" "x.jpg" None (-2) (Some (-1)) (Some (-1)) 0
                  None None None None;
     Directory.mk 1 "/a/broken.jpg" "broken.jpg" None (-2) (Some (-1))
                  (Some (-1)) 0 None None None None] 2.

Definition good_result : PreprocessResult.t string :=
  PreprocessResult.mk 0 (Some 640) (Some 480)
    (Some "h0") (Some "h90") (Some "h180") (Some "h270") None.

(** A failed result as section 4.3 has it: the key and the error. *)
Definition failed_result : PreprocessResult.t string :=
  PreprocessResult.mk 1 None None None None None None
    (Some "cannot identify image file").

(** A failed result whose hash fields would hold a text all the same. *)
Definition failed_result_with_text : PreprocessResult.t string :=
  PreprocessResult.mk 1 None None (Some "") (Some "") (Some "") (Some "")
    (Some "cannot identify image file").

Definition hashing_config : Config.t :=
  Config.mk "/a" None (FirstLoopConfig.mk true true)
    (SecondLoopConfig.mk 2 false false false (-1 # 1) 1).

(** A file whose preprocessing failed. *)
Definition failed_file (k : Z) (dir name : string) (b : Z) : Directory.row :=
  Directory.mk k (os_path_join dir name) name (Some "b64:cannot decode") 0
               (Some (-1)) (Some (-1)) b None None None None.

(** Three files of one directory after the first loop: the second failed. *)
Definition one_failed : SQLiteDB :=
  with_files [hashed 0 "/a" "x.jpg" 0 1; failed_file 1 "/a" "broken.jpg" 0;
              hashed 2 "/a" "z.jpg" 0 5] 3.

(** Two files in a and two in b after the first loop: one of b failed. *)
Definition one_failed_in_b : SQLiteDB :=
  with_files [hashed 0 "/a" "x.jpg" 0 1; hashed 1 "/a" "y.jpg" 0 5;
              failed_file 2 "/b" "broken.jpg" 1; hashed 3 "/b" "z.jpg" 1 9] 4.

(** Item mode with a RAM cache of thumbnails, at the first block. *)
Definition cached_config (batch_args : bool) : Config.t :=
  Config.mk "/a" None (FirstLoopConfig.mk true true)
    (SecondLoopConfig.mk 2 batch_args true false (-1 # 1) 1).

(** A driver that holds the caches of the blocks 1 and 2. *)
Definition two_caches (d : SQLiteDB) : FastDifPy unit :=
  mkdriver d (cached_config false) 1 0 [] [] 0 0
    [(2, BatchCache.mk (ImageCache.mk 2 2) (ImageCache.mk 4 2));
     (1, BatchCache.mk (ImageCache.mk 0 3) (ImageCache.mk 0 3))] [].

(** Item mode with a RAM cache of the original images. *)
Definition org_cache_config : Config.t :=
  Config.mk "/a" None (FirstLoopConfig.mk true false)
    (SecondLoopConfig.mk 2 false true false (-1 # 1) 1).

(** Three open pairs, the third with an error row from an earlier run. *)
Definition one_error_row : SQLiteDB :=
  mkdb [indexed 0 "/a" "x.jpg" 0; indexed 1 "/a" "y.jpg" 0;
        indexed 2 "/a" "z.jpg" 0] 3 [] 0
       [scored 1 0 1 (-1 # 1) (-1); scored 2 0 2 (-1 # 1) (-1);
        scored 3 1 2 (-1 # 1) (-1)] 3 [(3, "b64:earlier")].

(* ================================================================== *)
(** * Vocabulary of the statements *)
(* ================================================================== *)

Definition task_of (r : Directory.row) : PreprocessArg.t :=
  PreprocessArg.mk (Directory.path r) (Directory.key r).

(** The row of [dif_table] after the errors [ks] have been set. *)
Definition failed_row (ks : list Z) (r : Dif.row) : Dif.row :=
  if existsb (Z.eqb (Dif.key r)) ks
  then with_dif_success (Dif.dif r) 0 r else r.

(** The columns of the UNIQUE constraint of [directory]. *)
Definition path_dir_b (r : Directory.row) : string * Z :=
  (Directory.path r, Directory.dir_b r).

(** The row of a file after the swap, up to its key. *)
Definition swapped (r : Directory.row) : Directory.row :=
  with_key 0 (with_dir_b (1 - Directory.dir_b r) r).

(** A computation keeps the view [v] of the state, whatever its outcome. *)
Definition keeps {St A V : Type} (v : St -> V) (c : M St A) : Prop :=
  forall s, v (snd (c s)) = v s.

(** What the loops of the two dequeue functions read besides the queue. *)
Definition backlog_view {R : Type} (f : FastDifPy R)
  : list (option R) * Z * Z * Z * Config.t :=
  (result_queue f, _enqueue_counter f, _dequeue_counter f, handles f, config f).

(** The number of results among the messages [pre]: a sentinel is not one. *)
Definition results_in {R : Type} (pre : list (option R)) : Z :=
  Z.of_nat
    (List.length
       (filter (fun m => match m with Some _ => true | None => false end) pre)).

(** [sum(count)] over the hash table, and the number of files with
    [success = 1]. *)
Definition sum_count (s : SQLiteDB) : Z :=
  fold_right Z.add 0 (map HashTable.count (hash_table s)).

Definition successful_files (s : SQLiteDB) : Z :=
  Z.of_nat
    (List.length (filter (fun r => Directory.success r =? 1) (directory s))).

(** The candidate pair of a row of [dif_table]. *)
Definition key_pair (r : Dif.row) : Z * Z := (Dif.key_a r, Dif.key_b r).

(** The database [prepopulate_diff_table] leaves once the candidate pairs are
    inserted as [rows], with [q] the last pair key. *)
Definition planned_from (rows : list Dif.row) (q : Z) (block_size : Z)
  (has_dir_b : bool) (s : SQLiteDB) : SQLiteDB :=
  let s1 := set_dif_table_seq rows q s in
  let s2 := set_dif_table (set_blocks block_size has_dir_b s1) s1 in
  let tmp := block_key_temp has_dir_b (dif_table s2) in
  set_dif_table
    (map (fun r => with_block_key (select_block_key tmp r) r) (dif_table s2))
    s2.

(** The condition of the cross join on two files. *)
Definition candidate (has_dir_b : bool) (a b : Directory.row) : Prop :=
  if has_dir_b
  then Directory.dir_b a = 0 /\ Directory.dir_b b = 1
  else Directory.key a < Directory.key b.

(** The block of a pair row, and the order in which the blocks are
    numbered: [ORDER BY block_a, block_b] with two partitions, [ORDER BY
    (block_b - block_a), (block_b + block_a)] with one. *)
Definition blocks (r : Dif.row) : option Z * option Z :=
  (Dif.block_a r, Dif.block_b r).

Definition block_order (has_dir_b : bool)
  : option Z * option Z -> option Z * option Z -> bool :=
  if has_dir_b then row_major_leb else diagonal_leb.

(** [p] comes strictly before [q] in the order [le]. *)
Definition strictly_before {T : Type} (le : T -> T -> bool) (p q : T) : bool :=
  (le p q && negb (le q p))%bool.

(** The dense rank of the block [p] among the distinct blocks of the table
    [t]: one more than the number of distinct blocks strictly before it. *)
Definition dense_rank (has_dir_b : bool) (p : option Z * option Z)
  (t : list Dif.row) : Z :=
  1 + Z.of_nat
        (List.length
           (filter (fun q => strictly_before (block_order has_dir_b) q p)
                   (Sql.distinct Sql.pair_eqb (map blocks t)))).


(* ================================================================== *)
(** * Vocabulary of the further statements *)
(* ================================================================== *)

(** The keys of a table stored in rowid order rise strictly. *)
Definition rising (keys : list Z) : Prop := StronglySorted Z.lt keys.


(** The keys [k], [k + 1], ... that AUTOINCREMENT gives to [n] rows. *)
Fixpoint run_from (k : Z) (n : nat) : list Z :=
  match n with
  | O => []
  | S m => k :: run_from (k + 1) m
  end.

(** No key of the catalog is above the counter of the table: what SQLite
    keeps of an AUTOINCREMENT key. *)
Definition seq_covers (s : SQLiteDB) : Prop :=
  forall r, In r (directory s) -> Directory.key r <= directory_seq s.

(** The hashes of the hash table that are not NULL: the values the UNIQUE
    constraint on [hash] compares. *)
Definition text_hashes (t : list HashTable.row) : list string :=
  flat_map (fun r => match HashTable.hash r with
                     | Some h => [h]
                     | None => []
                     end) t.

(** The four hash fields of a preprocessing result are set. *)
Definition hashes_set {H : Type} (res : PreprocessResult.t H) : Prop :=
  PreprocessResult.hash_0 res <> None
  /\ PreprocessResult.hash_90 res <> None
  /\ PreprocessResult.hash_180 res <> None
  /\ PreprocessResult.hash_270 res <> None.

(** The row of the hash table after an upsert of [h] that met a conflict. *)
Definition bump (h : option string) (r : HashTable.row) : HashTable.row :=
  if match h with Some x => hash_is x r | None => false end
  then HashTable.mk (HashTable.key r) (HashTable.hash r) (HashTable.count r + 1)
  else r.

(** The row of a file once the result [res] of its preprocessing is stored:
    the encoded error and [success = 0] for a failed result, the size (and
    with [has_hash] the four hash keys) and [success = 1] otherwise. *)
Definition stored (to_b64 : string -> string) (has_hash : bool)
  (res : PreprocessResult.t Z) (r : Directory.row) : Directory.row :=
  if is_error res then
    Directory.mk (Directory.key r) (Directory.path r) (Directory.filename r)
      (Some (to_b64 (error_text res))) 0 (Directory.px r) (Directory.py r)
      (Directory.dir_b r) (Directory.hash_0 r) (Directory.hash_90 r)
      (Directory.hash_180 r) (Directory.hash_270 r)
  else if has_hash then
    Directory.mk (Directory.key r) (Directory.path r) (Directory.filename r)
      (Directory.error r) 1 (PreprocessResult.org_x res)
      (PreprocessResult.org_y res) (Directory.dir_b r)
      (PreprocessResult.hash_0 res) (PreprocessResult.hash_90 res)
      (PreprocessResult.hash_180 res) (PreprocessResult.hash_270 res)
  else
    Directory.mk (Directory.key r) (Directory.path r) (Directory.filename r)
      (Directory.error r) 1 (PreprocessResult.org_x res)
      (PreprocessResult.org_y res) (Directory.dir_b r)
      (Directory.hash_0 r) (Directory.hash_90 r)
      (Directory.hash_180 r) (Directory.hash_270 r).

(** The row of a file after a batch of results: the result that carries the
    key of the file, if there is one, is stored. *)
Definition marked (to_b64 : string -> string) (has_hash : bool)
  (results : list (PreprocessResult.t Z)) (r : Directory.row)
  : Directory.row :=
  match find (fun res => PreprocessResult.key res =? Directory.key r)
             results with
  | Some res => stored to_b64 has_hash res r
  | None => r
  end.

(** The three UPDATE statements of [batch_of_first_loop_results] as
    functions of the result and the row. *)
Definition err_update (to_b64 : string -> string)
  (res : PreprocessResult.t Z) (r : Directory.row) : Directory.row :=
  if Directory.key r =? PreprocessResult.key res
  then Directory.mk (Directory.key r) (Directory.path r)
         (Directory.filename r) (Some (to_b64 (error_text res))) 0
         (Directory.px r) (Directory.py r) (Directory.dir_b r)
         (Directory.hash_0 r) (Directory.hash_90 r) (Directory.hash_180 r)
         (Directory.hash_270 r)
  else r.

Definition success_update (has_hash : bool)
  (res : PreprocessResult.t Z) (r : Directory.row) : Directory.row :=
  if Directory.key r =? PreprocessResult.key res
  then
    if has_hash then
      Directory.mk (Directory.key r) (Directory.path r) (Directory.filename r)
        (Directory.error r) 1 (PreprocessResult.org_x res)
        (PreprocessResult.org_y res) (Directory.dir_b r)
        (PreprocessResult.hash_0 res) (PreprocessResult.hash_90 res)
        (PreprocessResult.hash_180 res) (PreprocessResult.hash_270 res)
    else
      Directory.mk (Directory.key r) (Directory.path r) (Directory.filename r)
        (Directory.error r) 1 (PreprocessResult.org_x res)
        (PreprocessResult.org_y res) (Directory.dir_b r)
        (Directory.hash_0 r) (Directory.hash_90 r)
        (Directory.hash_180 r) (Directory.hash_270 r)
  else r.

(** The pair row [r] after the item results [res] for the pair keys [key]
    are stored: the last result for the key of the row counts. *)
Definition scored_by (key : list Z) (res : list Q) (r : Dif.row) : Dif.row :=
  match find (fun kd => fst kd =? Dif.key r) (rev (combine key res)) with
  | Some kd => with_dif_success (snd kd) 1 r
  | None => r
  end.

(** The pair row [r] after the results of one task of batch mode are
    stored: [results] runs down from [max_key_y] along the row [min_key_x]
    of the block. *)
Definition scored_in_run (min_key_x max_key_y : Z) (results : list Q)
  (r : Dif.row) : Dif.row :=
  if ((Dif.key_a r =? min_key_x) && (Dif.key_b r <=? max_key_y))%bool then
    match nth_error results (Z.to_nat (max_key_y - Dif.key_b r)) with
    | Some d => with_dif_success d 1 r
    | None => r
    end
  else r.

(** Every pair row names two files of the catalog. *)
Definition refers_to_files (s : SQLiteDB) : Prop :=
  forall d, In d (dif_table s) ->
    (exists a, In a (directory s) /\ Directory.key a = Dif.key_a d)
    /\ (exists b, In b (directory s) /\ Directory.key b = Dif.key_b d).

(** The pair rows of a block that are not computed yet. *)
Definition open_in_block (block_key : Z) (d : Dif.row) : bool :=
  (in_block block_key d && (Dif.success d =? -1))%bool.

(** The file a cluster is built around, and the file it is paired with, in
    a row [(path_a, path_b, dif)] of the duplicate query. *)
Definition anchor (group_a : bool) (row : string * string * Q) : string :=
  if group_a then fst (fst row) else snd (fst row).

Definition member (group_a : bool) (row : string * string * Q) : string :=
  if group_a then snd (fst row) else fst (fst row).

(** The pair rows of a block. *)
Definition block_rows (block_key : Z) (s : SQLiteDB) : list Dif.row :=
  filter (in_block block_key) (dif_table s).

(** The cache [c] holds the images of the keys [lower], ..., [lower + size
    - 1]. *)
Definition holds_keys (c : ImageCache.t) (lower size : Z) : Prop :=
  ImageCache.offset c <= lower
  /\ lower + size <= ImageCache.offset c + ImageCache.size c.

(** The sentinels among the messages of a result queue, and the results a
    queue of item mode carries. *)
Definition sentinels_in {R : Type} (q : list (option R)) : Z :=
  Z.of_nat
    (List.length
       (filter (fun m => match m with Some _ => false | None => true end) q)).

Definition items_of (m : option item_msg) : list ItemCompareResult.t :=
  match m with
  | Some (One r) => [r]
  | Some (Many l) => l
  | None => []
  end.

Definition items_in (q : list (option item_msg)) : Z :=
  Z.of_nat (List.length (flat_map items_of q)).

(** What the dequeue functions change besides the database and the
    caches. *)
Definition queue_view {R : Type} (f : FastDifPy R)
  : list (option R) * Z * Z * Z :=
  (result_queue f, exit_counter f, _dequeue_counter f, _enqueue_counter f).

(** The argument of a comparison built from a row of [get_item_block]. *)
Definition wrap_args (t : Z * Z * Z * string * string * option Z)
  : ItemCompareArgs.t :=
  let '(key, key_a, key_b, path_a, path_b, block_key) := t in
  ItemCompareArgs.mk key key_a key_b path_a path_b block_key.

(** The CHECK constraints of the tables on what a worker sends: a score is
    at least -1, and so is a size that is set. *)
Definition score_ok (d : Q) : Prop := (-1 # 1 <= d)%Q.

Definition size_ok {H : Type} (res : PreprocessResult.t H) : Prop :=
  match PreprocessResult.org_x res with Some x => -1 <= x | None => True end
  /\ match PreprocessResult.org_y res with Some y => -1 <= y | None => True end.

(** The rows [rows] as an AUTOINCREMENT table stores them when its next
    key is [k]: in their order, with the keys [k], [k + 1], ... *)
Definition keyed_from (k : Z) (rows : list Directory.row)
  : list Directory.row :=
  map (fun kr => with_key (fst kr) (snd kr)) (number_from k rows).
(* ================================================================== *)
(** * Facts about the SQL primitives *)
(* ================================================================== *)


Lemma insert_by_perm {A : Type} (le : A -> A -> bool) (x : A) (l : list A) :
  Permutation (x :: l) (Sql.insert_by le x l).
Proof.
  induction l as [|y t IH]; simpl.
  - apply Permutation_refl.
  - destruct (le x y).
    + apply Permutation_refl.
    + eapply perm_trans; [apply perm_swap|].
      apply perm_skip. exact IH.
Qed.

Lemma order_by_perm {A : Type} (le : A -> A -> bool) (l : list A) :
  Permutation l (Sql.order_by le l).
Proof.
  induction l as [|x t IH]; simpl.
  - apply perm_nil.
  - eapply perm_trans; [apply perm_skip; exact IH|].
    apply insert_by_perm.
Qed.

Lemma order_by_In {A : Type} (le : A -> A -> bool) (l : list A) (x : A) :
  In x (Sql.order_by le l) <-> In x l.
Proof.
  split; intro H.
  - eapply Permutation_in; [apply Permutation_sym, order_by_perm|exact H].
  - eapply Permutation_in; [apply order_by_perm|exact H].
Qed.

Lemma order_by_length {A : Type} (le : A -> A -> bool) (l : list A) :
  List.length (Sql.order_by le l) = List.length l.
Proof. symmetry. apply Permutation_length, order_by_perm. Qed.

Lemma limit_incl {A : Type} (n : Z) (l : list A) (x : A) :
  In x (Sql.limit n l) -> In x l.
Proof.
  unfold Sql.limit. destruct (n <? 0); [tauto|].
  intro H. rewrite <- (firstn_skipn (Z.to_nat n) l).
  apply in_or_app. left. exact H.
Qed.

Lemma limit_length {A : Type} (n : Z) (l : list A) :
  0 <= n -> Z.of_nat (List.length (Sql.limit n l)) <= n.
Proof.
  intro Hn. unfold Sql.limit.
  destruct (Z.ltb_spec n 0); [lia|].
  rewrite length_firstn. lia.
Qed.

(* ================================================================== *)
(** * take_preprocess_batch *)
(* ================================================================== *)

Lemma key_unique (l : list Directory.row) (r r' : Directory.row) :
  NoDup (map Directory.key l) -> In r l -> In r' l ->
  Directory.key r = Directory.key r' -> r = r'.
Proof.
  induction l as [|x t IH]; simpl; [tauto|].
  intros Hnd Hr Hr' Hk. inversion Hnd as [|? ? Hnot Hnd']; subst.
  destruct Hr as [->|Hr], Hr' as [->|Hr'].
  - reflexivity.
  - exfalso. apply Hnot. rewrite Hk. apply in_map. exact Hr'.
  - exfalso. apply Hnot. rewrite <- Hk. apply in_map. exact Hr.
  - apply IH; assumption.
Qed.

Lemma existsb_key_In (l sel : list Directory.row) (r : Directory.row) :
  NoDup (map Directory.key l) -> incl sel l -> In r l ->
  existsb (Z.eqb (Directory.key r)) (map Directory.key sel) = true <-> In r sel.
Proof.
  intros Hnd Hincl Hr. rewrite existsb_exists. split.
  - intros [k [Hin Hk]]. apply Z.eqb_eq in Hk.
    apply in_map_iff in Hin. destruct Hin as [r' [Hk' Hr']].
    assert (r = r') as ->; [|exact Hr'].
    apply (key_unique l); auto. congruence.
  - intro Hin. exists (Directory.key r). split.
    + apply in_map. exact Hin.
    + apply Z.eqb_refl.
Qed.

Lemma unprocessed_spec (n : Z) (s : SQLiteDB) (r : Directory.row) :
  In r (unprocessed n s) -> In r (directory s) /\ Directory.success r = -1.
Proof.
  unfold unprocessed. intro H. apply limit_incl in H.
  apply filter_In in H. destruct H as [H1 H2].
  split; [exact H1|]. apply Z.eqb_eq. exact H2.
Qed.

Lemma Forall2_map_self {A : Type} (P : A -> A -> Prop) (g : A -> A)
  (l : list A) :
  (forall x, In x l -> P x (g x)) -> Forall2 P l (map g l).
Proof.
  induction l as [|x t IH]; simpl; intro H; constructor.
  - apply H. left. reflexivity.
  - apply IH. intros y Hy. apply H. right. exact Hy.
Qed.

(** C8.  [batch_of_preprocessing_args n] returns the tasks of exactly the
    rows it moves from UNPROCESSED (-1) to PROCESSING (-2): there is a list
    [sel] of rows of the catalog, all with [success = -1] and at most [n] of
    them ([n] a number of rows: a negative LIMIT is no limit in SQLite), whose
    [(key, path)] are the tasks returned, and the table after the call is the
    table before it with the rows of [sel] set to [success = -2] and every
    other row untouched; a second call returns none of the tasks of the
    first. *)
Theorem batch_of_preprocessing_args_exact (s : SQLiteDB) (n : Z) :
  NoDup (map Directory.key (directory s)) ->
  let tasks := fst (batch_of_preprocessing_args n s) in
  let s' := snd (batch_of_preprocessing_args n s) in
  (exists sel : list Directory.row,
      (0 <= n -> Z.of_nat (List.length sel) <= n)
      /\ tasks = map task_of sel
      /\ (forall r, In r sel ->
                    In r (directory s) /\ Directory.success r = -1)
      /\ Forall2 (fun r r' =>
                    (In r sel /\ r' = with_success (-2) r)
                    \/ (~ In r sel /\ r' = r))
                 (directory s) (directory s'))
  /\ (forall (m : Z) (t : PreprocessArg.t),
         In t tasks -> ~ In t (fst (batch_of_preprocessing_args m s'))).
Proof.
  intros Hnd tasks s'.
  assert (Hincl : incl (unprocessed n s) (directory s)).
  { intros r Hr. apply (unprocessed_spec n s r Hr). }
  split.
  - exists (unprocessed n s). split; [|split; [|split]].
    + intro Hn. unfold unprocessed. apply limit_length. exact Hn.
    + reflexivity.
    + intros r Hr. apply (unprocessed_spec n s r Hr).
    + subst s'. unfold batch_of_preprocessing_args. simpl.
      apply Forall2_map_self. intros r Hr.
      destruct (existsb (Z.eqb (Directory.key r))
                        (map Directory.key (unprocessed n s))) eqn:E.
      * left. split; [|reflexivity].
        apply (existsb_key_In (directory s)); assumption.
      * right. split; [|reflexivity].
        intro Hin. apply (existsb_key_In (directory s)) in Hin; try assumption.
        congruence.
  - intros m t Ht Ht2. subst tasks s'.
    unfold batch_of_preprocessing_args in Ht, Ht2. simpl in Ht, Ht2.
    apply in_map_iff in Ht. destruct Ht as [r [Et Hr]].
    apply in_map_iff in Ht2. destruct Ht2 as [r2 [Et2 Hr2]].
    apply unprocessed_spec in Hr2. destruct Hr2 as [Hin2 Hs2].
    simpl in Hin2. apply in_map_iff in Hin2. destruct Hin2 as [r0 [E0 Hr0]].
    assert (Hk : Directory.key r0 = Directory.key r).
    { assert (Directory.key r2 = Directory.key r).
      { subst t. injection Et2. auto. }
      destruct (existsb _ _) in E0; subst r2; simpl in *; congruence. }
    assert (r0 = r) as ->.
    { apply (key_unique (directory s)); auto. }
    pose proof (unprocessed_spec n s r Hr) as [_ Hs].
    assert (E : existsb (Z.eqb (Directory.key r))
                  (map Directory.key (unprocessed n s)) = true).
    { apply (existsb_key_In (directory s)); assumption. }
    rewrite E in E0. subst r2. simpl in Hs2. lia.
Qed.

Lemma batch_of_preprocessing_args_exact_witness :
  NoDup (map Directory.key (directory three_files))
  /\ fst (batch_of_preprocessing_args 2 three_files)
     = [PreprocessArg.mk "/a/x.jpg" 0; PreprocessArg.mk "/a/y.jpg" 1]
  /\ map Directory.success
       (directory (snd (batch_of_preprocessing_args 2 three_files)))
     = [-2; -2; -1]
  /\ forall (m : Z) (t : PreprocessArg.t),
       In t (fst (batch_of_preprocessing_args 2 three_files)) ->
       ~ In t (fst (batch_of_preprocessing_args m
                      (snd (batch_of_preprocessing_args 2 three_files)))).
Proof.
  assert (Hnd : NoDup (map Directory.key (directory three_files))).
  { simpl. repeat constructor; simpl; intuition discriminate. }
  repeat split; try assumption.
  exact (proj2 (batch_of_preprocessing_args_exact three_files 2 Hnd)).
Defined.

(* ================================================================== *)
(** * The query surfaces *)
(* ================================================================== *)

Lemma filter_none {A : Type} (f : A -> bool) (l : list A) :
  (forall x, In x l -> f x = false) -> filter f l = [].
Proof.
  induction l as [|x t IH]; simpl; intro H; [reflexivity|].
  rewrite (H x (or_introl eq_refl)). apply IH.
  intros y Hy. apply H. right. exact Hy.
Qed.

Lemma real_ltb_lt (x y : Q) : Sql.real_ltb x y = true <-> (x < y)%Q.
Proof.
  unfold Sql.real_ltb. rewrite negb_true_iff. split.
  - intro H. apply Qnot_le_lt. intro Hle.
    apply Qle_bool_iff in Hle. congruence.
  - intro H. destruct (Qle_bool y x) eqn:E; [|reflexivity].
    apply Qle_bool_iff in E. exfalso. exact (Qlt_not_le _ _ H E).
Qed.

Lemma below_spec (delta : Q) (d : Dif.row) :
  below delta d = true <-> (Dif.dif d < delta)%Q /\ Dif.success d = 1.
Proof.
  unfold below. rewrite andb_true_iff, real_ltb_lt, Z.eqb_eq. tauto.
Qed.

Lemma join_directory_In (ds : list Dif.row) (s : SQLiteDB)
  (x : Dif.row * Directory.row * Directory.row) :
  In x (join_directory ds s) ->
  In (fst (fst x)) ds
  /\ In (snd (fst x)) (directory s) /\ In (snd x) (directory s)
  /\ Directory.key (snd (fst x)) = Dif.key_a (fst (fst x))
  /\ Directory.key (snd x) = Dif.key_b (fst (fst x)).
Proof.
  unfold join_directory. intro H.
  apply in_flat_map in H. destruct H as [d [Hd H]].
  apply in_flat_map in H. destruct H as [a [Ha H]].
  apply in_map_iff in H. destruct H as [b [Hx Hb]].
  apply filter_In in Ha. destruct Ha as [Ha Ea].
  apply filter_In in Hb. destruct Hb as [Hb Eb].
  apply Z.eqb_eq in Ea. apply Z.eqb_eq in Eb.
  subst x. simpl. repeat split; auto.
Qed.

Lemma select_duplicates_In (delta : Q) (group_a : bool) (s : SQLiteDB)
  (x : Dif.row * Directory.row * Directory.row) :
  In x (select_duplicates delta group_a s) ->
  In (fst (fst x)) (dif_table s)
  /\ (Dif.dif (fst (fst x)) < delta)%Q
  /\ Dif.success (fst (fst x)) = 1
  /\ In (snd (fst x)) (directory s) /\ In (snd x) (directory s)
  /\ Directory.key (snd (fst x)) = Dif.key_a (fst (fst x))
  /\ Directory.key (snd x) = Dif.key_b (fst (fst x)).
Proof.
  unfold select_duplicates. intro H.
  apply order_by_In in H. apply join_directory_In in H.
  destruct H as [Hd [Ha [Hb [Ea Eb]]]].
  apply filter_In in Hd. destruct Hd as [Hd Hbelow].
  apply below_spec in Hbelow. destruct Hbelow as [Hlt Hs].
  repeat split; assumption.
Qed.

Lemma dict_set_inhabited {V : Type} (k : string) (v : V)
  (d : PyDict.t string V) :
  PyDict.set String.eqb k v d <> [].
Proof.
  destruct d as [|[k' v'] r]; simpl; [discriminate|].
  destruct (String.eqb k k'); discriminate.
Qed.

Lemma cluster_dict_inhabited (group_a : bool)
  (acc : list (string * string * Q)) :
  acc <> [] -> cluster_dict group_a acc <> [].
Proof.
  unfold cluster_dict. intro Hacc.
  destruct (exists_last Hacc) as [front [r E]]. subst acc.
  rewrite fold_left_app. simpl. apply dict_set_inhabited.
Qed.

Lemma cluster_loop_inhabited (group_a : bool)
  (rows acc : list (string * string * Q)) (head : string)
  (c : string * PyDict.t string Q) :
  acc <> [] -> In c (cluster_loop group_a head acc rows) -> snd c <> [].
Proof.
  revert acc head. induction rows as [|row rest IH]; intros acc head Hacc Hc.
  - simpl in Hc. destruct Hc as [<-|[]]. simpl.
    apply cluster_dict_inhabited. exact Hacc.
  - simpl in Hc.
    destruct (String.eqb (if group_a then fst (fst row) else snd (fst row))
                         head).
    + apply (IH (acc ++ [row]) head); [|exact Hc].
      intro E. apply app_eq_nil in E. destruct E as [_ E]. discriminate.
    + destruct Hc as [<-|Hc].
      * simpl. apply cluster_dict_inhabited. exact Hacc.
      * eapply (IH [row]); [discriminate|exact Hc].
Qed.

(** C10.  For every [delta] and grouping side: when no pair row has
    [success = 1] and [dif < delta], [get_cluster] yields nothing at all; and
    every cluster it yields, on any table, has at least one member. *)
Theorem get_cluster_none_or_inhabited (delta : Q) (group_a : bool) (s : SQLiteDB) :
  ((forall d, In d (dif_table s) ->
              ~ (Dif.success d = 1 /\ (Dif.dif d < delta)%Q)) ->
   get_cluster delta group_a s = [])
  /\ (forall c, In c (get_cluster delta group_a s) -> snd c <> []).
Proof.
  split.
  - intro Hno. unfold get_cluster, select_duplicates.
    rewrite (filter_none (below delta) (dif_table s)).
    + destruct group_a; reflexivity.
    + intros d Hd. destruct (below delta d) eqn:E; [|reflexivity].
      apply below_spec in E. exfalso. apply (Hno d Hd). tauto.
  - intros c Hc. unfold get_cluster in Hc.
    destruct (map project (select_duplicates delta group_a s))
      as [|row rest]; [contradiction|].
    eapply (cluster_loop_inhabited group_a rest [row]); [discriminate|].
    exact Hc.
Qed.

Lemma get_cluster_none_or_inhabited_witness :
  (forall d, In d (dif_table unscored_pairs) ->
             ~ (Dif.success d = 1 /\ (Dif.dif d < 1)%Q))
  /\ get_cluster 1 true unscored_pairs = []
  /\ get_cluster 1 true three_pairs = [("/a/x.jpg", [("/a/y.jpg", 0 # 1)])].
Proof.
  assert (Hno : forall d, In d (dif_table unscored_pairs) ->
                          ~ (Dif.success d = 1 /\ (Dif.dif d < 1)%Q)).
  { simpl. intros d [<-|[<-|[<-|[]]]] [Hs _]; simpl in Hs; discriminate. }
  split; [exact Hno|]. split.
  - exact (proj1 (get_cluster_none_or_inhabited 1 true unscored_pairs) Hno).
  - reflexivity.
Defined.

(* ================================================================== *)
(** * record_errors *)
(* ================================================================== *)

Lemma failed_row_cons (k : Z) (ks : list Z) (r : Dif.row) :
  failed_row ks
    (if Dif.key r =? k then with_dif_success (Dif.dif r) 0 r else r)
  = failed_row (k :: ks) r.
Proof.
  unfold failed_row. simpl.
  destruct (Z.eqb_spec (Dif.key r) k) as [E|E]; simpl.
  - destruct (existsb _ ks); reflexivity.
  - reflexivity.
Qed.

Lemma set_errors_run (ks : list Z) (s : SQLiteDB) :
  debug_execute_many set_error_stmt ks s
  = (Val tt, set_dif_table (map (failed_row ks) (dif_table s)) s).
Proof.
  unfold debug_execute_many. revert s.
  induction ks as [|k ks IH]; intro s.
  - simpl. unfold ret. destruct s as [d dq h hq t tq e].
    unfold set_dif_table, failed_row. simpl. rewrite map_id. reflexivity.
  - simpl. unfold bind at 1. unfold set_error_stmt at 1, modify.
    rewrite IH. destruct s as [d dq h hq t tq e].
    unfold set_dif_table. simpl. rewrite map_map.
    do 2 f_equal. apply map_ext. intro r. apply failed_row_cons.
Qed.

Lemma insert_errors_run (args : list (Z * string)) (s : SQLiteDB) :
  NoDup (map fst args) ->
  (forall k, In k (map fst args) -> ~ In k (map fst (dif_error_table s))) ->
  debug_execute_many insert_error_stmt args s
  = (Val tt, set_dif_error_table (dif_error_table s ++ args) s).
Proof.
  unfold debug_execute_many. revert s.
  induction args as [|a args IH]; intros s Hnd Hfresh.
  - simpl. unfold ret. destruct s as [d dq h hq t tq e].
    unfold set_dif_error_table. simpl. rewrite app_nil_r. reflexivity.
  - simpl. unfold bind at 1. unfold insert_error_stmt at 1.
    inversion Hnd as [|? ? Hnot Hnd']; subst.
    assert (E : existsb (fun e => fst e =? fst a) (dif_error_table s) = false).
    { apply not_true_is_false. intro H. apply existsb_exists in H.
      destruct H as [e [He Hk]]. apply Z.eqb_eq in Hk.
      apply (Hfresh (fst a)); [left; reflexivity|].
      rewrite <- Hk. apply in_map. exact He. }
    rewrite E. rewrite IH.
    + destruct s as [d dq h hq t tq e].
      unfold set_dif_error_table. simpl. rewrite <- app_assoc. reflexivity.
    + exact Hnd'.
    + intros k Hk Hin. destruct s as [d dq h hq t tq e]. simpl in *.
      rewrite map_app in Hin. apply in_app_or in Hin.
      destruct Hin as [Hin|Hin].
      * apply (Hfresh k); [right; exact Hk|exact Hin].
      * simpl in Hin. destruct Hin as [Hin|[]]. subst k. contradiction.
Qed.

Lemma failed_row_In (ks : list Z) (r : Dif.row) :
  In (Dif.key r) ks -> failed_row ks r = with_dif_success (Dif.dif r) 0 r.
Proof.
  intro H. unfold failed_row.
  assert (E : existsb (Z.eqb (Dif.key r)) ks = true).
  { apply existsb_exists. exists (Dif.key r). split; [exact H|].
    apply Z.eqb_refl. }
  rewrite E. reflexivity.
Qed.

Lemma failed_row_key (ks : list Z) (r : Dif.row) :
  Dif.key (failed_row ks r) = Dif.key r.
Proof. unfold failed_row. destruct (existsb _ ks); reflexivity. Qed.

(** An error for a pair that has an error row already: the rows in front
    of it are inserted, and the statement for it fails on the PRIMARY KEY. *)
Lemma insert_errors_conflict (pre post : list (Z * string)) (a : Z * string)
  (s : SQLiteDB) :
  NoDup (map fst pre) ->
  (forall k, In k (map fst pre) -> ~ In k (map fst (dif_error_table s))) ->
  In (fst a) (map fst (dif_error_table s)) ->
  debug_execute_many insert_error_stmt (pre ++ a :: post) s
  = (Raise IntegrityError,
     set_dif_error_table (dif_error_table s ++ pre) s).
Proof.
  unfold debug_execute_many. revert s.
  induction pre as [|x pre IH]; intros s Hnd Hfresh Htaken.
  - cbn [app for_each]. unfold bind. unfold insert_error_stmt at 1.
    assert (E : existsb (fun e => fst e =? fst a) (dif_error_table s) = true).
    { apply in_map_iff in Htaken. destruct Htaken as [e [Ee He]].
      apply existsb_exists. exists e. split; [exact He|].
      apply Z.eqb_eq. exact Ee. }
    rewrite E. destruct s as [d dq h hq t tq e].
    unfold set_dif_error_table. simpl. rewrite app_nil_r. reflexivity.
  - cbn [app for_each]. unfold bind at 1. unfold insert_error_stmt at 1.
    inversion Hnd as [|? ? Hnot Hnd']; subst.
    assert (E : existsb (fun e => fst e =? fst x) (dif_error_table s) = false).
    { apply not_true_is_false. intro H. apply existsb_exists in H.
      destruct H as [e [He Hk]]. apply Z.eqb_eq in Hk.
      apply (Hfresh (fst x)); [left; reflexivity|].
      rewrite <- Hk. apply in_map. exact He. }
    rewrite E. rewrite IH.
    + destruct s as [d dq h hq t tq e].
      unfold set_dif_error_table. simpl. rewrite <- app_assoc. reflexivity.
    + exact Hnd'.
    + intros k Hk Hin. destruct s as [d dq h hq t tq e]. simpl in *.
      rewrite map_app in Hin. apply in_app_or in Hin.
      destruct Hin as [Hin|Hin].
      * apply (Hfresh k); [right; exact Hk|exact Hin].
      * simpl in Hin. destruct Hin as [Hin|[]]. subst k. contradiction.
    + destruct s as [d dq h hq t tq e]. simpl in *.
      rewrite map_app. apply in_or_app. left. exact Htaken.
Qed.

(** C9, as the code has it.  [insert_batch_diff_error] first sets
    [success = 0] on the pair row of every error and then inserts the error
    rows one by one.  On errors whose pairs have no error row yet it
    returns, and for every failed pair [k] with message [msg] the pair-error
    table holds [(k, to_b64 msg)] and the pair row has [success = 0].  When a
    pair of the dictionary has an error row already, the call raises the
    integrity error of the PRIMARY KEY of the pair-error table: every pair of
    the dictionary has [success = 0] all the same, the error rows of the
    pairs in front of the first such pair are inserted, and no other row is:
    the pairs behind it are failed without an error row.  On every state,
    every row of [get_duplicate_pairs delta] and so of [get_diff_pairs
    delta] comes from a pair row with [success = 1], so that no failed pair
    is in the output. *)
Theorem insert_batch_diff_error_recorded (to_b64 : string -> string)
  (errors : PyDict.t Z string) (s : SQLiteDB) :
  NoDup (map fst errors) ->
  let run := insert_batch_diff_error to_b64 errors s in
  ((forall k, In k (map fst errors) -> ~ In k (map fst (dif_error_table s))) ->
   exists s',
      run = (Val tt, s')
      /\ (forall k msg, In (k, msg) errors ->
            In (k, to_b64 msg) (dif_error_table s')
            /\ (forall d, In d (dif_table s) -> Dif.key d = k ->
                          In (with_dif_success (Dif.dif d) 0 d) (dif_table s'))
            /\ (forall d', In d' (dif_table s') -> Dif.key d' = k ->
                           Dif.success d' = 0))
      /\ (forall delta x, In x (select_duplicates delta true s') ->
                          ~ In (Dif.key (fst (fst x))) (map fst errors)))
  /\ (forall pre k msg post,
        errors = pre ++ (k, msg) :: post ->
        (forall k', In k' (map fst pre) ->
                    ~ In k' (map fst (dif_error_table s))) ->
        In k (map fst (dif_error_table s)) ->
        fst run = Raise IntegrityError
        /\ dif_table (snd run)
           = map (failed_row (map fst errors)) (dif_table s)
        /\ (forall d', In d' (dif_table (snd run)) ->
                       In (Dif.key d') (map fst errors) ->
                       Dif.success d' = 0)
        /\ dif_error_table (snd run)
           = dif_error_table s
             ++ map (fun kv => (fst kv, to_b64 (snd kv))) pre)
  /\ (forall (R : Type) (delta : Q) (f : FastDifPy R)
             (out : string * string * Q),
         In out (get_diff_pairs delta f) ->
         exists d a b,
           In d (dif_table (db f))
           /\ Dif.success d = 1 /\ Dif.success d <> 0
           /\ In a (directory (db f)) /\ Directory.key a = Dif.key_a d
           /\ In b (directory (db f)) /\ Directory.key b = Dif.key_b d
           /\ out = (Directory.path a, Directory.path b, Dif.dif d)).
Proof.
  intros Hnd run. subst run.
  set (s1 := set_dif_table
               (map (failed_row (map fst errors)) (dif_table s)) s).
  assert (Hzero : forall d', In d' (dif_table s1) ->
             In (Dif.key d') (map fst errors) -> Dif.success d' = 0).
  { intros d' Hd' Hk. subst s1. destruct s as [d dq h hq t tq e].
    simpl in Hd'. apply in_map_iff in Hd'. destruct Hd' as [r [E Hr]].
    subst d'. rewrite failed_row_key in Hk.
    rewrite (failed_row_In _ _ Hk). reflexivity. }
  split; [|split].
  - intro Hfresh. unfold insert_batch_diff_error, bind.
    rewrite set_errors_run. fold s1.
    rewrite insert_errors_run.
    + eexists. split; [reflexivity|].
      split.
      * intros k msg Hin.
        assert (Hk : In k (map fst errors)).
        { change k with (fst (k, msg)). apply in_map. exact Hin. }
        repeat split.
        -- destruct s as [d dq h hq t tq e]. simpl.
           apply in_or_app. right.
           change (k, to_b64 msg)
             with ((fun kv : Z * string => (fst kv, to_b64 (snd kv))) (k, msg)).
           apply in_map. exact Hin.
        -- intros d Hd Ek. destruct s as [dd dq h hq t tq e]. simpl in *.
           rewrite <- (failed_row_In (map fst errors) d);
             [apply in_map; exact Hd|]. rewrite Ek. exact Hk.
        -- intros d' Hd' Ek. apply Hzero.
           ++ destruct s as [dd dq h hq t tq e]. exact Hd'.
           ++ rewrite Ek. exact Hk.
      * intros delta x Hx Hk.
        apply select_duplicates_In in Hx.
        destruct Hx as [Hd [_ [Hs _]]].
        assert (Dif.success (fst (fst x)) = 0); [|lia].
        apply Hzero; [|exact Hk].
        destruct s as [dd dq h hq t tq e]. exact Hd.
    + rewrite map_map. simpl. exact Hnd.
    + rewrite map_map. simpl. intros k Hk.
      subst s1. destruct s as [dd dq h hq t tq e]. simpl.
      apply Hfresh. exact Hk.
  - intros pre k msg post Eerr Hfresh Htaken.
    unfold insert_batch_diff_error, bind.
    rewrite set_errors_run. fold s1.
    assert (Eargs : map (fun kv => (fst kv, to_b64 (snd kv))) errors
                    = map (fun kv => (fst kv, to_b64 (snd kv))) pre
                      ++ (k, to_b64 msg)
                         :: map (fun kv => (fst kv, to_b64 (snd kv))) post).
    { rewrite Eerr, map_app. reflexivity. }
    rewrite Eargs.
    rewrite insert_errors_conflict.
    + cbn [fst snd]. split; [reflexivity|].
      split; [destruct s as [dd dq h hq t tq e]; reflexivity|].
      split; [|destruct s as [dd dq h hq t tq e]; reflexivity].
      intros d' Hd' Hk. apply Hzero; [|exact Hk].
      destruct s as [dd dq h hq t tq e]. exact Hd'.
    + rewrite map_map. simpl.
      rewrite Eerr, map_app in Hnd. apply NoDup_app_remove_r in Hnd.
      exact Hnd.
    + rewrite map_map. simpl. intros k' Hk'.
      subst s1. destruct s as [dd dq h hq t tq e]. simpl.
      apply Hfresh. exact Hk'.
    + subst s1. destruct s as [dd dq h hq t tq e]. simpl. exact Htaken.
  - intros R delta f out Hout.
    unfold get_diff_pairs, get_duplicate_pairs in Hout.
    apply in_map_iff in Hout. destruct Hout as [x [E Hx]].
    apply select_duplicates_In in Hx.
    destruct Hx as [Hd [_ [Hs [Ha [Hb [Ea Eb]]]]]].
    exists (fst (fst x)), (snd (fst x)), (snd x).
    repeat split; try assumption; [lia|].
    symmetry. exact E.
Qed.

Lemma insert_batch_diff_error_recorded_witness :
  NoDup (map fst [(3, "cannot decode")])
  /\ (forall k, In k (map fst [(3, "cannot decode")]) ->
                ~ In k (map fst (dif_error_table three_pairs)))
  /\ (exists s',
        insert_batch_diff_error tagged [(3, "cannot decode")] three_pairs
        = (Val tt, s')
        /\ dif_error_table s' = [(3, "b64:cannot decode")]
        /\ get_duplicate_pairs (10 # 1) s'
           = [("/a/x.jpg", "/a/y.jpg", 0 # 1);
              ("/a/x.jpg", "/a/z.jpg", 5 # 1)])
  /\ (NoDup (map fst [(1, "first"); (3, "again"); (2, "last")])
      /\ In 3 (map fst (dif_error_table one_error_row))
      /\ fst (insert_batch_diff_error tagged
                [(1, "first"); (3, "again"); (2, "last")] one_error_row)
         = Raise IntegrityError
      /\ dif_error_table
           (snd (insert_batch_diff_error tagged
                   [(1, "first"); (3, "again"); (2, "last")] one_error_row))
         = dif_error_table one_error_row ++ [(1, "b64:first")]).
Proof.
  assert (Hnd : NoDup (map fst [(3, "cannot decode")])).
  { simpl. repeat constructor. simpl. tauto. }
  assert (Hfresh : forall k, In k (map fst [(3, "cannot decode")]) ->
                             ~ In k (map fst (dif_error_table three_pairs))).
  { simpl. tauto. }
  assert (Hnd3 : NoDup (map fst [(1, "first"); (3, "again"); (2, "last")])).
  { simpl. repeat constructor; simpl; intuition discriminate. }
  assert (Htaken : In 3 (map fst (dif_error_table one_error_row))).
  { left. reflexivity. }
  split; [exact Hnd|]. split; [exact Hfresh|]. split.
  - destruct (proj1 (insert_batch_diff_error_recorded tagged
                       [(3, "cannot decode")] three_pairs Hnd) Hfresh)
      as [s' [Hrun _]].
    exists s'. split; [exact Hrun|].
    vm_compute in Hrun. injection Hrun as <-. split; reflexivity.
  - split; [exact Hnd3|]. split; [exact Htaken|].
    destruct (proj1 (proj2 (insert_batch_diff_error_recorded tagged
                              [(1, "first"); (3, "again"); (2, "last")]
                              one_error_row Hnd3))
                [(1, "first")] 3 "again" [(2, "last")] eq_refl)
      as [Hraise [_ [_ Hrows]]].
    + intros k' [<-|[]] [H|[]]. discriminate.
    + exact Htaken.
    + split; [exact Hraise|exact Hrows].
Defined.

(** C9, as the specification has it, fails when a pair has an error row
    already.  With an error row for the pair 3, recording the errors of the
    pairs 1, 3 and 2 raises the integrity error; the three pairs have
    [success = 0], the pair 1 has its error row, the pair 3 keeps its old
    one, and the pair 2 is failed without any row in the pair-error table. *)
Lemma insert_batch_diff_error_existing_row_raises :
  let run := insert_batch_diff_error tagged
               [(1, "first"); (3, "again"); (2, "last")] one_error_row in
  fst run = Raise IntegrityError
  /\ map (fun d => (Dif.key d, Dif.success d)) (dif_table (snd run))
     = [(1, 0); (2, 0); (3, 0)]
  /\ dif_error_table (snd run) = [(3, "b64:earlier"); (1, "b64:first")]
  /\ ~ In 2 (map fst (dif_error_table (snd run))).
Proof.
  cbv zeta. repeat split; try reflexivity.
  vm_compute. intros [H|[H|[]]]; discriminate.
Qed.

(* ================================================================== *)
(** * bulk_insert_file *)
(* ================================================================== *)

Lemma path_dir_b_taken_app (p : string) (b : Z) (t u : list Directory.row) :
  path_dir_b_taken p b (t ++ u)
  = (path_dir_b_taken p b t || path_dir_b_taken p b u)%bool.
Proof. unfold path_dir_b_taken. apply existsb_app. Qed.

Lemma insert_file_stmt_cases (arg : string * string * Z) (s : SQLiteDB) :
  (path_dir_b_taken (fst (fst arg)) (snd arg) (directory s) = true
   /\ insert_file_stmt arg s = (Raise IntegrityError, s))
  \/ (path_dir_b_taken (fst (fst arg)) (snd arg) (directory s) = false
      /\ exists k,
          insert_file_stmt arg s
          = (Val tt,
             set_directory_seq (directory s ++ [with_key k (new_file arg)])
                               k s)).
Proof.
  destruct arg as [[p f] b]. unfold insert_file_stmt, insert_directory. simpl.
  destruct (path_dir_b_taken p b (directory s)).
  - left. split; reflexivity.
  - right. split; [reflexivity|]. eexists. reflexivity.
Qed.

Lemma bulk_insert_append_only (tgt : list (string * string * Z)) (s : SQLiteDB) :
  exists added,
    directory (snd (for_each insert_file_stmt tgt s)) = directory s ++ added.
Proof.
  revert s. induction tgt as [|arg tgt IH]; intro s.
  - exists []. simpl. rewrite app_nil_r. reflexivity.
  - simpl. unfold bind.
    destruct (insert_file_stmt_cases arg s) as [[_ E]|[_ [k E]]]; rewrite E.
    + exists []. simpl. rewrite app_nil_r. reflexivity.
    + destruct (IH (set_directory_seq
                      (directory s ++ [with_key k (new_file arg)]) k s))
        as [added Ha].
      exists (with_key k (new_file arg) :: added).
      rewrite Ha. simpl. rewrite <- app_assoc. reflexivity.
Qed.

Lemma bulk_insert_all_fresh (tgt : list (string * string * Z)) (b : Z)
  (s : SQLiteDB) :
  (forall arg, In arg tgt -> snd arg = b) ->
  NoDup (map (fun arg => fst (fst arg)) tgt) ->
  (forall arg, In arg tgt ->
               path_dir_b_taken (fst (fst arg)) b (directory s) = false) ->
  fst (for_each insert_file_stmt tgt s) = Val tt
  /\ exists added,
      directory (snd (for_each insert_file_stmt tgt s)) = directory s ++ added
      /\ map (with_key 0) added = map new_file tgt.
Proof.
  revert s. induction tgt as [|arg tgt IH]; intros s Hb Hnd Hfresh.
  - simpl. split; [reflexivity|]. exists []. rewrite app_nil_r. auto.
  - simpl. unfold bind.
    inversion Hnd as [|? ? Hnot Hnd']; subst.
    assert (Eb : snd arg = b) by (apply Hb; left; reflexivity).
    destruct (insert_file_stmt_cases arg s) as [[Ht _]|[_ [k E]]].
    + rewrite Eb, Hfresh in Ht; [discriminate|left; reflexivity].
    + rewrite E.
      set (s1 := set_directory_seq
                   (directory s ++ [with_key k (new_file arg)]) k s).
      destruct (IH s1) as [Hv [added [Ha Hm]]].
      * intros a Ha. apply Hb. right. exact Ha.
      * exact Hnd'.
      * intros a Ha. subst s1. simpl.
        rewrite path_dir_b_taken_app, Hfresh by (right; exact Ha).
        simpl. destruct arg as [[p f] b']. simpl in *.
        destruct (String.eqb_spec p (fst (fst a))) as [Ep|Ep]; [|reflexivity].
        exfalso. apply Hnot. rewrite Ep.
        apply (in_map (fun arg => fst (fst arg))). exact Ha.
      * split; [exact Hv|].
        exists (with_key k (new_file arg) :: added). split.
        -- rewrite Ha. subst s1. simpl. rewrite <- app_assoc. reflexivity.
        -- simpl. rewrite Hm. f_equal.
           destruct arg as [[p f] b']. reflexivity.
Qed.

Lemma bulk_insert_duplicate (tgt : list (string * string * Z)) (b : Z)
  (s : SQLiteDB) :
  (forall arg, In arg tgt -> snd arg = b) ->
  (exists arg, In arg tgt
               /\ path_dir_b_taken (fst (fst arg)) b (directory s) = true) ->
  fst (for_each insert_file_stmt tgt s) = Raise IntegrityError.
Proof.
  revert s. induction tgt as [|arg tgt IH]; intros s Hb [dup [Hin Hdup]].
  - contradiction.
  - simpl. unfold bind.
    destruct (insert_file_stmt_cases arg s) as [[_ E]|[Hfree [k E]]];
      rewrite E; [reflexivity|].
    apply IH.
    + intros a Ha. apply Hb. right. exact Ha.
    + exists dup. destruct Hin as [->|Hin].
      * rewrite (Hb dup (or_introl eq_refl)) in Hfree. congruence.
      * split; [exact Hin|]. simpl.
        rewrite path_dir_b_taken_app, Hdup. reflexivity.
Qed.

(** C6, as the code has it.  [bulk_insert_file] is append-only and rejects
    duplicates: the rows of the catalog stay as they are, in front of the
    rows added; when the paths of the entries are pairwise distinct and none
    of them is in the catalog with this partition, every entry is appended
    with the defaults of a new file and no error is raised; and when the
    [(path, partition)] of an entry is already in the catalog, the call
    raises the integrity error of the UNIQUE constraint. *)
Theorem bulk_insert_file_appends_or_rejects (path : string)
  (filenames : list string) (dir_b : bool) (s : SQLiteDB) :
  let b := if dir_b then 1 else 0 in
  let paths := map (os_path_join path) filenames in
  let run := bulk_insert_file path filenames dir_b s in
  (exists added, directory (snd run) = directory s ++ added)
  /\ (NoDup paths ->
      (forall p, In p paths -> path_dir_b_taken p b (directory s) = false) ->
      fst run = Val tt
      /\ exists added,
          directory (snd run) = directory s ++ added
          /\ map (with_key 0) added
             = map (fun f => new_file (os_path_join path f, f, b)) filenames)
  /\ ((exists p, In p paths /\ path_dir_b_taken p b (directory s) = true) ->
      fst run = Raise IntegrityError).
Proof.
  intros b paths run. subst run. unfold bulk_insert_file, debug_execute_many.
  fold b.
  set (tgt := map (fun f => (os_path_join path f, f, b)) filenames).
  assert (Hb : forall arg, In arg tgt -> snd arg = b).
  { intros arg Ha. subst tgt. apply in_map_iff in Ha.
    destruct Ha as [f [<- _]]. reflexivity. }
  assert (Hp : map (fun arg : string * string * Z => fst (fst arg)) tgt = paths).
  { subst tgt paths. rewrite map_map. reflexivity. }
  split; [apply bulk_insert_append_only|]. split.
  - intros Hnd Hfresh.
    destruct (bulk_insert_all_fresh tgt b s Hb) as [Hv [added [Ha Hm]]].
    + rewrite Hp. exact Hnd.
    + intros arg Harg. apply Hfresh. rewrite <- Hp.
      apply (in_map (fun arg => fst (fst arg))). exact Harg.
    + split; [exact Hv|]. exists added. split; [exact Ha|].
      rewrite Hm. subst tgt. rewrite map_map. reflexivity.
  - intros [p [Hin Ht]]. apply (bulk_insert_duplicate tgt b s Hb).
    rewrite <- Hp in Hin. apply in_map_iff in Hin.
    destruct Hin as [arg [<- Ha]]. exists arg. split; assumption.
Qed.

Lemma bulk_insert_file_appends_or_rejects_witness :
  (NoDup (map (os_path_join "/a") ["v.jpg"; "w.jpg"])
   /\ (forall p, In p (map (os_path_join "/a") ["v.jpg"; "w.jpg"]) ->
                 path_dir_b_taken p 0 (directory three_files) = false)
   /\ fst (bulk_insert_file "/a" ["v.jpg"; "w.jpg"] false three_files) = Val tt)
  /\ ((exists p, In p (map (os_path_join "/a") ["w.jpg"; "x.jpg"])
                 /\ path_dir_b_taken p 0 (directory three_files) = true)
      /\ fst (bulk_insert_file "/a" ["w.jpg"; "x.jpg"] false three_files)
         = Raise IntegrityError).
Proof.
  assert (Hnd : NoDup (map (os_path_join "/a") ["v.jpg"; "w.jpg"])).
  { repeat constructor; simpl; intuition discriminate. }
  assert (Hfresh : forall p, In p (map (os_path_join "/a") ["v.jpg"; "w.jpg"]) ->
                     path_dir_b_taken p 0 (directory three_files) = false).
  { intros p [<-|[<-|[]]]; reflexivity. }
  assert (Hdup : exists p, In p (map (os_path_join "/a") ["w.jpg"; "x.jpg"])
                   /\ path_dir_b_taken p 0 (directory three_files) = true).
  { exists "/a/x.jpg". split; [right; left; reflexivity|reflexivity]. }
  split.
  - split; [exact Hnd|]. split; [exact Hfresh|].
    exact (proj1 (proj1 (proj2 (bulk_insert_file_appends_or_rejects
                                  "/a" ["v.jpg"; "w.jpg"] false three_files))
                        Hnd Hfresh)).
  - split; [exact Hdup|].
    exact (proj2 (proj2 (bulk_insert_file_appends_or_rejects
                           "/a" ["w.jpg"; "x.jpg"] false three_files)) Hdup).
Defined.

(** C6, as the specification has it, fails: the file [/a/x.jpg] is in the
    catalog, and inserting it again raises instead of being ignored; in the
    list [w.jpg, x.jpg, v.jpg] the fresh entry [v.jpg] that follows the
    duplicate is not appended. *)
Lemma bulk_insert_file_duplicate_raises :
  path_dir_b_taken "/a/x.jpg" 0 (directory three_files) = true
  /\ bulk_insert_file "/a" ["x.jpg"] false three_files
     = (Raise IntegrityError, three_files)
  /\ fst (bulk_insert_file "/a" ["w.jpg"; "x.jpg"; "v.jpg"] false three_files)
     = Raise IntegrityError
  /\ map Directory.path
       (directory
          (snd (bulk_insert_file "/a" ["w.jpg"; "x.jpg"; "v.jpg"] false
                                 three_files)))
     = ["/a/x.jpg"; "/a/y.jpg"; "/a/z.jpg"; "/a/w.jpg"].
Proof. repeat split; reflexivity. Qed.

(* ================================================================== *)
(** * The partition swap *)
(* ================================================================== *)

Lemma path_dir_b_taken_false (p : string) (b : Z) (t : list Directory.row) :
  ~ In (p, b) (map path_dir_b t) -> path_dir_b_taken p b t = false.
Proof.
  intro H. apply not_true_is_false. intro E.
  unfold path_dir_b_taken in E. apply existsb_exists in E.
  destruct E as [r [Hr E]]. apply andb_true_iff in E. destruct E as [E1 E2].
  apply String.eqb_eq in E1. apply Z.eqb_eq in E2.
  apply H. apply in_map_iff. exists r. split; [|exact Hr].
  unfold path_dir_b. congruence.
Qed.

Lemma insert_select_directory_ok (rows t : list Directory.row) (q : Z) :
  NoDup (map path_dir_b (t ++ rows)) ->
  exists added q',
    insert_select_directory (t, q) rows = Some (t ++ added, q')
    /\ map (with_key 0) added = map (with_key 0) rows.
Proof.
  revert t q. induction rows as [|r rows IH]; intros t q Hnd.
  - exists [], q. simpl. rewrite app_nil_r. auto.
  - simpl.
    assert (Hfree : path_dir_b_taken (Directory.path r) (Directory.dir_b r) t
                    = false).
    { apply path_dir_b_taken_false.
      rewrite map_app in Hnd. simpl in Hnd.
      apply NoDup_remove_2 in Hnd. intro Hin. apply Hnd.
      apply in_or_app. left. exact Hin. }
    rewrite Hfree.
    set (k := Sql.next_rowid q (map Directory.key t)).
    destruct (IH (t ++ [with_key k r]) k) as [added [q' [E Hm]]].
    + rewrite <- app_assoc. simpl.
      rewrite map_app in *. simpl in *. exact Hnd.
    + exists (with_key k r :: added), q'. split.
      * rewrite E. rewrite <- app_assoc. reflexivity.
      * simpl. rewrite Hm. reflexivity.
Qed.

Lemma relabel_NoDup (d : list Directory.row) (b c : Z) :
  NoDup (map path_dir_b d) ->
  NoDup (map path_dir_b
           (map (with_dir_b c) (filter (fun r => Directory.dir_b r =? b) d))).
Proof.
  induction d as [|x t IH]; simpl; intro Hnd; [constructor|].
  inversion Hnd as [|? ? Hnot Hnd']; subst.
  destruct (Z.eqb_spec (Directory.dir_b x) b) as [Eb|Eb]; [|apply IH; exact Hnd'].
  simpl. constructor; [|apply IH; exact Hnd'].
  intro Hin. apply Hnot.
  rewrite map_map in Hin. apply in_map_iff in Hin.
  destruct Hin as [r [E Hr]]. apply filter_In in Hr. destruct Hr as [Hr Er].
  apply Z.eqb_eq in Er. apply in_map_iff. exists r. split; [|exact Hr].
  unfold path_dir_b in *. simpl in E. injection E as E. congruence.
Qed.

Lemma swapped_rows_NoDup (d : list Directory.row) :
  NoDup (map path_dir_b d) ->
  NoDup (map path_dir_b
           (map (with_dir_b 0) (filter (fun r => Directory.dir_b r =? 1) d)
            ++ map (with_dir_b 1)
                 (filter (fun r => Directory.dir_b r =? 0) d))).
Proof.
  intro Hnd. rewrite map_app. apply NoDup_app.
  - apply relabel_NoDup. exact Hnd.
  - apply relabel_NoDup. exact Hnd.
  - intros [p b] H0 H1.
    rewrite map_map in H0, H1.
    apply in_map_iff in H0. destruct H0 as [r0 [E0 _]].
    apply in_map_iff in H1. destruct H1 as [r1 [E1 _]].
    unfold path_dir_b in *. simpl in *. congruence.
Qed.

Lemma partition_perm {A : Type} (f g : A -> bool) (l : list A) :
  (forall x, In x l -> f x = negb (g x)) ->
  Permutation l (filter f l ++ filter g l).
Proof.
  induction l as [|x t IH]; simpl; intro H; [constructor|].
  assert (IH' : Permutation t (filter f t ++ filter g t)).
  { apply IH. intros y Hy. apply H. right. exact Hy. }
  rewrite (H x (or_introl eq_refl)).
  destruct (g x); simpl.
  - apply Permutation_cons_app. exact IH'.
  - apply perm_skip. exact IH'.
Qed.

Lemma swap_dir_b_run (s : SQLiteDB) :
  NoDup (map path_dir_b (directory s)) ->
  exists t q,
    swap_dir_b s = (Val tt, set_directory_seq t q s)
    /\ map (with_key 0) t
       = map swapped (filter (fun r => Directory.dir_b r =? 1) (directory s))
         ++ map swapped (filter (fun r => Directory.dir_b r =? 0) (directory s)).
Proof.
  intro Hnd. unfold swap_dir_b.
  pose proof (swapped_rows_NoDup (directory s) Hnd) as Hall.
  set (rb := map (with_dir_b 0)
                 (filter (fun r => Directory.dir_b r =? 1) (directory s))) in *.
  set (ra := map (with_dir_b 1)
                 (filter (fun r => Directory.dir_b r =? 0) (directory s))) in *.
  destruct (insert_select_directory_ok rb [] 0) as [tb [qb [Eb Hb]]].
  { simpl. rewrite map_app in Hall. apply NoDup_app_remove_r in Hall.
    exact Hall. }
  rewrite Eb. simpl.
  destruct (insert_select_directory_ok ra tb qb) as [ta [qa [Ea Ha]]].
  { rewrite map_app.
    replace (map path_dir_b tb) with (map path_dir_b rb).
    - rewrite <- map_app. exact Hall.
    - transitivity (map path_dir_b (map (with_key 0) rb)).
      + rewrite map_map. reflexivity.
      + rewrite <- Hb, map_map. reflexivity. }
  rewrite Ea. exists (tb ++ ta), qa. split; [reflexivity|].
  rewrite map_app, Hb, Ha. subst rb ra. rewrite !map_map. f_equal.
  - apply map_ext_in. intros r Hr. apply filter_In in Hr.
    destruct Hr as [_ Er]. apply Z.eqb_eq in Er.
    unfold swapped. rewrite Er. reflexivity.
  - apply map_ext_in. intros r Hr. apply filter_In in Hr.
    destruct Hr as [_ Er]. apply Z.eqb_eq in Er.
    unfold swapped. rewrite Er. reflexivity.
Qed.

(** C1, as the code has it.  With no directory b, or with [|A| <= |B|],
    [cond_switch_a_b] changes nothing.  With a directory b and [|A| > |B|] it
    swaps the two root paths and rebuilds the table: the rows of b first,
    then the rows of a, each with its label exchanged and the other columns
    but the key kept, so that the new table is the old one with every label
    exchanged, up to the order and the keys of the rows. *)
Theorem cond_switch_a_b_swaps_larger_a (R : Type) (f : FastDifPy R) :
  NoDup (map path_dir_b (directory (db f))) ->
  (forall r, In r (directory (db f)) ->
             Directory.dir_b r = 0 \/ Directory.dir_b r = 1) ->
  let count_a := get_dir_entry_count false (db f) in
  let count_b := get_dir_entry_count true (db f) in
  ((Config.root_dir_b (config f) = None \/ count_a <= count_b) ->
   cond_switch_a_b f = (Val tt, f))
  /\ (forall root_b,
        Config.root_dir_b (config f) = Some root_b -> count_a > count_b ->
        exists f',
          cond_switch_a_b f = (Val tt, f')
          /\ Config.root_dir_a (config f') = root_b
          /\ Config.root_dir_b (config f')
             = Some (Config.root_dir_a (config f))
          /\ map (with_key 0) (directory (db f'))
             = map swapped (filter (fun r => Directory.dir_b r =? 1)
                                   (directory (db f)))
               ++ map swapped (filter (fun r => Directory.dir_b r =? 0)
                                      (directory (db f)))
          /\ Permutation (map swapped (directory (db f)))
                         (map (with_key 0) (directory (db f')))).
Proof.
  intros Hnd Hchk count_a count_b. split.
  - intros Hskip. unfold cond_switch_a_b, bind, get.
    destruct (Config.root_dir_b (config f)) as [rb|]; [|reflexivity].
    destruct Hskip as [Hskip|Hskip]; [discriminate|].
    fold count_a count_b.
    destruct (Z.leb_spec count_a count_b); [reflexivity|lia].
  - intros root_b Hroot Hgt. unfold cond_switch_a_b, bind, get.
    rewrite Hroot. fold count_a count_b.
    destruct (Z.leb_spec count_a count_b); [lia|].
    unfold modify, on_db. simpl.
    destruct (swap_dir_b_run (db f) Hnd) as [t [q [E Hm]]].
    rewrite E. eexists. split; [reflexivity|]. simpl.
    repeat split.
    + exact Hm.
    + rewrite Hm, <- map_app. apply Permutation_map.
      apply partition_perm. intros r Hr.
      destruct (Hchk r Hr) as [E0|E1].
      * rewrite E0. reflexivity.
      * rewrite E1. reflexivity.
Qed.

Lemma cond_switch_a_b_swaps_larger_a_witness :
  (NoDup (map path_dir_b (directory two_and_one))
   /\ (forall r, In r (directory two_and_one) ->
                 Directory.dir_b r = 0 \/ Directory.dir_b r = 1))
  /\ (get_dir_entry_count false one_and_two
      <= get_dir_entry_count true one_and_two
      /\ cond_switch_a_b
           (driver_of unit one_and_two (plain_config "/a" (Some "/b")))
         = (Val tt, driver_of unit one_and_two (plain_config "/a" (Some "/b"))))
  /\ (get_dir_entry_count false two_and_one
      > get_dir_entry_count true two_and_one
      /\ exists f',
          cond_switch_a_b
            (driver_of unit two_and_one (plain_config "/a" (Some "/b")))
          = (Val tt, f')
          /\ Config.root_dir_a (config f') = "/b"
          /\ Config.root_dir_b (config f') = Some "/a").
Proof.
  assert (Hnd2 : NoDup (map path_dir_b (directory two_and_one))).
  { repeat constructor; simpl; intuition discriminate. }
  assert (Hchk2 : forall r, In r (directory two_and_one) ->
                            Directory.dir_b r = 0 \/ Directory.dir_b r = 1).
  { intros r [<-|[<-|[<-|[]]]]; simpl; auto. }
  assert (Hnd1 : NoDup (map path_dir_b (directory one_and_two))).
  { repeat constructor; simpl; intuition discriminate. }
  assert (Hchk1 : forall r, In r (directory one_and_two) ->
                            Directory.dir_b r = 0 \/ Directory.dir_b r = 1).
  { intros r [<-|[<-|[<-|[]]]]; simpl; auto. }
  split; [split; assumption|]. split.
  - assert (Hle : get_dir_entry_count false one_and_two
                  <= get_dir_entry_count true one_and_two).
    { vm_compute. discriminate. }
    split; [exact Hle|].
    exact (proj1 (cond_switch_a_b_swaps_larger_a unit
                    (driver_of unit one_and_two (plain_config "/a" (Some "/b")))
                    Hnd1 Hchk1) (or_intror Hle)).
  - assert (Hgt : get_dir_entry_count false two_and_one
                  > get_dir_entry_count true two_and_one).
    { vm_compute. reflexivity. }
    split; [exact Hgt|].
    destruct (proj2 (cond_switch_a_b_swaps_larger_a unit
                       (driver_of unit two_and_one
                                  (plain_config "/a" (Some "/b")))
                       Hnd2 Hchk2) "/b" eq_refl Hgt)
      as [f' [Hrun [Ha [Hb _]]]].
    exists f'. repeat split; assumption.
Defined.

(** C1, as the specification has it, fails in both directions: with two
    files in a and one in b ([|B| <= |A|]) the swap is performed, and with
    one file in a and two in b ([|B| > |A|]) it is not. *)
Lemma cond_switch_a_b_not_when_b_larger :
  (get_dir_entry_count true two_and_one
   <= get_dir_entry_count false two_and_one
   /\ map (fun r => (Directory.path r, Directory.dir_b r))
        (directory (db (snd (cond_switch_a_b
           (driver_of unit two_and_one (plain_config "/a" (Some "/b")))))))
      = [("/b/z.jpg", 0); ("/a/x.jpg", 1); ("/a/y.jpg", 1)])
  /\ (get_dir_entry_count true one_and_two
      > get_dir_entry_count false one_and_two
      /\ cond_switch_a_b
           (driver_of unit one_and_two (plain_config "/a" (Some "/b")))
         = (Val tt, driver_of unit one_and_two (plain_config "/a" (Some "/b")))).
Proof.
  split; split; try reflexivity. vm_compute. discriminate.
Qed.

(* ================================================================== *)
(** * The dequeue functions of the second loop *)
(* ================================================================== *)

Section Keeps.

Context {St V : Type} (v : St -> V).

Lemma keeps_ret {A : Type} (a : A) : keeps v (ret a).
Proof. intro s. reflexivity. Qed.

Lemma keeps_raise {A : Type} (e : exn) : keeps v (@raise St A e).
Proof. intro s. reflexivity. Qed.

Lemma keeps_get : keeps v (@get St).
Proof. intro s. reflexivity. Qed.

Lemma keeps_assert (c : bool) : keeps v (@assert St c).
Proof. destruct c; intro s; reflexivity. Qed.

Lemma keeps_modify (g : St -> St) :
  (forall s, v (g s) = v s) -> keeps v (modify g).
Proof. intros H s. apply H. Qed.

Lemma keeps_bind {A B : Type} (c : M St A) (k : A -> M St B) :
  keeps v c -> (forall a, keeps v (k a)) -> keeps v (bind c k).
Proof.
  intros Hc Hk s. unfold bind. specialize (Hc s).
  destruct (c s) as [[a|e] s1]; simpl in *.
  - rewrite Hk. exact Hc.
  - exact Hc.
Qed.

Lemma keeps_for_each {A : Type} (body : A -> M St unit) (l : list A) :
  (forall a, keeps v (body a)) -> keeps v (for_each body l).
Proof.
  intro H. induction l as [|a t IH]; simpl.
  - apply keeps_ret.
  - apply keeps_bind; [apply H|intros _; exact IH].
Qed.

End Keeps.

Lemma keeps_on_db {R A : Type} (c : M SQLiteDB A) :
  keeps (@backlog_view R) (on_db c).
Proof. intro f. unfold on_db. destruct (c (db f)). reflexivity. Qed.

Create HintDb keeps.
#[local] Hint Resolve keeps_ret keeps_raise keeps_get keeps_assert
  keeps_on_db : keeps.

Ltac keeps_step :=
  match goal with
  | |- keeps _ (bind _ _) => apply keeps_bind; [|intro]
  | |- keeps _ (for_each _ _) => apply keeps_for_each; intro
  | |- keeps _ (modify _) => apply keeps_modify; intro; reflexivity
  | |- keeps _ (match ?x with _ => _ end) => destruct x
  | |- keeps _ _ => solve [auto with keeps]
  end.

Lemma keeps_prune_cache_batch (R : Type) :
  keeps (@backlog_view R) (prune_cache_batch (R := R)).
Proof. unfold prune_cache_batch. repeat keeps_step. Qed.

Lemma keeps_prune_cache_item (R : Type) :
  keeps (@backlog_view R) (prune_cache_item (R := R)).
Proof. unfold prune_cache_item. repeat keeps_step. Qed.

Lemma keeps_store_batch_second_loop (to_b64 : string -> string) (R : Type)
  (results : list BatchCompareResult.t) :
  keeps (@backlog_view R) (store_batch_second_loop to_b64 (R := R) results).
Proof.
  unfold store_batch_second_loop, store_batch_result.
  repeat keeps_step; apply keeps_prune_cache_batch.
Qed.

Lemma keeps_store_item_second_loop (to_b64 : string -> string) (R : Type)
  (results : list ItemCompareResult.t) :
  keeps (@backlog_view R) (store_item_second_loop to_b64 (R := R) results).
Proof.
  unfold store_item_second_loop.
  destruct (split_item_results results [] [] []) as [[ks ds] errors].
  repeat keeps_step; apply keeps_prune_cache_item.
Qed.

Lemma item_guard_spec (f : FastDifPy item_msg) :
  item_guard false f = true
  <-> _enqueue_counter f - _dequeue_counter f
      > (SecondLoopConfig.batch_size (second_loop f) ^ 2) * 2.
Proof.
  unfold item_guard, second_loop. rewrite orb_false_r, Z.ltb_lt. lia.
Qed.

Lemma batch_guard_spec (f : FastDifPy BatchCompareResult.t) :
  batch_guard false f = true
  <-> _enqueue_counter f - _dequeue_counter f
      > SecondLoopConfig.batch_size (second_loop f) * handles f.
Proof.
  unfold batch_guard, second_loop. rewrite orb_false_r, Z.ltb_lt. lia.
Qed.

(** The loop of item mode takes a prefix of the queue, and takes a message
    only under its guard, which no iteration changes. *)
Lemma item_loop_prefix (q : list (option item_msg)) (f : FastDifPy item_msg)
  (results : list ItemCompareResult.t) (count : Z) :
  exists consumed,
    q = consumed ++ result_queue (fst (fst (item_loop false q f results count)))
    /\ (consumed <> [] -> item_guard false f = true)
    /\ (q <> [] -> item_guard false f = true -> consumed <> []).
Proof.
  revert f results count.
  induction q as [|res q' IH]; intros f results count.
  - exists []. simpl. repeat split; intros; congruence.
  - simpl. destruct (item_guard false f) eqn:G.
    + assert (Hstep : forall f2 results2 count2,
                 item_guard false f2 = item_guard false f ->
                 exists consumed,
                   res :: q'
                   = consumed
                       ++ result_queue
                            (fst (fst (item_loop false q' f2 results2 count2)))
                   /\ (consumed <> [] -> true = true)
                   /\ (res :: q' <> [] -> true = true -> consumed <> [])).
      { intros f2 results2 count2 _.
        destruct (IH f2 results2 count2) as [consumed [E _]].
        exists (res :: consumed). simpl. rewrite <- E.
        repeat split; intros; congruence. }
      destruct res as [[r|l]|]; apply Hstep; reflexivity.
    + exists []. simpl. repeat split; intros; congruence.
Qed.

Lemma results_in_some {R : Type} (r : R) (pre : list (option R)) :
  results_in (Some r :: pre) = 1 + results_in pre.
Proof.
  unfold results_in. cbn [filter List.length]. rewrite Nat2Z.inj_succ. lia.
Qed.

Lemma results_in_none {R : Type} (pre : list (option R)) :
  results_in (None :: pre) = results_in pre.
Proof. reflexivity. Qed.

(** The loop of batch mode takes a prefix of the queue, each message under
    the guard as the results taken before it have left the counter. *)
Lemma batch_loop_prefix (q : list (option BatchCompareResult.t))
  (f : FastDifPy BatchCompareResult.t) (results : list BatchCompareResult.t) :
  exists consumed,
    q = consumed ++ result_queue (fst (batch_loop false q f results))
    /\ (forall pre m post,
           consumed = pre ++ m :: post ->
           _enqueue_counter f - (_dequeue_counter f + results_in pre)
           > SecondLoopConfig.batch_size (second_loop f) * handles f)
    /\ (q <> [] -> batch_guard false f = true -> consumed <> []).
Proof.
  unfold second_loop. revert f results.
  induction q as [|res q' IH]; intros f results.
  - exists []. simpl. repeat split; try congruence.
    intros pre m post E. destruct pre; discriminate.
  - simpl. destruct (batch_guard false f) eqn:G.
    + apply batch_guard_spec in G. unfold second_loop in G.
      destruct res as [r|].
      * destruct (IH (set_dequeue_counter (_dequeue_counter f + 1) f)
                     (results ++ [r])) as [consumed [E [Hg _]]].
        exists (Some r :: consumed). simpl. rewrite <- E.
        repeat split; try congruence.
        intros pre m post Epre. destruct pre as [|x pre].
        -- unfold results_in. simpl. lia.
        -- injection Epre as <- Epre. specialize (Hg pre m post Epre).
           rewrite results_in_some. simpl in Hg. lia.
      * destruct (IH (bump_exit_counter f) results) as [consumed [E [Hg _]]].
        exists (None :: consumed). simpl. rewrite <- E.
        repeat split; try congruence.
        intros pre m post Epre. destruct pre as [|x pre].
        -- unfold results_in. simpl. lia.
        -- injection Epre as <- Epre. specialize (Hg pre m post Epre).
           rewrite results_in_none. simpl in Hg. exact Hg.
    + exists []. simpl. repeat split; try congruence.
      intros pre m post E. destruct pre; discriminate.
Qed.

(** C5, as the code has it.  Item mode has the threshold
    [(batch_size ** 2) * 2] and batch mode has [batch_size * len(handles)].
    When not draining, each dequeue function takes a prefix of the waiting
    messages; a message is taken only while the enqueue counter exceeds the
    dequeue counter by more than the threshold of the mode (in item mode the
    counter is the one at entry, in batch mode it counts the results already
    taken), and the first message is taken whenever that holds. *)
Theorem dequeue_second_loop_thresholds (to_b64 : string -> string) :
  (forall f : FastDifPy item_msg,
      exists consumed,
        result_queue f
        = consumed
            ++ result_queue (snd (dequeue_second_loop_item to_b64 false f))
        /\ (consumed <> [] ->
            _enqueue_counter f - _dequeue_counter f
            > (SecondLoopConfig.batch_size (second_loop f) ^ 2) * 2)
        /\ (result_queue f <> [] ->
            _enqueue_counter f - _dequeue_counter f
            > (SecondLoopConfig.batch_size (second_loop f) ^ 2) * 2 ->
            consumed <> []))
  /\ (forall f : FastDifPy BatchCompareResult.t,
        exists consumed,
          result_queue f
          = consumed
              ++ result_queue (snd (dequeue_second_loop_batch to_b64 false f))
          /\ (forall pre m post,
                 consumed = pre ++ m :: post ->
                 _enqueue_counter f - (_dequeue_counter f + results_in pre)
                 > SecondLoopConfig.batch_size (second_loop f) * handles f)
          /\ (result_queue f <> [] ->
              _enqueue_counter f - _dequeue_counter f
              > SecondLoopConfig.batch_size (second_loop f) * handles f ->
              consumed <> [])).
Proof.
  split; intro f.
  - destruct (item_loop_prefix (result_queue f) f [] 0)
      as [consumed [E [Hg Hlive]]].
    exists consumed. unfold dequeue_second_loop_item.
    destruct (item_loop false (result_queue f) f [] 0) as [[f1 results] count].
    simpl in E.
    assert (Hq : result_queue
                   (snd ((store_item_second_loop to_b64 results ;;
                          modify (fun f0 =>
                            set_dequeue_counter (_dequeue_counter f0 + count)
                                                f0)) f1))
                 = result_queue f1).
    { unfold bind.
      pose proof (keeps_store_item_second_loop to_b64 item_msg results f1) as K.
      destruct (store_item_second_loop to_b64 results f1) as [[u|e] f2];
        simpl in *; injection K; auto. }
    rewrite Hq. repeat split.
    + exact E.
    + intro Hne. apply item_guard_spec. apply Hg. exact Hne.
    + intros Hne Hthr. apply Hlive; [exact Hne|].
      apply item_guard_spec. exact Hthr.
  - destruct (batch_loop_prefix (result_queue f) f [])
      as [consumed [E [Hg Hlive]]].
    exists consumed. unfold dequeue_second_loop_batch.
    destruct (batch_loop false (result_queue f) f []) as [f1 results].
    simpl in E.
    pose proof (keeps_store_batch_second_loop to_b64 BatchCompareResult.t
                  results f1) as K.
    injection K as Kq _ _ _ _. rewrite Kq. repeat split.
    + exact E.
    + exact Hg.
    + intros Hne Hthr. apply Hlive; [exact Hne|].
      apply batch_guard_spec. exact Hthr.
Qed.

Lemma dequeue_second_loop_thresholds_witness :
  (result_queue item_backlog_5 <> []
   /\ _enqueue_counter item_backlog_5 - _dequeue_counter item_backlog_5
      > (SecondLoopConfig.batch_size (second_loop item_backlog_5) ^ 2) * 2
   /\ result_queue (snd (dequeue_second_loop_item tagged false item_backlog_5))
      <> result_queue item_backlog_5)
  /\ (result_queue batch_backlog_5 <> []
      /\ _enqueue_counter batch_backlog_5 - _dequeue_counter batch_backlog_5
         > SecondLoopConfig.batch_size (second_loop batch_backlog_5)
           * handles batch_backlog_5
      /\ result_queue
           (snd (dequeue_second_loop_batch tagged false batch_backlog_5))
         <> result_queue batch_backlog_5).
Proof.
  assert (Hlen : forall (A : Type) (c q : list A), c <> [] -> q <> c ++ q).
  { intros A c q Hc E. apply (f_equal (@List.length A)) in E.
    rewrite length_app in E. destruct c; [congruence|simpl in E; lia]. }
  split.
  - assert (Hq : result_queue item_backlog_5 <> []) by discriminate.
    assert (Hthr : _enqueue_counter item_backlog_5
                   - _dequeue_counter item_backlog_5
                   > (SecondLoopConfig.batch_size (second_loop item_backlog_5)
                      ^ 2) * 2).
    { vm_compute. reflexivity. }
    split; [exact Hq|]. split; [exact Hthr|].
    destruct (proj1 (dequeue_second_loop_thresholds tagged) item_backlog_5)
      as [consumed [E [_ Hlive]]].
    intro Heq. rewrite Heq in E.
    exact (Hlen _ consumed _ (Hlive Hq Hthr) E).
  - assert (Hq : result_queue batch_backlog_5 <> []) by discriminate.
    assert (Hthr : _enqueue_counter batch_backlog_5
                   - _dequeue_counter batch_backlog_5
                   > SecondLoopConfig.batch_size (second_loop batch_backlog_5)
                     * handles batch_backlog_5).
    { vm_compute. reflexivity. }
    split; [exact Hq|]. split; [exact Hthr|].
    destruct (proj2 (dequeue_second_loop_thresholds tagged) batch_backlog_5)
      as [consumed [E [_ Hlive]]].
    intro Heq. rewrite Heq in E.
    exact (Hlen _ consumed _ (Hlive Hq Hthr) E).
Defined.

(** C5, as the specification has it, fails: the two thresholds are the other
    way round.  In batch mode with block size 2 and one worker, a result is
    taken at a backlog of 5, which does not exceed [(2 ** 2) * 2]; in item
    mode with block size 1 and ten workers, a result is taken at a backlog of
    5, which does not exceed [1 * 10]; and in item mode with block size 2 and
    one worker nothing is taken at a backlog of 5, which exceeds [2 * 1]. *)
Lemma dequeue_second_loop_thresholds_swapped :
  (_enqueue_counter batch_backlog_5 - _dequeue_counter batch_backlog_5
   <= (SecondLoopConfig.batch_size (second_loop batch_backlog_5) ^ 2) * 2
   /\ result_queue
        (snd (dequeue_second_loop_batch tagged false batch_backlog_5))
      = [])
  /\ (_enqueue_counter item_backlog_5 - _dequeue_counter item_backlog_5
      <= SecondLoopConfig.batch_size (second_loop item_backlog_5)
         * handles item_backlog_5
      /\ result_queue
           (snd (dequeue_second_loop_item tagged false item_backlog_5)) = [])
  /\ (_enqueue_counter item_backlog_small - _dequeue_counter item_backlog_small
      > SecondLoopConfig.batch_size (second_loop item_backlog_small)
        * handles item_backlog_small
      /\ result_queue
           (snd (dequeue_second_loop_item tagged false item_backlog_small))
         = result_queue item_backlog_small).
Proof.
  repeat split; try reflexivity; vm_compute; discriminate.
Qed.

(* ================================================================== *)
(** * The hashes of a failed preprocessing result *)
(* ================================================================== *)

(** C7 on a batch with a failed result.  [store_batch_first_loop] takes the
    four hash fields of every result before the errors are split from the
    successes.  For the batch of one good and one failed result it inserts
    four rows with a NULL hash for the failed one and then raises the
    assertion "Hash not found" of [get_bulk_hash_lookup]: no file is marked,
    and [sum(count)] is 8 for no file with [success = 1].  Were the unset
    hashes a text, the call would return with [sum(count) = 8] for one file
    with [success = 1]. *)
Theorem store_batch_first_loop_counts_failed_result :
  (let run := store_batch_first_loop tagged [good_result; failed_result]
                (driver_of unit two_processing hashing_config) in
   fst run = Raise AssertionError
   /\ directory (db (snd run)) = directory two_processing
   /\ map HashTable.hash (hash_table (db (snd run)))
      = [Some "h0"; Some "h90"; Some "h180"; Some "h270";
         None; None; None; None]
   /\ sum_count (db (snd run)) = 8
   /\ successful_files (db (snd run)) = 0)
  /\ (let run := store_batch_first_loop tagged
                   [good_result; failed_result_with_text]
                   (driver_of unit two_processing hashing_config) in
      fst run = Val tt
      /\ sum_count (db (snd run)) = 8
      /\ successful_files (db (snd run)) = 1
      /\ sum_count (db (snd run))
         <> 4 * successful_files (db (snd run))).
Proof.
  split; cbv zeta; repeat split; try reflexivity.
  vm_compute. discriminate.
Qed.

(* ================================================================== *)
(** * The hash short cut of item mode *)
(* ================================================================== *)

(** Every open pair of a block is selected for dispatch, whatever the hashes
    of its two files. *)
Lemma get_item_block_selects_open_pairs (block_key : Z)
  (include_block_key : bool) (s : SQLiteDB) (d : Dif.row) (a b : Directory.row) :
  In d (dif_table s) -> in_block block_key d = true -> Dif.success d = -1 ->
  In a (directory s) -> Directory.key a = Dif.key_a d ->
  In b (directory s) -> Directory.key b = Dif.key_b d ->
  In (Dif.key d, Dif.key_a d, Dif.key_b d, Directory.path a, Directory.path b,
      if include_block_key then Dif.block_key d else None)
     (get_item_block block_key include_block_key s).
Proof.
  intros Hd Hblock Hopen Ha Eka Hb Ekb. unfold get_item_block.
  apply in_map_iff. exists (d, a, b). split; [reflexivity|].
  unfold join_directory. apply in_flat_map. exists d. split.
  - apply filter_In. split; [exact Hd|].
    rewrite Hblock, Hopen. reflexivity.
  - apply in_flat_map. exists a. split.
    + apply filter_In. split; [exact Ha|]. apply Z.eqb_eq. congruence.
    + apply in_map. apply filter_In. split; [exact Hb|].
      apply Z.eqb_eq. congruence.
Qed.

(** C4 on two copies of one image.  With [skip_matching_hash] set and
    [batch_args] unset, [__item_block] reads the block with [get_item_block],
    which selects on [block_key] and [success = -1] alone, and puts an
    [ItemCompareArgs] on the command queue for the pair of the two copies;
    the pair row keeps [dif = -1] and [success = -1]. *)
Theorem item_block_dispatches_matching_hash :
  exists planned,
    prepopulate_diff_table 2 false twin_files = (Val tt, planned)
    /\ dif_table planned
       = [Dif.mk 1 0 1 (-1 # 1) (-1) (Some 0) (Some 0) (Some 1)]
    /\ (forall a b, In a (directory planned) -> In b (directory planned) ->
                    Directory.hash_0 a = Directory.hash_0 b)
    /\ SecondLoopConfig.skip_matching_hash (Config.second_loop skip_hash_config) = true
    /\ SecondLoopConfig.batch_args (Config.second_loop skip_hash_config) = false
    /\ let run := __item_block true (driver_of unit planned skip_hash_config) in
       fst run = Val (Flag true)
       /\ cmd_queue (snd run)
          = [PutItem (ItemCompareArgs.mk 1 0 1 "/a/x.jpg" "/a/y.jpg" None)]
       /\ dif_table (db (snd run)) = dif_table planned.
Proof.
  eexists. split; [vm_compute; reflexivity|].
  repeat split; try reflexivity.
  intros a b [<-|[<-|[]]] [<-|[<-|[]]]; reflexivity.
Qed.

(* ================================================================== *)
(** * The pair planner: which pairs *)
(* ================================================================== *)

Lemma length_filter_app {T : Type} (f : T -> bool) (l m : list T) :
  List.length (filter f (l ++ m))
  = (List.length (filter f l) + List.length (filter f m))%nat.
Proof. rewrite filter_app, length_app. reflexivity. Qed.

Section ListFacts.

Context {A B : Type}.

Lemma NoDup_map_filter (g : A -> B) (f : A -> bool) (l : list A) :
  NoDup (map g l) -> NoDup (map g (filter f l)).
Proof.
  induction l as [|x t IH]; simpl; intro H; [constructor|].
  inversion H as [|? ? Hnot Hnd]; subst.
  destruct (f x); simpl; [|apply IH; exact Hnd].
  constructor; [|apply IH; exact Hnd].
  intro Hin. apply Hnot. apply in_map_iff in Hin.
  destruct Hin as [y [E Hy]]. apply filter_In in Hy.
  rewrite <- E. apply in_map. tauto.
Qed.

Lemma NoDup_list_prod (l1 : list A) (l2 : list B) :
  NoDup l1 -> NoDup l2 -> NoDup (list_prod l1 l2).
Proof.
  intros H1 H2. induction H1 as [|x t Hnot Hnd IH]; simpl; [constructor|].
  apply NoDup_app.
  - apply NoDup_map_NoDup_ForallPairs; [|exact H2].
    intros b b' _ _ E. injection E. auto.
  - exact IH.
  - intros [a b] Hin Hin'. apply in_map_iff in Hin.
    destruct Hin as [b0 [E _]]. injection E as <- _.
    apply in_prod_iff in Hin'. tauto.
Qed.

Lemma length_filter_pairs (P : A * B -> bool) (x : A) (m : list B) :
  List.length (filter P (map (pair x) m))
  = List.length (filter (fun b => P (x, b)) m).
Proof.
  induction m as [|b m IH]; simpl; [reflexivity|].
  destruct (P (x, b)); simpl; rewrite IH; reflexivity.
Qed.

Lemma length_filter_prod_cons (P : A * B -> bool) (l : list A) (y : B)
  (m : list B) :
  List.length (filter P (list_prod l (y :: m)))
  = (List.length (filter (fun a => P (a, y)) l)
     + List.length (filter P (list_prod l m)))%nat.
Proof.
  induction l as [|a l IH]; [reflexivity|].
  cbn [list_prod map]. rewrite !length_filter_app, IH.
  cbn [filter]. destruct (P (a, y)); cbn [List.length]; lia.
Qed.

Lemma filter_pairs_both (f : A -> bool) (g : B -> bool) (a : A)
  (l2 : list B) :
  filter (fun ab => f (fst ab) && g (snd ab))%bool (map (pair a) l2)
  = if f a then map (pair a) (filter g l2) else [].
Proof.
  induction l2 as [|b l2 IH]; simpl.
  - destruct (f a); reflexivity.
  - rewrite IH. destruct (f a), (g b); reflexivity.
Qed.

Lemma filter_prod_both (f : A -> bool) (g : B -> bool) (l1 : list A)
  (l2 : list B) :
  filter (fun ab => f (fst ab) && g (snd ab))%bool (list_prod l1 l2)
  = list_prod (filter f l1) (filter g l2).
Proof.
  induction l1 as [|a l1 IH]; [reflexivity|].
  cbn [list_prod]. rewrite filter_app, IH, filter_pairs_both.
  cbn [filter]. destruct (f a); reflexivity.
Qed.

End ListFacts.

Lemma map_list_prod {A B C D : Type} (f : A -> C) (h : B -> D)
  (l1 : list A) (l2 : list B) :
  map (fun ab => (f (fst ab), h (snd ab))) (list_prod l1 l2)
  = list_prod (map f l1) (map h l2).
Proof.
  induction l1 as [|a l1 IH]; [reflexivity|].
  cbn [list_prod map]. rewrite map_app, IH, !map_map. reflexivity.
Qed.

(** Among files with distinct keys, every file other than [x] has its key
    on one side of the key of [x]. *)
Lemma either_side (x : Directory.row) (t : list Directory.row) :
  ~ In (Directory.key x) (map Directory.key t) ->
  (List.length (filter (fun b => (Directory.key x <? Directory.key b)%Z) t)
   + List.length (filter (fun a => (Directory.key a <? Directory.key x)%Z) t))%nat
  = List.length t.
Proof.
  induction t as [|y t IH]; simpl; intro Hnot; [reflexivity|].
  assert (Hne : Directory.key y <> Directory.key x) by tauto.
  assert (Hnot' : ~ In (Directory.key x) (map Directory.key t)) by tauto.
  specialize (IH Hnot').
  destruct (Z.ltb_spec (Directory.key x) (Directory.key y));
    destruct (Z.ltb_spec (Directory.key y) (Directory.key x));
    simpl; lia.
Qed.

(** The number of pairs [a.key < b.key] among [n] files with distinct
    keys. *)
Lemma triangle_count (d : list Directory.row) :
  NoDup (map Directory.key d) ->
  (2 * List.length
         (filter (fun ab => (Directory.key (fst ab) <? Directory.key (snd ab))%Z)
                 (list_prod d d))
   + List.length d = List.length d * List.length d)%nat.
Proof.
  induction d as [|x t IH]; intro Hnd; [reflexivity|].
  simpl in Hnd. inversion Hnd as [|? ? Hnot Hnd']; subst.
  specialize (IH Hnd'). pose proof (either_side x t Hnot) as Hside.
  cbn [list_prod]. rewrite length_filter_app.
  rewrite length_filter_prod_cons. cbn [map filter fst snd].
  rewrite Z.ltb_irrefl. rewrite length_filter_pairs.
  cbn [fst snd List.length]. lia.
Qed.

Lemma key_pair_taken_false (ka kb : Z) (t : list Dif.row) :
  ~ In (ka, kb) (map key_pair t) -> key_pair_taken ka kb t = false.
Proof.
  intro H. apply not_true_is_false. intro E.
  unfold key_pair_taken in E. apply existsb_exists in E.
  destruct E as [r [Hr E]]. apply andb_true_iff in E. destruct E as [E1 E2].
  apply Z.eqb_eq in E1. apply Z.eqb_eq in E2.
  apply H. apply in_map_iff. exists r. split; [|exact Hr].
  unfold key_pair. congruence.
Qed.

Lemma insert_select_dif_ok (pairs : list (Z * Z)) (t : list Dif.row) (q : Z) :
  NoDup (map key_pair t ++ pairs) ->
  exists added q',
    insert_select_dif (t, q) pairs = Some (t ++ added, q')
    /\ map key_pair added = pairs
    /\ Forall (fun r => Dif.dif r = (-1 # 1)%Q /\ Dif.success r = -1) added.
Proof.
  revert t q. induction pairs as [|ab pairs IH]; intros t q Hnd.
  - exists [], q. simpl. rewrite app_nil_r. auto.
  - simpl.
    assert (Hfree : key_pair_taken (fst ab) (snd ab) t = false).
    { apply key_pair_taken_false. apply NoDup_remove_2 in Hnd.
      intro Hin. apply Hnd. apply in_or_app. left.
      destruct ab. exact Hin. }
    rewrite Hfree.
    set (k := Sql.next_rowid q (map Dif.key t)).
    set (r := Dif.mk k (fst ab) (snd ab) (-1 # 1) (-1) None None None).
    destruct (IH (t ++ [r]) k) as [added [q' [E [Hm Hf]]]].
    + rewrite map_app, <- app_assoc. simpl. destruct ab. exact Hnd.
    + exists (r :: added), q'. repeat split.
      * rewrite E, <- app_assoc. reflexivity.
      * simpl. rewrite Hm. destruct ab. reflexivity.
      * constructor; [split; reflexivity|exact Hf].
Qed.

Lemma candidate_pairs_In (has_dir_b : bool) (d : list Directory.row)
  (ka kb : Z) :
  In (ka, kb) (candidate_pairs has_dir_b d)
  <-> exists a b, In a d /\ In b d /\ Directory.key a = ka
                  /\ Directory.key b = kb /\ candidate has_dir_b a b.
Proof.
  unfold candidate_pairs, candidate. rewrite order_by_In, in_map_iff.
  split.
  - intros [[a b] [E H]]. injection E as <- <-. exists a, b.
    destruct has_dir_b; apply filter_In in H; destruct H as [H Hc];
      apply in_prod_iff in H; destruct H as [Ha Hb]; simpl in Hc;
      repeat split; auto.
    + apply andb_true_iff in Hc. apply Z.eqb_eq. tauto.
    + apply andb_true_iff in Hc. apply Z.eqb_eq. tauto.
    + apply Z.ltb_lt. exact Hc.
  - intros [a [b [Ha [Hb [<- [<- Hc]]]]]]. exists (a, b).
    split; [reflexivity|].
    destruct has_dir_b; apply filter_In; (split; [apply in_prod_iff; tauto|]);
      simpl.
    + destruct Hc as [-> ->]. reflexivity.
    + apply Z.ltb_lt. exact Hc.
Qed.

Lemma candidate_pairs_NoDup (has_dir_b : bool) (d : list Directory.row) :
  NoDup (map Directory.key d) -> NoDup (candidate_pairs has_dir_b d).
Proof.
  intro Hnd. unfold candidate_pairs.
  eapply Permutation_NoDup; [apply order_by_perm|].
  assert (Hall : NoDup (map (fun ab : Directory.row * Directory.row =>
                               (Directory.key (fst ab), Directory.key (snd ab)))
                            (list_prod d d))).
  { rewrite map_list_prod. apply NoDup_list_prod; exact Hnd. }
  destruct has_dir_b; apply NoDup_map_filter; exact Hall.
Qed.

Lemma candidate_pairs_length (has_dir_b : bool) (s : SQLiteDB) :
  NoDup (map Directory.key (directory s)) ->
  let n := Z.of_nat (List.length (directory s)) in
  let pairs := Z.of_nat (List.length (candidate_pairs has_dir_b (directory s))) in
  if has_dir_b
  then pairs = get_dir_entry_count false s * get_dir_entry_count true s
  else pairs = n * (n - 1) / 2.
Proof.
  intros Hnd n pairs. subst pairs. unfold candidate_pairs.
  rewrite order_by_length, length_map.
  destruct has_dir_b.
  - rewrite (filter_prod_both (fun a => Directory.dir_b a =? 0)
                              (fun b => Directory.dir_b b =? 1)).
    rewrite length_prod, Nat2Z.inj_mul. reflexivity.
  - pose proof (triangle_count (directory s) Hnd) as H.
    set (c := List.length (filter _ _)) in *.
    apply Z.div_unique_exact; [lia|]. subst n. nia.
Qed.

Lemma prepopulate_diff_table_run (block_size : Z) (has_dir_b : bool)
  (s : SQLiteDB) :
  NoDup (map Directory.key (directory s)) ->
  dif_table s = [] ->
  exists rows q,
    map key_pair rows = candidate_pairs has_dir_b (directory s)
    /\ Forall (fun r => Dif.dif r = (-1 # 1)%Q /\ Dif.success r = -1) rows
    /\ prepopulate_diff_table block_size has_dir_b s
       = (Val tt, planned_from rows q block_size has_dir_b s).
Proof.
  intros Hnd Hempty.
  destruct (insert_select_dif_ok (candidate_pairs has_dir_b (directory s))
                                 [] (dif_table_seq s))
    as [rows [q [E [Hm Hf]]]].
  { simpl. apply candidate_pairs_NoDup. exact Hnd. }
  exists rows, q. repeat split; try assumption.
  unfold prepopulate_diff_table. rewrite Hempty, E. reflexivity.
Qed.

Lemma planned_from_key_pairs (rows : list Dif.row) (q block_size : Z)
  (has_dir_b : bool) (s : SQLiteDB) :
  map key_pair (dif_table (planned_from rows q block_size has_dir_b s))
  = map key_pair rows
  /\ map (fun r => (Dif.dif r, Dif.success r))
         (dif_table (planned_from rows q block_size has_dir_b s))
     = map (fun r => (Dif.dif r, Dif.success r)) rows.
Proof.
  unfold planned_from, set_blocks. simpl. rewrite !map_map. simpl.
  split; reflexivity.
Qed.

(** C2, as the code has it.  On a catalog with distinct keys and an empty
    pair table, [prepopulate_diff_table] returns, and the pairs it inserts
    range over all files whatever their [success]: a pair [(ka, kb)] is there
    exactly when two files of the catalog have these keys and satisfy the
    condition of the join ([a.key < b.key], or [a] in partition a and [b] in
    partition b); no pair is there twice; with one partition and [n] files
    there are [n (n - 1) / 2] rows, with two partitions of [nA] and [nB]
    files there are [nA * nB]. *)
Theorem prepopulate_diff_table_pairs_all_files (block_size : Z)
  (has_dir_b : bool) (s : SQLiteDB) :
  NoDup (map Directory.key (directory s)) ->
  dif_table s = [] ->
  exists s',
    prepopulate_diff_table block_size has_dir_b s = (Val tt, s')
    /\ (forall ka kb,
           In (ka, kb) (map key_pair (dif_table s'))
           <-> exists a b, In a (directory s) /\ In b (directory s)
                           /\ Directory.key a = ka /\ Directory.key b = kb
                           /\ candidate has_dir_b a b)
    /\ NoDup (map key_pair (dif_table s'))
    /\ (has_dir_b = false ->
        let n := Z.of_nat (List.length (directory s)) in
        Z.of_nat (List.length (dif_table s')) = n * (n - 1) / 2)
    /\ (has_dir_b = true ->
        Z.of_nat (List.length (dif_table s'))
        = get_dir_entry_count false s * get_dir_entry_count true s).
Proof.
  intros Hnd Hempty.
  destruct (prepopulate_diff_table_run block_size has_dir_b s Hnd Hempty)
    as [rows [q [Hm [_ Hrun]]]].
  exists (planned_from rows q block_size has_dir_b s).
  split; [exact Hrun|].
  destruct (planned_from_key_pairs rows q block_size has_dir_b s) as [Hk _].
  pose proof (candidate_pairs_length has_dir_b s Hnd) as Hlen.
  assert (Hl : List.length (dif_table (planned_from rows q block_size
                                                    has_dir_b s))
               = List.length (candidate_pairs has_dir_b (directory s))).
  { rewrite <- Hm, <- Hk, !length_map. reflexivity. }
  rewrite Hk, Hm. repeat split.
  - apply candidate_pairs_In.
  - apply candidate_pairs_In.
  - apply candidate_pairs_NoDup. exact Hnd.
  - intros ->. rewrite Hl. exact Hlen.
  - intros ->. rewrite Hl. exact Hlen.
Qed.

Lemma prepopulate_diff_table_pairs_all_files_witness :
  (NoDup (map Directory.key (directory one_failed))
   /\ dif_table one_failed = []
   /\ exists s',
       prepopulate_diff_table 2 false one_failed = (Val tt, s')
       /\ Z.of_nat (List.length (dif_table s')) = 3 * (3 - 1) / 2)
  /\ (NoDup (map Directory.key (directory one_failed_in_b))
      /\ dif_table one_failed_in_b = []
      /\ exists s',
          prepopulate_diff_table 2 true one_failed_in_b = (Val tt, s')
          /\ Z.of_nat (List.length (dif_table s')) = 2 * 2).
Proof.
  assert (Hnd : NoDup (map Directory.key (directory one_failed))).
  { repeat constructor; simpl; intuition discriminate. }
  assert (Hnd2 : NoDup (map Directory.key (directory one_failed_in_b))).
  { repeat constructor; simpl; intuition discriminate. }
  split.
  - split; [exact Hnd|]. split; [reflexivity|].
    destruct (prepopulate_diff_table_pairs_all_files 2 false one_failed
                Hnd eq_refl) as [s' [Hrun [_ [_ [Hone _]]]]].
    exists s'. split; [exact Hrun|]. exact (Hone eq_refl).
  - split; [exact Hnd2|]. split; [reflexivity|].
    destruct (prepopulate_diff_table_pairs_all_files 2 true one_failed_in_b
                Hnd2 eq_refl) as [s' [Hrun [_ [_ [_ Htwo]]]]].
    exists s'. split; [exact Hrun|]. exact (Htwo eq_refl).
Defined.

(** C2, as the specification has it, fails: of three files, two with
    [success = 1] and one with [success = 0], [prepopulate_diff_table] makes
    three pairs, not one, and two of them hold the failed file 1; with
    partitions of two and two files, one of them failed, it makes four pairs,
    not two. *)
Lemma prepopulate_diff_table_pairs_failed_files :
  (successful_files one_failed = 2
   /\ map key_pair
        (dif_table (snd (prepopulate_diff_table 2 false one_failed)))
      = [(0, 1); (0, 2); (1, 2)]
   /\ Z.of_nat
        (List.length
           (dif_table (snd (prepopulate_diff_table 2 false one_failed))))
      <> 2 * (2 - 1) / 2)
  /\ (map key_pair
        (dif_table (snd (prepopulate_diff_table 2 true one_failed_in_b)))
      = [(0, 2); (0, 3); (1, 2); (1, 3)]
      /\ Z.of_nat
           (List.length
              (dif_table (snd (prepopulate_diff_table 2 true one_failed_in_b))))
         <> 2 * 1).
Proof.
  repeat split; try reflexivity; vm_compute; discriminate.
Qed.

(* ================================================================== *)
(** * The pair planner: which blocks *)
(* ================================================================== *)

Section Rank.

Context {T : Type} (le : T -> T -> bool).
Hypothesis le_total : forall x y, le x y = true \/ le y x = true.
Hypothesis le_trans :
  forall x y z, le x y = true -> le y z = true -> le x z = true.

Let R (x y : T) : Prop := le x y = true.

Lemma insert_by_sorted (x : T) (l : list T) :
  StronglySorted R l -> StronglySorted R (Sql.insert_by le x l).
Proof.
  induction l as [|y t IH]; simpl; intro Hs.
  - constructor; constructor.
  - inversion Hs as [|? ? Hs' Hall]; subst.
    destruct (le x y) eqn:E.
    + constructor; [exact Hs|]. constructor; [exact E|].
      eapply Forall_impl; [|exact Hall].
      intros z Hz. exact (le_trans x y z E Hz).
    + constructor; [apply IH; exact Hs'|].
      apply Forall_forall. intros z Hz.
      eapply Permutation_in in Hz;
        [|apply Permutation_sym, insert_by_perm].
      destruct Hz as [<-|Hz].
      * destruct (le_total x y) as [H|H]; [congruence|exact H].
      * rewrite Forall_forall in Hall. apply Hall. exact Hz.
Qed.

Lemma order_by_sorted (l : list T) : StronglySorted R (Sql.order_by le l).
Proof.
  induction l as [|x t IH]; simpl; [constructor|].
  apply insert_by_sorted. exact IH.
Qed.

(** In a sorted list without two equivalent elements, the elements strictly
    before [p] are those in front of its first occurrence. *)
Lemma sorted_rank (front back : list T) (p : T) :
  StronglySorted R (front ++ p :: back) ->
  (forall x, In x front -> le x p = true -> le p x = true -> x = p) ->
  ~ In p front ->
  List.length (filter (fun q => strictly_before le q p) (front ++ p :: back))
  = List.length front.
Proof.
  induction front as [|x front IH]; simpl; intros Hs Hanti Hnot.
  - inversion Hs as [|? ? _ Hall]; subst.
    unfold strictly_before at 1. rewrite andb_negb_r.
    rewrite filter_none; [reflexivity|].
    intros q Hq. rewrite Forall_forall in Hall. specialize (Hall q Hq).
    unfold strictly_before. unfold R in Hall. rewrite Hall.
    apply andb_false_r.
  - inversion Hs as [|? ? Hs' Hall]; subst.
    assert (Hxp : le x p = true).
    { rewrite Forall_forall in Hall. apply Hall.
      apply in_or_app. right. left. reflexivity. }
    assert (Hpx : le p x = false).
    { apply not_true_is_false. intro H. apply Hnot. left.
      apply Hanti; auto. }
    unfold strictly_before at 1. rewrite Hxp, Hpx. simpl.
    f_equal. apply IH; auto.
Qed.

End Rank.

Lemma filter_length_perm {T : Type} (f : T -> bool) (l l' : list T) :
  Permutation l l' -> List.length (filter f l) = List.length (filter f l').
Proof.
  induction 1; simpl.
  - reflexivity.
  - destruct (f x); simpl; congruence.
  - destruct (f x), (f y); reflexivity.
  - congruence.
Qed.

Lemma first_occurrence {T : Type} (eqb : T -> T -> bool) (p : T)
  (l : list T) :
  (forall x y, eqb x y = true <-> x = y) ->
  In p l -> exists front back, l = front ++ p :: back /\ ~ In p front.
Proof.
  intros Heq. induction l as [|x t IH]; simpl; [tauto|].
  intro Hin. destruct (eqb x p) eqn:E.
  - apply Heq in E. subst x. exists [], t. simpl. tauto.
  - destruct IH as [front [back [Et Hnot]]].
    + destruct Hin as [->|Hin]; [|exact Hin].
      assert (eqb p p = true) by (apply Heq; reflexivity). congruence.
    + exists (x :: front), back. subst t. split; [reflexivity|].
      intros [->|H]; [|tauto].
      assert (eqb p p = true) by (apply Heq; reflexivity). congruence.
Qed.

Lemma find_number_from {T : Type} (f : T -> bool) (front back : list T)
  (p : T) (k : Z) :
  (forall x, In x front -> f x = false) -> f p = true ->
  find (fun kb => f (snd kb)) (number_from k (front ++ p :: back))
  = Some (k + Z.of_nat (List.length front), p).
Proof.
  revert k. induction front as [|x front IH]; intros k Hfront Hp.
  - simpl. rewrite Hp. f_equal. f_equal. lia.
  - cbn [app number_from find snd].
    rewrite (Hfront x (or_introl eq_refl)).
    rewrite IH; [|intros y Hy; apply Hfront; right; exact Hy|exact Hp].
    f_equal. f_equal. cbn [List.length]. lia.
Qed.

Lemma pair_eqb_eq (p q : option Z * option Z) :
  Sql.pair_eqb p q = true <-> p = q.
Proof.
  destruct p as [[a|] [b|]], q as [[a'|] [b'|]];
    unfold Sql.pair_eqb; simpl;
    rewrite ?andb_true_iff, ?Z.eqb_eq;
    split; intro H; try discriminate; try tauto;
    try (destruct H; congruence); try (injection H; auto); try congruence.
Qed.

Lemma distinct_In {T : Type} (eqb : T -> T -> bool) (l : list T) (x : T) :
  (forall a b, eqb a b = true <-> a = b) ->
  In x (Sql.distinct eqb l) <-> In x l.
Proof.
  intro Heq. induction l as [|y t IH]; simpl; [tauto|].
  rewrite filter_In, IH. split.
  - tauto.
  - intros [->|H]; [left; reflexivity|].
    destruct (eqb y x) eqn:E.
    + left. apply Heq. exact E.
    + right. split; [exact H|reflexivity].
Qed.

Ltac order_cases :=
  unfold block_order, row_major_leb, diagonal_leb, diagonal_key, Sql.leb2,
    Sql.leb, Sql.sub, Sql.add, strictly_before in *;
  cbn [fst snd] in *;
  repeat match goal with
    | |- context [?x <=? ?y] => destruct (Z.leb_spec x y)
    | H : context [?x <=? ?y] |- _ => destruct (Z.leb_spec x y)
    end;
  cbn [andb negb] in *;
  try reflexivity; try discriminate; try tauto; try lia.

Lemma leb2_total (p q : option Z * option Z) :
  Sql.leb2 p q = true \/ Sql.leb2 q p = true.
Proof.
  destruct p as [[a|] [b|]], q as [[a'|] [b'|]]; order_cases.
Qed.

Lemma leb2_trans (p q r : option Z * option Z) :
  Sql.leb2 p q = true -> Sql.leb2 q r = true -> Sql.leb2 p r = true.
Proof.
  destruct p as [[a|] [b|]], q as [[a'|] [b'|]], r as [[a''|] [b''|]];
    intros H1 H2; order_cases.
Qed.

Lemma block_order_total (has_dir_b : bool) (p q : option Z * option Z) :
  block_order has_dir_b p q = true \/ block_order has_dir_b q p = true.
Proof.
  destruct has_dir_b; unfold block_order, row_major_leb, diagonal_leb;
    apply leb2_total.
Qed.

Lemma block_order_trans (has_dir_b : bool) (p q r : option Z * option Z) :
  block_order has_dir_b p q = true -> block_order has_dir_b q r = true ->
  block_order has_dir_b p r = true.
Proof.
  destruct has_dir_b; unfold block_order, row_major_leb, diagonal_leb;
    apply leb2_trans.
Qed.

Lemma block_order_antisym (has_dir_b : bool) (a b a' b' : Z) :
  block_order has_dir_b (Some a, Some b) (Some a', Some b') = true ->
  block_order has_dir_b (Some a', Some b') (Some a, Some b) = true ->
  (Some a, Some b) = (Some a', Some b').
Proof.
  destruct has_dir_b; intros H1 H2; order_cases;
    assert (a = a') by lia; assert (b = b') by lia; congruence.
Qed.

Lemma row_major_before (a b a' b' : Z) :
  strictly_before (block_order true) (Some a, Some b) (Some a', Some b') = true
  <-> a < a' \/ (a = a' /\ b < b').
Proof. order_cases; split; intro H; try discriminate; try lia; auto. Qed.

Lemma diagonal_before (a b a' b' : Z) :
  strictly_before (block_order false) (Some a, Some b) (Some a', Some b') = true
  <-> b - a < b' - a' \/ (b - a = b' - a' /\ b + a < b' + a').
Proof. order_cases; split; intro H; try discriminate; try lia; auto. Qed.

Lemma fold_left_min (t : list Z) (x : Z) :
  (fold_left Z.min t x = x \/ In (fold_left Z.min t x) t)
  /\ fold_left Z.min t x <= x
  /\ forall y, In y t -> fold_left Z.min t x <= y.
Proof.
  revert x. induction t as [|z t IH]; intro x; simpl.
  - repeat split; [left; reflexivity|lia|tauto].
  - destruct (IH (Z.min x z)) as [Hin [Hle Hall]]. repeat split.
    + destruct Hin as [E|Hin]; [|right; right; exact Hin].
      rewrite E. destruct (Z.min_spec x z) as [[_ ->]|[_ ->]]; auto.
    + lia.
    + intros y [<-|Hy]; [lia|apply Hall; exact Hy].
Qed.

Lemma min_of_spec (l : list Z) :
  match Sql.min_of l with
  | Some m => In m l /\ forall y, In y l -> m <= y
  | None => l = []
  end.
Proof.
  destruct l as [|x t]; simpl; [reflexivity|].
  destruct (fold_left_min t x) as [Hin [Hle Hall]]. split.
  - destruct Hin as [->|Hin]; auto.
  - intros y [<-|Hy]; [exact Hle|apply Hall; exact Hy].
Qed.

Lemma match_block (a b : Z) (q : option Z * option Z) :
  (Sql.eqb (fst q) (Some a) && Sql.eqb (snd q) (Some b))%bool = true
  <-> q = (Some a, Some b).
Proof.
  destruct q as [[a'|] [b'|]]; simpl;
    rewrite ?andb_true_iff, ?Z.eqb_eq; split; intro H;
    try discriminate; try (destruct H; discriminate).
  - destruct H. congruence.
  - injection H. auto.
Qed.

(** The key [tmp] gives to a block is its dense rank among the blocks of
    the table [t], when no block of [t] is NULL. *)
Lemma block_key_is_rank (has_dir_b : bool) (t : list Dif.row) (r : Dif.row) :
  (forall x, In x t -> exists a b, blocks x = (Some a, Some b)) ->
  In r t ->
  select_block_key (block_key_temp has_dir_b t) r
  = Some (dense_rank has_dir_b (blocks r) t).
Proof.
  intros Hsome Hr.
  destruct (Hsome r Hr) as [a [b Hp]].
  unfold select_block_key, block_key_temp, dense_rank.
  change (if has_dir_b then row_major_leb else diagonal_leb)
    with (block_order has_dir_b).
  change (map (fun r0 : Dif.row => (Dif.block_a r0, Dif.block_b r0)) t)
    with (map blocks t).
  set (L := Sql.distinct Sql.pair_eqb (map blocks t)).
  set (S := Sql.order_by (block_order has_dir_b) L).
  assert (HinL : forall x, In x L -> exists a b, x = (Some a, Some b)).
  { intros x Hx.
    apply (proj1 (distinct_In Sql.pair_eqb (map blocks t) x pair_eqb_eq)) in Hx.
    apply in_map_iff in Hx. destruct Hx as [y [<- Hy]]. apply Hsome. exact Hy. }
  assert (HpS : In (Some a, Some b) S).
  { apply order_by_In.
    apply (proj2 (distinct_In Sql.pair_eqb (map blocks t) _ pair_eqb_eq)).
    rewrite <- Hp. apply in_map. exact Hr. }
  destruct (first_occurrence Sql.pair_eqb _ S pair_eqb_eq HpS)
    as [front [back [ES Hnot]]].
  assert (Hb : Dif.block_a r = Some a /\ Dif.block_b r = Some b).
  { unfold blocks in Hp. injection Hp. auto. }
  destruct Hb as [Ha Hb].
  rewrite Ha, Hb, ES.
  rewrite (find_number_from
             (fun q => Sql.eqb (fst q) (Some a) && Sql.eqb (snd q) (Some b))%bool
             front back (Some a, Some b) 1).
  - cbn [option_map fst]. f_equal. f_equal. f_equal. rewrite Hp.
    rewrite (filter_length_perm _ L S) by apply order_by_perm.
    rewrite ES. symmetry.
    apply (sorted_rank (block_order has_dir_b)).
    + rewrite <- ES. apply order_by_sorted.
      * apply block_order_total.
      * apply block_order_trans.
    + intros x Hx H1 H2.
      assert (HxL : In x L).
      { apply (order_by_In (block_order has_dir_b)). fold S. rewrite ES.
        apply in_or_app. left. exact Hx. }
      destruct (HinL x HxL) as [a' [b' ->]].
      apply (block_order_antisym has_dir_b); assumption.
    + exact Hnot.
  - intros x Hx. apply not_true_is_false. intro H.
    apply match_block in H. subst x. contradiction.
  - apply match_block. reflexivity.
Qed.

Lemma b_offset_spec (s : SQLiteDB) (b : Directory.row) :
  In b (directory s) -> Directory.dir_b b = 1 ->
  exists m,
    get_b_offset s = Some m
    /\ (exists b0, In b0 (directory s) /\ Directory.dir_b b0 = 1
                   /\ Directory.key b0 = m)
    /\ (forall b', In b' (directory s) -> Directory.dir_b b' = 1 ->
                   m <= Directory.key b').
Proof.
  intros Hb Eb. unfold get_b_offset.
  set (ks := map Directory.key
                 (filter (fun r => Directory.dir_b r =? 1) (directory s))).
  assert (Hin : forall b', In b' (directory s) -> Directory.dir_b b' = 1 ->
                           In (Directory.key b') ks).
  { intros b' Hb' Eb'. apply in_map. apply filter_In.
    split; [exact Hb'|]. apply Z.eqb_eq. exact Eb'. }
  pose proof (min_of_spec ks) as Hmin.
  destruct (Sql.min_of ks) as [m|].
  - destruct Hmin as [Hm Hall]. exists m. repeat split.
    + apply in_map_iff in Hm. destruct Hm as [b0 [E H0]].
      apply filter_In in H0. destruct H0 as [H0 E0].
      exists b0. apply Z.eqb_eq in E0. auto.
    + intros b' Hb' Eb'. apply Hall. apply Hin; assumption.
  - specialize (Hin b Hb Eb). rewrite Hmin in Hin. contradiction.
Qed.

(** The rows of the planned table: each comes from an inserted row, with
    its two blocks and the key of its block. *)
Lemma planned_from_rows (rows : list Dif.row) (q block_size : Z)
  (has_dir_b : bool) (s : SQLiteDB) (r' : Dif.row) :
  In r' (dif_table (planned_from rows q block_size has_dir_b s)) ->
  exists r,
    In r rows
    /\ key_pair r' = key_pair r
    /\ Dif.block_a r' = Sql.div (Some (Dif.key_a r)) (Some block_size)
    /\ Dif.block_b r'
       = (if has_dir_b
          then Sql.div (Sql.sub (Some (Dif.key_b r)) (get_b_offset s))
                       (Some block_size)
          else Sql.div (Some (Dif.key_b r)) (Some block_size))
    /\ Dif.block_key r'
       = select_block_key
           (block_key_temp has_dir_b
              (set_blocks block_size has_dir_b (set_dif_table_seq rows q s)))
           r'.
Proof.
  unfold planned_from. cbn [dif_table set_dif_table].
  intro H. apply in_map_iff in H. destruct H as [r2 [<- H2]].
  unfold set_blocks in H2 at 1. cbn [dif_table set_dif_table_seq] in H2.
  apply in_map_iff in H2. destruct H2 as [r [<- Hr]].
  exists r. repeat split; try reflexivity. exact Hr.
Qed.

Lemma div_some (x b : Z) :
  b <> 0 -> Sql.div (Some x) (Some b) = Some (Z.quot x b).
Proof.
  intro H. unfold Sql.div. destruct (Z.eqb_spec b 0); [contradiction|].
  reflexivity.
Qed.

(** C3.  On a catalog with distinct keys and an empty pair table, with a
    block size other than 0, [prepopulate_diff_table] returns and every pair
    row has [block_a = key_a / B]; [block_b = key_b / B] with one partition
    and [block_b = (key_b - min_key_B) / B] with two, [min_key_B] being the
    least key of partition b; and [block_key] the dense rank of its
    [(block_a, block_b)] among the distinct blocks of the table, in the order
    by [block_a, block_b] with two partitions and by [(block_b - block_a),
    (block_b + block_a)] with one.  The division is the integer division of
    SQLite, which truncates ([Z.quot]); it is the floor division [/] on the
    keys of a catalog, which are not negative, for a positive [B]. *)
Theorem prepopulate_diff_table_blocks (block_size : Z) (has_dir_b : bool)
  (s : SQLiteDB) :
  NoDup (map Directory.key (directory s)) ->
  dif_table s = [] ->
  block_size <> 0 ->
  exists s',
    prepopulate_diff_table block_size has_dir_b s = (Val tt, s')
    /\ (forall r, In r (dif_table s') ->
          Dif.block_a r = Some (Z.quot (Dif.key_a r) block_size)
          /\ (has_dir_b = false ->
              Dif.block_b r = Some (Z.quot (Dif.key_b r) block_size))
          /\ (has_dir_b = true ->
              exists min_key_b,
                get_b_offset s = Some min_key_b
                /\ (exists b, In b (directory s) /\ Directory.dir_b b = 1
                              /\ Directory.key b = min_key_b)
                /\ (forall b, In b (directory s) -> Directory.dir_b b = 1 ->
                              min_key_b <= Directory.key b)
                /\ min_key_b <= Dif.key_b r
                /\ Dif.block_b r
                   = Some (Z.quot (Dif.key_b r - min_key_b) block_size))
          /\ Dif.block_key r
             = Some (dense_rank has_dir_b (blocks r) (dif_table s')))
    /\ (forall a b a' b' : Z,
           strictly_before (block_order true) (Some a, Some b)
                           (Some a', Some b') = true
           <-> a < a' \/ (a = a' /\ b < b'))
    /\ (forall a b a' b' : Z,
           strictly_before (block_order false) (Some a, Some b)
                           (Some a', Some b') = true
           <-> b - a < b' - a' \/ (b - a = b' - a' /\ b + a < b' + a'))
    /\ (forall x : Z, 0 <= x -> 0 < block_size ->
                      Z.quot x block_size = x / block_size).
Proof.
  intros Hnd Hempty Hb.
  destruct (prepopulate_diff_table_run block_size has_dir_b s Hnd Hempty)
    as [rows [q [Hm [_ Hrun]]]].
  set (s' := planned_from rows q block_size has_dir_b s) in *.
  exists s'. split; [exact Hrun|].
  assert (Hrow : forall r, In r (dif_table s') ->
            Dif.block_a r = Some (Z.quot (Dif.key_a r) block_size)
            /\ (has_dir_b = false ->
                Dif.block_b r = Some (Z.quot (Dif.key_b r) block_size))
            /\ (has_dir_b = true ->
                exists min_key_b,
                  get_b_offset s = Some min_key_b
                  /\ (exists b, In b (directory s) /\ Directory.dir_b b = 1
                                /\ Directory.key b = min_key_b)
                  /\ (forall b, In b (directory s) -> Directory.dir_b b = 1 ->
                                min_key_b <= Directory.key b)
                  /\ min_key_b <= Dif.key_b r
                  /\ Dif.block_b r
                     = Some (Z.quot (Dif.key_b r - min_key_b) block_size))).
  { intros r' Hr'.
    destruct (planned_from_rows rows q block_size has_dir_b s r' Hr')
      as [r [Hr [Hk [Ha [Hbb _]]]]].
    unfold key_pair in Hk. injection Hk as Hka Hkb.
    rewrite Ha, Hbb, div_some, Hka by exact Hb.
    split; [reflexivity|]. split.
    - intros ->. rewrite div_some, Hkb by exact Hb. reflexivity.
    - intros ->.
      assert (Hc : In (Dif.key_a r, Dif.key_b r)
                      (candidate_pairs true (directory s))).
      { rewrite <- Hm. apply (in_map key_pair). exact Hr. }
      apply candidate_pairs_In in Hc.
      destruct Hc as [a [b [_ [Hbin [_ [Ekb [_ Edb]]]]]]].
      destruct (b_offset_spec s b Hbin Edb) as [m [Em [Hex Hleast]]].
      exists m. rewrite Em. cbn [Sql.sub]. rewrite div_some by exact Hb.
      rewrite Hkb. repeat split; try assumption.
      rewrite <- Ekb. apply Hleast; assumption. }
  split; [|repeat split].
  - intros r' Hr'. destruct (Hrow r' Hr') as [Ha [H1 H2]].
    repeat split; try assumption.
    destruct (planned_from_rows rows q block_size has_dir_b s r' Hr')
      as [r [_ [_ [_ [_ Hkey]]]]].
    rewrite Hkey.
    set (t2 := set_blocks block_size has_dir_b (set_dif_table_seq rows q s)).
    assert (Hblocks : map blocks (dif_table s') = map blocks t2).
    { subst s'. unfold planned_from. cbn [dif_table set_dif_table].
      fold t2. rewrite map_map. reflexivity. }
    assert (Hin2 : exists r2, In r2 t2 /\ blocks r2 = blocks r').
    { assert (Hi : In (blocks r') (map blocks t2)).
      { rewrite <- Hblocks. apply in_map. exact Hr'. }
      apply in_map_iff in Hi. destruct Hi as [r2 [E H]]. exists r2. auto. }
    destruct Hin2 as [r2 [Hr2 E2]].
    assert (Hsome : forall x, In x t2 ->
                              exists a b, blocks x = (Some a, Some b)).
    { intros x Hx.
      assert (Hi : In (blocks x) (map blocks (dif_table s'))).
      { rewrite Hblocks. apply in_map. exact Hx. }
      apply in_map_iff in Hi. destruct Hi as [y [Ey Hy]].
      destruct (Hrow y Hy) as [Hya [Hy1 Hy2]].
      rewrite <- Ey. unfold blocks. rewrite Hya.
      destruct has_dir_b.
      - destruct (Hy2 eq_refl) as [m [_ [_ [_ [_ ->]]]]]. eauto.
      - rewrite (Hy1 eq_refl). eauto. }
    pose proof (block_key_is_rank has_dir_b t2 r2 Hsome Hr2) as Hrank.
    unfold select_block_key in *. unfold blocks in E2.
    injection E2 as Ea Eb. rewrite <- Ea, <- Eb, Hrank.
    unfold dense_rank. rewrite Hblocks. unfold blocks.
    rewrite Ea, Eb. reflexivity.
  - apply row_major_before.
  - apply row_major_before.
  - apply diagonal_before.
  - apply diagonal_before.
  - intros x Hx Hpos. apply Z.quot_div_nonneg; lia.
Qed.

Lemma prepopulate_diff_table_blocks_witness :
  NoDup (map Directory.key (directory three_files))
  /\ dif_table three_files = []
  /\ 2 <> 0
  /\ exists s',
      prepopulate_diff_table 2 false three_files = (Val tt, s')
      /\ map (fun r => (key_pair r, blocks r, Dif.block_key r)) (dif_table s')
         = [((0, 1), (Some 0, Some 0), Some 1);
            ((0, 2), (Some 0, Some 1), Some 2);
            ((1, 2), (Some 0, Some 1), Some 2)]
      /\ forall r, In r (dif_table s') ->
                   Dif.block_key r
                   = Some (dense_rank false (blocks r) (dif_table s')).
Proof.
  assert (Hnd : NoDup (map Directory.key (directory three_files))).
  { repeat constructor; simpl; intuition discriminate. }
  assert (Hb : 2 <> 0) by discriminate.
  split; [exact Hnd|]. split; [reflexivity|]. split; [exact Hb|].
  destruct (prepopulate_diff_table_blocks 2 false three_files Hnd eq_refl Hb)
    as [s' [Hrun [Hrows _]]].
  exists s'. split; [exact Hrun|]. split.
  - vm_compute in Hrun. injection Hrun as <-. reflexivity.
  - intros r Hr. destruct (Hrows r Hr) as [_ [_ [_ Hkey]]]. exact Hkey.
Defined.

(* ================================================================== *)
(** * The catalog between indexing and the first loop *)
(* ================================================================== *)

Lemma with_success_back (r : Directory.row) :
  Directory.success r = -1 -> with_success (-1) (with_success (-2) r) = r.
Proof. destruct r. simpl. intros ->. reflexivity. Qed.

(** X1.  Resetting after an interrupted batch gives the catalog back: when no
    row is in PROCESSING, taking a batch of any size and then calling
    [reset_preprocessing] leaves the database as it was. *)
Theorem reset_preprocessing_undoes_batch (n : Z) (s : SQLiteDB) :
  NoDup (map Directory.key (directory s)) ->
  (forall r, In r (directory s) -> Directory.success r <> -2) ->
  reset_preprocessing (snd (batch_of_preprocessing_args n s)) = s.
Proof.
  intros Hnd Hno.
  assert (Hincl : incl (unprocessed n s) (directory s)).
  { intros r Hr. apply (unprocessed_spec n s r Hr). }
  unfold reset_preprocessing, batch_of_preprocessing_args. simpl.
  rewrite map_map.
  assert (E : map (fun r =>
                     if Directory.success
                          (if existsb (Z.eqb (Directory.key r))
                                      (map Directory.key (unprocessed n s))
                           then with_success (-2) r else r) =? -2
                     then with_success (-1)
                            (if existsb (Z.eqb (Directory.key r))
                                        (map Directory.key (unprocessed n s))
                             then with_success (-2) r else r)
                     else if existsb (Z.eqb (Directory.key r))
                                     (map Directory.key (unprocessed n s))
                          then with_success (-2) r else r)
                  (directory s)
              = directory s).
  { rewrite <- (map_id (directory s)) at 2. apply map_ext_in.
    intros r Hr.
    destruct (existsb (Z.eqb (Directory.key r))
                      (map Directory.key (unprocessed n s))) eqn:Esel.
    - apply (existsb_key_In (directory s)) in Esel; try assumption.
      apply unprocessed_spec in Esel. destruct Esel as [_ Es].
      simpl. apply with_success_back. exact Es.
    - specialize (Hno r Hr).
      destruct (Z.eqb_spec (Directory.success r) (-2)); [contradiction|].
      reflexivity. }
  rewrite E. destruct s. reflexivity.
Qed.

Lemma reset_preprocessing_undoes_batch_witness :
  NoDup (map Directory.key (directory three_files))
  /\ (forall r, In r (directory three_files) -> Directory.success r <> -2)
  /\ map Directory.success
       (directory (snd (batch_of_preprocessing_args 2 three_files)))
     = [-2; -2; -1]
  /\ reset_preprocessing (snd (batch_of_preprocessing_args 2 three_files))
     = three_files.
Proof.
  assert (Hnd : NoDup (map Directory.key (directory three_files))).
  { simpl. repeat constructor; simpl; intuition discriminate. }
  assert (Hno : forall r, In r (directory three_files) ->
                          Directory.success r <> -2).
  { intros r [<-|[<-|[<-|[]]]]; discriminate. }
  split; [exact Hnd|]. split; [exact Hno|]. split; [reflexivity|].
  exact (reset_preprocessing_undoes_batch 2 three_files Hnd Hno).
Defined.

Lemma rising_cons_inv (k : Z) (l : list Z) :
  rising (k :: l) -> rising l /\ forall x, In x l -> k < x.
Proof.
  intro H. inversion H as [|? ? Hs Hall]; subst. split; [exact Hs|].
  rewrite Forall_forall in Hall. exact Hall.
Qed.

Lemma rising_map_sub (m : Z) (l : list Z) :
  rising l -> rising (map (fun k => k - m) l).
Proof.
  induction l as [|k l IH]; simpl; intro H; [constructor|].
  apply rising_cons_inv in H. destruct H as [Hs Hall].
  constructor; [apply IH; exact Hs|].
  apply Forall_forall. intros x Hx. apply in_map_iff in Hx.
  destruct Hx as [y [<- Hy]]. specialize (Hall y Hy). lia.
Qed.

(** The row-by-row update meets no conflict when the keys rise and the shift
    is not negative: the rows already changed lie below every new key. *)
Lemma shift_keys_rising (m : Z) (todo done : list Directory.row) :
  0 <= m ->
  rising (map Directory.key todo) ->
  (forall d r, In d done -> In r todo ->
               Directory.key d < Directory.key r - m) ->
  shift_keys m done todo
  = Some (done ++ map (fun r => with_key (Directory.key r - m) r) todo).
Proof.
  intro Hm. revert done.
  induction todo as [|r rest IH]; intros done Hrise Hbelow; simpl.
  - rewrite app_nil_r. reflexivity.
  - apply rising_cons_inv in Hrise. destruct Hrise as [Hrest Hlt].
    assert (E : existsb (fun x => Directory.key x =? Directory.key r - m)
                        (done ++ rest) = false).
    { apply not_true_is_false. intro H. apply existsb_exists in H.
      destruct H as [x [Hx Ex]]. apply Z.eqb_eq in Ex.
      apply in_app_or in Hx. destruct Hx as [Hx|Hx].
      - specialize (Hbelow x r Hx (or_introl eq_refl)). lia.
      - specialize (Hlt (Directory.key x) (in_map Directory.key _ _ Hx)).
        lia. }
    rewrite E, IH.
    + rewrite <- app_assoc. reflexivity.
    + exact Hrest.
    + intros d r' Hd Hr'.
      specialize (Hlt (Directory.key r') (in_map Directory.key _ _ Hr')).
      apply in_app_or in Hd. destruct Hd as [Hd|[<-|[]]].
      * specialize (Hbelow d r' Hd (or_intror Hr')). exact Hbelow.
      * destruct r. simpl in *. lia.
Qed.

(** X2.  On a catalog whose keys rise in rowid order and are not negative,
    [set_keys_zero_index] returns and subtracts the least key from every key:
    the rows keep their order and their other columns, the differences
    between keys stay, and the least key of a catalog with a row is 0
    afterwards.  (With a negative key the update can meet a key that is still
    in the table and fail on the PRIMARY KEY.) *)
Theorem set_keys_zero_index_shifts (s : SQLiteDB) :
  rising (map Directory.key (directory s)) ->
  (forall r, In r (directory s) -> 0 <= Directory.key r) ->
  exists m s',
    set_keys_zero_index s = (Val tt, s')
    /\ directory s'
       = map (fun r => with_key (Directory.key r - m) r) (directory s)
    /\ rising (map Directory.key (directory s'))
    /\ (directory s <> [] ->
        Sql.min_of (map Directory.key (directory s)) = Some m
        /\ Sql.min_of (map Directory.key (directory s')) = Some 0).
Proof.
  intros Hrise Hpos. unfold set_keys_zero_index.
  pose proof (min_of_spec (map Directory.key (directory s))) as Hmin.
  destruct (Sql.min_of (map Directory.key (directory s))) as [m|] eqn:Em.
  - destruct Hmin as [Hin Hleast].
    assert (Hm : 0 <= m).
    { apply in_map_iff in Hin. destruct Hin as [r [<- Hr]]. apply Hpos, Hr. }
    rewrite (shift_keys_rising m (directory s) [] Hm Hrise)
      by (intros d r []).
    simpl.
    assert (Hkeys : map Directory.key
                      (map (fun r => with_key (Directory.key r - m) r)
                           (directory s))
                    = map (fun k => k - m) (map Directory.key (directory s))).
    { rewrite !map_map. apply map_ext. intro r. destruct r. reflexivity. }
    exists m. eexists. split; [reflexivity|].
    destruct s as [d dq h hq t tq e]. simpl in *.
    split; [reflexivity|]. split.
    + rewrite Hkeys. apply rising_map_sub. exact Hrise.
    + intros _. split; [reflexivity|]. rewrite Hkeys.
      pose proof (min_of_spec (map (fun k => k - m) (map Directory.key d)))
        as Hmin'.
      destruct (Sql.min_of (map (fun k => k - m) (map Directory.key d)))
        as [m'|].
      * destruct Hmin' as [Hin' Hleast']. f_equal.
        assert (Hzero : In 0 (map (fun k => k - m) (map Directory.key d))).
        { apply in_map_iff. exists m. split; [lia|exact Hin]. }
        specialize (Hleast' 0 Hzero).
        apply in_map_iff in Hin'. destruct Hin' as [k [<- Hk]].
        specialize (Hleast k Hk). lia.
      * apply map_eq_nil in Hmin'. rewrite Hmin' in Hin. contradiction.
  - exists 0, s. apply map_eq_nil in Hmin.
    split; [reflexivity|]. split.
    + rewrite Hmin. reflexivity.
    + split; [rewrite Hmin; constructor|]. intro Hne. contradiction.
Qed.

Lemma set_keys_zero_index_shifts_witness :
  rising (map Directory.key (directory two_and_one))
  /\ (forall r, In r (directory two_and_one) -> 0 <= Directory.key r)
  /\ exists s',
      set_keys_zero_index two_and_one = (Val tt, s')
      /\ map Directory.key (directory s') = [0; 1; 2]
      /\ rising (map Directory.key (directory s')).
Proof.
  assert (Hrise : rising (map Directory.key (directory two_and_one))).
  { simpl. repeat constructor; lia. }
  assert (Hpos : forall r, In r (directory two_and_one) ->
                           0 <= Directory.key r).
  { intros r [<-|[<-|[<-|[]]]]; simpl; lia. }
  split; [exact Hrise|]. split; [exact Hpos|].
  destruct (set_keys_zero_index_shifts two_and_one Hrise Hpos)
    as [m [s' [Hrun [_ [Hr _]]]]].
  exists s'. split; [exact Hrun|]. split; [|exact Hr].
  vm_compute in Hrun. injection Hrun as <-. reflexivity.
Defined.

(* ================================================================== *)
(** * The keys of the catalog *)
(* ================================================================== *)

Lemma fold_left_max_le (t : list Z) (x q : Z) :
  x <= q -> (forall k, In k t -> k <= q) -> fold_left Z.max t x <= q.
Proof.
  revert x. induction t as [|y t IH]; simpl; intros x Hx Ht; [exact Hx|].
  apply IH.
  - specialize (Ht y (or_introl eq_refl)). lia.
  - intros k Hk. apply Ht. right. exact Hk.
Qed.

Lemma next_rowid_covered (q : Z) (keys : list Z) :
  (forall k, In k keys -> k <= q) -> Sql.next_rowid q keys = q + 1.
Proof.
  intro H. unfold Sql.next_rowid, Sql.max_of.
  destruct keys as [|x t]; [reflexivity|].
  assert (Hm : fold_left Z.max t x <= q).
  { apply fold_left_max_le.
    - apply H. left. reflexivity.
    - intros k Hk. apply H. right. exact Hk. }
  lia.
Qed.

Lemma insert_directory_key (t t' : list Directory.row) (q q' : Z)
  (r : Directory.row) :
  (forall x, In x t -> Directory.key x <= q) ->
  insert_directory (t, q) r = Some (t', q') ->
  t' = t ++ [with_key (q + 1) r] /\ q' = q + 1.
Proof.
  intros Hcov E. unfold insert_directory in E.
  destruct (path_dir_b_taken (Directory.path r) (Directory.dir_b r) t);
    [discriminate|].
  rewrite next_rowid_covered in E.
  - injection E as <- <-. split; reflexivity.
  - intros k Hk. apply in_map_iff in Hk. destruct Hk as [x [<- Hx]].
    apply Hcov, Hx.
Qed.

Lemma covered_app (t : list Directory.row) (q : Z) (r : Directory.row) :
  (forall x, In x t -> Directory.key x <= q) ->
  forall x, In x (t ++ [with_key (q + 1) r]) -> Directory.key x <= q + 1.
Proof.
  intros Hcov x Hx. apply in_app_or in Hx. destruct Hx as [Hx|[<-|[]]].
  - specialize (Hcov x Hx). lia.
  - simpl. lia.
Qed.

Lemma run_from_length (k : Z) (n : nat) : List.length (run_from k n) = n.
Proof.
  revert k. induction n as [|n IH]; intro k; simpl; [reflexivity|].
  rewrite IH. reflexivity.
Qed.

Lemma run_from_In (k : Z) (n : nat) (x : Z) :
  In x (run_from k n) <-> k <= x < k + Z.of_nat n.
Proof.
  revert k. induction n as [|n IH]; intro k.
  - simpl. lia.
  - cbn [run_from In]. rewrite IH. lia.
Qed.

Lemma bulk_insert_keys (tgt : list (string * string * Z)) (s s' : SQLiteDB) :
  seq_covers s ->
  for_each insert_file_stmt tgt s = (Val tt, s') ->
  map Directory.key (directory s')
  = map Directory.key (directory s)
    ++ run_from (directory_seq s + 1) (List.length tgt)
  /\ directory_seq s' = directory_seq s + Z.of_nat (List.length tgt)
  /\ seq_covers s'.
Proof.
  revert s. induction tgt as [|arg tgt IH]; intros s Hcov E.
  - simpl in E. injection E as <-. simpl. rewrite app_nil_r.
    repeat split; [lia|exact Hcov].
  - cbn [for_each] in E. unfold bind in E.
    unfold insert_file_stmt in E at 1.
    destruct (insert_directory (directory s, directory_seq s) (new_file arg))
      as [[t q]|] eqn:Ei; [|discriminate].
    destruct (insert_directory_key _ _ _ _ _ Hcov Ei) as [-> ->].
    apply IH in E.
    + destruct E as [Ek [Eq Hc]]. simpl in Ek, Eq.
      split; [|split; [|exact Hc]].
      * rewrite Ek, map_app, <- app_assoc. reflexivity.
      * rewrite Eq. cbn [List.length]. lia.
    + unfold seq_covers. simpl. apply covered_app. exact Hcov.
Qed.

Lemma keyed_from_keys (k : Z) (rows : list Directory.row) :
  map Directory.key (keyed_from k rows) = run_from k (List.length rows).
Proof.
  unfold keyed_from. revert k.
  induction rows as [|r rows IH]; intro k; simpl; [reflexivity|].
  rewrite IH. reflexivity.
Qed.

(** The rows a run of inserts adds, each under its key. *)
Lemma bulk_insert_rows_keyed (tgt : list (string * string * Z))
  (s s' : SQLiteDB) :
  seq_covers s ->
  for_each insert_file_stmt tgt s = (Val tt, s') ->
  directory s'
  = directory s ++ keyed_from (directory_seq s + 1) (map new_file tgt).
Proof.
  revert s. induction tgt as [|arg tgt IH]; intros s Hcov E.
  - simpl in E. injection E as <-. unfold keyed_from. simpl.
    rewrite app_nil_r. reflexivity.
  - cbn [for_each] in E. unfold bind in E.
    unfold insert_file_stmt in E at 1.
    destruct (insert_directory (directory s, directory_seq s) (new_file arg))
      as [[t q]|] eqn:Ei; [|discriminate].
    destruct (insert_directory_key _ _ _ _ _ Hcov Ei) as [-> ->].
    apply IH in E.
    + rewrite E. simpl directory. simpl directory_seq.
      rewrite <- app_assoc. reflexivity.
    + unfold seq_covers. simpl. apply covered_app. exact Hcov.
Qed.

(** X3.  [bulk_insert_file] appends the files in the order of [filenames]
    and numbers them without a gap: when no key of the catalog is above the
    counter of the table and the call returns, the catalog is the old one
    followed by one row for each file name, in the order of [filenames],
    with the joined path, the file name, the partition and the defaults of a
    new file, the first under the key counter + 1, the next under counter +
    2, and so on; the counter has advanced by the number of files, and again
    no key is above it. *)
Theorem bulk_insert_file_keys_consecutive (path : string)
  (filenames : list string) (dir_b : bool) (s s' : SQLiteDB) :
  seq_covers s ->
  bulk_insert_file path filenames dir_b s = (Val tt, s') ->
  directory s'
  = directory s
    ++ keyed_from (directory_seq s + 1)
         (map (fun f => new_file (os_path_join path f, f,
                                  if dir_b then 1 else 0)) filenames)
  /\ map Directory.key (directory s')
     = map Directory.key (directory s)
       ++ run_from (directory_seq s + 1) (List.length filenames)
  /\ directory_seq s' = directory_seq s + Z.of_nat (List.length filenames)
  /\ seq_covers s'.
Proof.
  intros Hcov E. unfold bulk_insert_file, debug_execute_many in E.
  split.
  - rewrite (bulk_insert_rows_keyed _ s s' Hcov E), map_map. reflexivity.
  - apply bulk_insert_keys in E; [|exact Hcov].
    rewrite length_map in E. exact E.
Qed.

Lemma bulk_insert_file_keys_consecutive_witness :
  seq_covers two_and_one
  /\ exists s',
      bulk_insert_file "/b" ["u.jpg"; "v.jpg"] true two_and_one = (Val tt, s')
      /\ directory s'
         = directory two_and_one
           ++ [indexed 4 "/b" "u.jpg" 1; indexed 5 "/b" "v.jpg" 1]
      /\ map Directory.key (directory s') = [1; 2; 3; 4; 5]
      /\ directory_seq s' = 5.
Proof.
  assert (Hcov : seq_covers two_and_one).
  { intros r [<-|[<-|[<-|[]]]]; simpl; lia. }
  split; [exact Hcov|].
  eexists. split; [vm_compute; reflexivity|].
  destruct (bulk_insert_file_keys_consecutive "/b" ["u.jpg"; "v.jpg"] true
              two_and_one _ Hcov eq_refl) as [Er [Ek [Eq _]]].
  split; [exact Er|]. split; [exact Ek|exact Eq].
Defined.

(* ================================================================== *)
(** * The partition swap: keys and counts *)
(* ================================================================== *)

Lemma insert_select_directory_keys (rows t t' : list Directory.row)
  (q q' : Z) :
  (forall x, In x t -> Directory.key x <= q) ->
  insert_select_directory (t, q) rows = Some (t', q') ->
  exists added,
    t' = t ++ added
    /\ map Directory.key added = run_from (q + 1) (List.length rows)
    /\ q' = q + Z.of_nat (List.length rows)
    /\ map (with_key 0) added = map (with_key 0) rows.
Proof.
  revert t q. induction rows as [|r rows IH]; intros t q Hcov E.
  - simpl in E. injection E as <- <-. exists []. rewrite app_nil_r.
    simpl. repeat split. lia.
  - cbn [insert_select_directory] in E.
    destruct (insert_directory (t, q) r) as [[t1 q1]|] eqn:Ei; [|discriminate].
    destruct (insert_directory_key _ _ _ _ _ Hcov Ei) as [-> ->].
    apply IH in E; [|apply covered_app; exact Hcov].
    destruct E as [added [-> [Ek [-> Hm]]]].
    exists (with_key (q + 1) r :: added). repeat split.
    + rewrite <- app_assoc. reflexivity.
    + simpl. rewrite Ek. reflexivity.
    + cbn [List.length]. lia.
    + simpl. rewrite Hm. reflexivity.
Qed.

Lemma filter_all {T : Type} (f : T -> bool) (l : list T) :
  (forall x, In x l -> f x = true) -> filter f l = l.
Proof.
  induction l as [|x t IH]; simpl; intro H; [reflexivity|].
  rewrite (H x (or_introl eq_refl)), IH; [reflexivity|].
  intros y Hy. apply H. right. exact Hy.
Qed.

Lemma relabelled (b : Z) (added rows : list Directory.row) :
  map (with_key 0) added = map (with_key 0) (map (with_dir_b b) rows) ->
  List.length added = List.length rows
  /\ forall x, In x added -> Directory.dir_b x = b.
Proof.
  intro Hm. split.
  - apply (f_equal (@List.length _)) in Hm. rewrite !length_map in Hm.
    exact Hm.
  - intros x Hx.
    assert (Hin : In (with_key 0 x) (map (with_key 0) added))
      by (apply in_map; exact Hx).
    rewrite Hm, map_map in Hin. apply in_map_iff in Hin.
    destruct Hin as [y [E _]].
    apply (f_equal Directory.dir_b) in E. simpl in E. congruence.
Qed.

(** The table [swap_dir_b] leaves: the former rows of b, relabelled 0, with
    the keys from 1 on, then the former rows of a, relabelled 1, with the
    keys that follow. *)
Lemma swap_dir_b_layout (s : SQLiteDB) :
  NoDup (map path_dir_b (directory s)) ->
  exists tb ta,
    swap_dir_b s
    = (Val tt,
       set_directory_seq (tb ++ ta)
         (Z.of_nat (List.length tb) + Z.of_nat (List.length ta)) s)
    /\ List.length tb
       = List.length (filter (fun r => Directory.dir_b r =? 1) (directory s))
    /\ List.length ta
       = List.length (filter (fun r => Directory.dir_b r =? 0) (directory s))
    /\ (forall x, In x tb -> Directory.dir_b x = 0)
    /\ (forall x, In x ta -> Directory.dir_b x = 1)
    /\ map Directory.key tb = run_from 1 (List.length tb)
    /\ map Directory.key ta
       = run_from (Z.of_nat (List.length tb) + 1) (List.length ta).
Proof.
  intro Hnd. unfold swap_dir_b.
  pose proof (swapped_rows_NoDup (directory s) Hnd) as Hall.
  set (rb := map (with_dir_b 0)
                 (filter (fun r => Directory.dir_b r =? 1) (directory s))) in *.
  set (ra := map (with_dir_b 1)
                 (filter (fun r => Directory.dir_b r =? 0) (directory s))) in *.
  destruct (insert_select_directory_ok rb [] 0) as [tb0 [qb [Eb _]]].
  { simpl. rewrite map_app in Hall. apply NoDup_app_remove_r in Hall.
    exact Hall. }
  rewrite Eb. simpl.
  assert (Hnil : forall x : Directory.row, In x [] -> Directory.key x <= 0)
    by (intros x []).
  destruct (insert_select_directory_keys rb [] ([] ++ tb0) 0 qb Hnil Eb)
    as [tb [Etb [Kb [Qb Mb]]]].
  simpl in Etb. subst tb0.
  destruct (relabelled 0 tb _ Mb) as [Lb Db].
  assert (Lrb : List.length rb = List.length tb).
  { unfold rb. rewrite length_map. symmetry. exact Lb. }
  assert (Hcov : forall x, In x tb -> Directory.key x <= qb).
  { intros x Hx.
    assert (Hk : In (Directory.key x) (map Directory.key tb))
      by (apply in_map; exact Hx).
    rewrite Kb in Hk. apply run_from_In in Hk. lia. }
  destruct (insert_select_directory_ok ra tb qb) as [ta0 [qa [Ea _]]].
  { rewrite map_app.
    replace (map path_dir_b tb) with (map path_dir_b rb).
    - rewrite <- map_app. exact Hall.
    - transitivity (map path_dir_b (map (with_key 0) rb)).
      + rewrite map_map. reflexivity.
      + rewrite <- Mb, map_map. reflexivity. }
  rewrite Ea.
  destruct (insert_select_directory_keys ra tb _ qb qa Hcov Ea)
    as [ta [Eta [Ka [Qa Ma]]]].
  apply app_inv_head in Eta. subst ta0.
  destruct (relabelled 1 ta _ Ma) as [La Da].
  assert (Lra : List.length ra = List.length ta).
  { unfold ra. rewrite length_map. symmetry. exact La. }
  exists tb, ta. rewrite Lrb in Kb, Qb. rewrite Lra in Ka, Qa.
  subst qb qa. simpl Z.add in *.
  repeat split; try assumption.
Qed.

Lemma count_after_swap (tb ta : list Directory.row) :
  (forall x, In x tb -> Directory.dir_b x = 0) ->
  (forall x, In x ta -> Directory.dir_b x = 1) ->
  filter (fun r => Directory.dir_b r =? 0) (tb ++ ta) = tb
  /\ filter (fun r => Directory.dir_b r =? 1) (tb ++ ta) = ta.
Proof.
  intros Db Da. rewrite !filter_app. split.
  - rewrite filter_all, filter_none, app_nil_r; [reflexivity| |].
    + intros x Hx. rewrite (Da x Hx). reflexivity.
    + intros x Hx. rewrite (Db x Hx). reflexivity.
  - rewrite filter_none, filter_all; [reflexivity| |].
    + intros x Hx. rewrite (Da x Hx). reflexivity.
    + intros x Hx. rewrite (Db x Hx). reflexivity.
Qed.

Lemma min_of_run_from (k : Z) (n : nat) :
  Sql.min_of (run_from k (S n)) = Some k.
Proof.
  simpl. f_equal.
  assert (H : forall m j x, x <= j -> fold_left Z.min (run_from j m) x = x).
  { induction m as [|m IH]; intros j x Hx; simpl; [reflexivity|].
    rewrite Z.min_l by lia. apply IH. lia. }
  apply H. lia.
Qed.

(** X4.  After [cond_switch_a_b] the first partition is never the larger
    one: on a catalog that respects UNIQUE (path, dir_b) the call returns,
    with a second directory the count of partition a is at most the count of
    partition b afterwards, and the two counts are the same two numbers as
    before. *)
Theorem cond_switch_a_b_smaller_first (R : Type) (f : FastDifPy R) :
  NoDup (map path_dir_b (directory (db f))) ->
  exists f',
    cond_switch_a_b f = (Val tt, f')
    /\ (Config.root_dir_b (config f) <> None ->
        get_dir_entry_count false (db f') <= get_dir_entry_count true (db f'))
    /\ get_dir_entry_count false (db f') + get_dir_entry_count true (db f')
       = get_dir_entry_count false (db f) + get_dir_entry_count true (db f)
    /\ (Config.root_dir_b (config f') = None
        <-> Config.root_dir_b (config f) = None).
Proof.
  intro Hnd. unfold cond_switch_a_b, bind, get.
  destruct (Config.root_dir_b (config f)) as [rb|] eqn:Erb.
  - destruct (Z.leb_spec (get_dir_entry_count false (db f))
                         (get_dir_entry_count true (db f))) as [Hle|Hgt].
    + exists f. repeat split; try (intros _; exact Hle); try congruence.
    + unfold modify, on_db. simpl.
      destruct (swap_dir_b_layout (db f) Hnd)
        as [tb [ta [E [Lb [La [Db [Da _]]]]]]].
      rewrite E. eexists. split; [reflexivity|].
      destruct (count_after_swap tb ta Db Da) as [F0 F1].
      unfold get_dir_entry_count in *. simpl.
      rewrite F0, F1, Lb, La.
      repeat split; try lia; try discriminate.
  - exists f. repeat split; congruence.
Qed.

Lemma cond_switch_a_b_smaller_first_witness :
  NoDup (map path_dir_b (directory two_and_one))
  /\ exists f',
      cond_switch_a_b
        (driver_of unit two_and_one (plain_config "/a" (Some "/b")))
      = (Val tt, f')
      /\ get_dir_entry_count false (db f') = 1
      /\ get_dir_entry_count true (db f') = 2.
Proof.
  assert (Hnd : NoDup (map path_dir_b (directory two_and_one))).
  { repeat constructor; simpl; intuition discriminate. }
  split; [exact Hnd|].
  destruct (cond_switch_a_b_smaller_first unit
              (driver_of unit two_and_one (plain_config "/a" (Some "/b")))
              Hnd) as [f' [Hrun _]].
  exists f'. split; [exact Hrun|].
  vm_compute in Hrun. injection Hrun as <-. split; reflexivity.
Defined.

Lemma insert_select_directory_rows (rows t t' : list Directory.row)
  (q q' : Z) :
  (forall x, In x t -> Directory.key x <= q) ->
  insert_select_directory (t, q) rows = Some (t', q') ->
  t' = t ++ keyed_from (q + 1) rows
  /\ q' = q + Z.of_nat (List.length rows).
Proof.
  revert t q. induction rows as [|r rows IH]; intros t q Hcov E.
  - simpl in E. injection E as <- <-. unfold keyed_from. simpl.
    rewrite app_nil_r. split; [reflexivity|lia].
  - cbn [insert_select_directory] in E.
    destruct (insert_directory (t, q) r) as [[t1 q1]|] eqn:Ei; [|discriminate].
    destruct (insert_directory_key _ _ _ _ _ Hcov Ei) as [-> ->].
    apply IH in E; [|apply covered_app; exact Hcov].
    destruct E as [-> ->]. split.
    + rewrite <- app_assoc. reflexivity.
    + cbn [List.length]. lia.
Qed.

Lemma keyed_from_path_dir_b (k : Z) (rows : list Directory.row) :
  map path_dir_b (keyed_from k rows) = map path_dir_b rows.
Proof.
  unfold keyed_from. revert k.
  induction rows as [|r rows IH]; intro k; simpl; [reflexivity|].
  rewrite IH. reflexivity.
Qed.

(** The table [swap_dir_b] leaves, row by row: the former rows of b in
    their order, relabelled 0, under the keys from 1 on, then the former
    rows of a in their order, relabelled 1, under the keys that follow. *)
Lemma swap_dir_b_rows (s : SQLiteDB) :
  NoDup (map path_dir_b (directory s)) ->
  let rb := map (with_dir_b 0)
                (filter (fun r => Directory.dir_b r =? 1) (directory s)) in
  let ra := map (with_dir_b 1)
                (filter (fun r => Directory.dir_b r =? 0) (directory s)) in
  swap_dir_b s
  = (Val tt,
     set_directory_seq
       (keyed_from 1 rb ++ keyed_from (Z.of_nat (List.length rb) + 1) ra)
       (Z.of_nat (List.length rb) + Z.of_nat (List.length ra)) s).
Proof.
  intros Hnd rb ra. unfold swap_dir_b.
  pose proof (swapped_rows_NoDup (directory s) Hnd) as Hall.
  fold rb ra in Hall |- *.
  destruct (insert_select_directory_ok rb [] 0) as [tb0 [qb [Eb _]]].
  { simpl. rewrite map_app in Hall. apply NoDup_app_remove_r in Hall.
    exact Hall. }
  assert (Hnil : forall x : Directory.row, In x [] -> Directory.key x <= 0)
    by (intros x []).
  destruct (insert_select_directory_rows rb [] ([] ++ tb0) 0 qb Hnil Eb)
    as [Etb Eqb].
  simpl in Etb, Eqb. rewrite Eb, Etb, Eqb. cbn [app].
  assert (Hcov : forall x, In x (keyed_from 1 rb) ->
                           Directory.key x <= Z.of_nat (List.length rb)).
  { intros x Hx.
    assert (Hk : In (Directory.key x) (map Directory.key (keyed_from 1 rb)))
      by (apply in_map; exact Hx).
    rewrite keyed_from_keys in Hk. apply run_from_In in Hk. lia. }
  destruct (insert_select_directory_ok ra (keyed_from 1 rb)
                                       (Z.of_nat (List.length rb)))
    as [ta0 [qa [Ea _]]].
  { rewrite map_app, keyed_from_path_dir_b, <- map_app. exact Hall. }
  destruct (insert_select_directory_rows ra _ _ _ qa Hcov Ea) as [Eta Eqa].
  rewrite Ea, Eta, Eqa. reflexivity.
Qed.

(** X5.  [swap_dir_b] rebuilds and renumbers the catalog: on a catalog that
    respects UNIQUE (path, dir_b) it returns, and the new table is, row by
    row, the former files of b in their order, each unchanged but for the
    label 0 and the keys 1, 2, ..., followed by the former files of a in
    their order, each unchanged but for the label 1 and the keys that
    follow; so the keys are 1 .. n, the rows labelled 0 come first, the
    counter of the table is the number of rows, and with a file in the new
    partition b, the offset of that partition is one more than the number of
    files before it. *)
Theorem swap_dir_b_renumbers (s : SQLiteDB) :
  NoDup (map path_dir_b (directory s)) ->
  let n_a := Z.to_nat (get_dir_entry_count false s) in
  let n_b := Z.to_nat (get_dir_entry_count true s) in
  exists s',
    swap_dir_b s = (Val tt, s')
    /\ directory s'
       = keyed_from 1
           (map (with_dir_b 0)
                (filter (fun r => Directory.dir_b r =? 1) (directory s)))
         ++ keyed_from (Z.of_nat n_b + 1)
              (map (with_dir_b 1)
                   (filter (fun r => Directory.dir_b r =? 0) (directory s)))
    /\ map Directory.key (directory s') = run_from 1 (n_b + n_a)
    /\ map Directory.dir_b (directory s') = repeat 0 n_b ++ repeat 1 n_a
    /\ directory_seq s' = Z.of_nat (n_b + n_a)
    /\ (n_a <> O -> get_b_offset s' = Some (Z.of_nat n_b + 1)).
Proof.
  intros Hnd n_a n_b.
  destruct (swap_dir_b_layout s Hnd)
    as [tb [ta [E [Lb [La [Db [Da [Kb Ka]]]]]]]].
  assert (Na : n_a = List.length ta).
  { unfold n_a, get_dir_entry_count. rewrite Nat2Z.id. symmetry. exact La. }
  assert (Nb : n_b = List.length tb).
  { unfold n_b, get_dir_entry_count. rewrite Nat2Z.id. symmetry. exact Lb. }
  pose proof (swap_dir_b_rows s Hnd) as Erows. cbv zeta in Erows.
  rewrite E in Erows. injection Erows as Erows _.
  rewrite length_map in Erows. rewrite <- Lb in Erows.
  rewrite Na, Nb. eexists. split; [exact E|]. simpl.
  split; [exact Erows|].
  assert (Hrun : forall m k n,
             run_from k (m + n) = run_from k m ++ run_from (k + Z.of_nat m) n).
  { induction m as [|m IH]; intros k n.
    - simpl. f_equal. lia.
    - cbn [Nat.add run_from app]. rewrite IH. do 3 f_equal. lia. }
  assert (Hrep : forall (b : Z) l,
             (forall x, In x l -> Directory.dir_b x = b) ->
             map Directory.dir_b l = repeat b (List.length l)).
  { intros b l. induction l as [|x l IH]; intro H; simpl; [reflexivity|].
    rewrite (H x (or_introl eq_refl)), IH; [reflexivity|].
    intros y Hy. apply H. right. exact Hy. }
  repeat split.
  - rewrite map_app, Kb, Ka, Hrun. do 2 f_equal. lia.
  - rewrite map_app, (Hrep 0 tb Db), (Hrep 1 ta Da). reflexivity.
  - lia.
  - intro Hne. unfold get_b_offset. simpl.
    rewrite (proj2 (count_after_swap tb ta Db Da)), Ka.
    destruct (List.length ta) as [|m]; [contradiction|].
    apply min_of_run_from.
Qed.

Lemma swap_dir_b_renumbers_witness :
  NoDup (map path_dir_b (directory two_and_one))
  /\ exists s',
      swap_dir_b two_and_one = (Val tt, s')
      /\ directory s'
         = [indexed 1 "/b" "z.jpg" 0; indexed 2 "/a" "x.jpg" 1;
            indexed 3 "/a" "y.jpg" 1]
      /\ map Directory.key (directory s') = [1; 2; 3]
      /\ map Directory.dir_b (directory s') = [0; 1; 1]
      /\ get_b_offset s' = Some 2.
Proof.
  assert (Hnd : NoDup (map path_dir_b (directory two_and_one))).
  { repeat constructor; simpl; intuition discriminate. }
  split; [exact Hnd|].
  destruct (swap_dir_b_renumbers two_and_one Hnd)
    as [s' [Hrun [Hr [Hk [Hd [_ Ho]]]]]].
  exists s'. split; [exact Hrun|]. split; [exact Hr|].
  split; [exact Hk|]. split; [exact Hd|].
  apply Ho. vm_compute. discriminate.
Defined.

(* ================================================================== *)
(** * The hash table *)
(* ================================================================== *)

Lemma in_text_hashes (x : string) (t : list HashTable.row) :
  In x (text_hashes t) <-> existsb (hash_is x) t = true.
Proof.
  unfold text_hashes. rewrite in_flat_map, existsb_exists.
  split; intros [r [Hr H]]; exists r; (split; [exact Hr|]).
  - unfold hash_is. destruct (HashTable.hash r) as [h|]; [|contradiction].
    destruct H as [->|[]]. apply String.eqb_refl.
  - unfold hash_is in H. destruct (HashTable.hash r) as [h|]; [|discriminate].
    apply String.eqb_eq in H. left. exact H.
Qed.

Lemma text_hashes_bump (h : option string) (t : list HashTable.row) :
  text_hashes (map (bump h) t) = text_hashes t.
Proof.
  unfold text_hashes. induction t as [|r t IH]; simpl; [reflexivity|].
  rewrite IH. f_equal. unfold bump.
  destruct (match h with Some x => hash_is x r | None => false end);
    reflexivity.
Qed.

Lemma text_hashes_app (t u : list HashTable.row) :
  text_hashes (t ++ u) = text_hashes t ++ text_hashes u.
Proof. unfold text_hashes. apply flat_map_app. Qed.

(** What one upsert adds to the hashes of the table. *)
Lemma text_hashes_upsert (h : option string) (s : SQLiteDB) :
  text_hashes (hash_table (upsert_hash_stmt h s))
  = text_hashes (hash_table s)
    ++ match h with
       | Some x => if existsb (hash_is x) (hash_table s) then [] else [x]
       | None => []
       end.
Proof.
  unfold upsert_hash_stmt. destruct h as [x|].
  - destruct (existsb (hash_is x) (hash_table s)) eqn:E; simpl.
    + rewrite app_nil_r. apply (text_hashes_bump (Some x)).
    + rewrite text_hashes_app. reflexivity.
  - simpl. rewrite text_hashes_app. reflexivity.
Qed.

Lemma upsert_keeps_unique (h : option string) (s : SQLiteDB) :
  NoDup (text_hashes (hash_table s)) ->
  NoDup (text_hashes (hash_table (upsert_hash_stmt h s))).
Proof.
  intro Hnd. rewrite text_hashes_upsert. destruct h as [x|].
  - destruct (existsb (hash_is x) (hash_table s)) eqn:E.
    + rewrite app_nil_r. exact Hnd.
    + apply NoDup_app; [exact Hnd|repeat constructor; intros []|].
      intros y Hy [<-|[]]. apply in_text_hashes in Hy. congruence.
  - rewrite app_nil_r. exact Hnd.
Qed.

Lemma sum_bump (x : string) (t : list HashTable.row) :
  NoDup (text_hashes t) ->
  existsb (hash_is x) t = true ->
  fold_right Z.add 0 (map HashTable.count (map (bump (Some x)) t))
  = fold_right Z.add 0 (map HashTable.count t) + 1.
Proof.
  induction t as [|r t IH]; simpl; intros Hnd E; [discriminate|].
  unfold bump at 1. destruct (hash_is x r) eqn:Er.
  - assert (Hr : HashTable.hash r = Some x).
    { unfold hash_is in Er. destruct (HashTable.hash r) as [h|];
        [|discriminate]. apply String.eqb_eq in Er. congruence. }
    unfold text_hashes in Hnd. simpl in Hnd. rewrite Hr in Hnd.
    simpl in Hnd. inversion Hnd as [|? ? Hnot _]; subst.
    assert (Hsame : map (bump (Some x)) t = t).
    { rewrite <- (map_id t) at 2. apply map_ext_in. intros y Hy.
      unfold bump. destruct (hash_is x y) eqn:Ey; [|reflexivity].
      exfalso. apply Hnot. apply (in_text_hashes x t).
      apply existsb_exists. exists y. split; assumption. }
    rewrite Hsame. simpl. lia.
  - simpl in E. rewrite IH; [lia| |exact E].
    unfold text_hashes in Hnd. simpl in Hnd.
    apply NoDup_app_remove_l in Hnd. exact Hnd.
Qed.

Lemma upsert_counts_one (h : option string) (s : SQLiteDB) :
  NoDup (text_hashes (hash_table s)) ->
  sum_count (upsert_hash_stmt h s) = sum_count s + 1.
Proof.
  intro Hnd. unfold sum_count, upsert_hash_stmt.
  assert (Happ : forall row,
             fold_right Z.add 0 (map HashTable.count (hash_table s ++ [row]))
             = fold_right Z.add 0 (map HashTable.count (hash_table s))
               + HashTable.count row).
  { intro row. rewrite map_app, fold_right_app. simpl.
    generalize (map HashTable.count (hash_table s)) as l.
    induction l as [|c l IH]; simpl; lia. }
  destruct h as [x|].
  - destruct (existsb (hash_is x) (hash_table s)) eqn:E; simpl.
    + apply (sum_bump x (hash_table s) Hnd E).
    + rewrite Happ. reflexivity.
  - simpl. rewrite Happ. reflexivity.
Qed.

Lemma bulk_insert_hashes_run (hashes : list (option string))
  (s : SQLiteDB) :
  NoDup (text_hashes (hash_table s)) ->
  sum_count (bulk_insert_hashes hashes s)
  = sum_count s + Z.of_nat (List.length hashes)
  /\ NoDup (text_hashes (hash_table (bulk_insert_hashes hashes s))).
Proof.
  unfold bulk_insert_hashes. revert s.
  induction hashes as [|h hs IH]; intros s Hnd.
  - simpl. split; [lia|exact Hnd].
  - cbn [fold_left List.length].
    destruct (IH (upsert_hash_stmt h s) (upsert_keeps_unique h s Hnd))
      as [Hsum Hu].
    split; [|exact Hu].
    rewrite Hsum, (upsert_counts_one h s Hnd). lia.
Qed.

(** X6.  Under the UNIQUE constraint on [hash], [bulk_insert_hashes] adds
    exactly the number of hashes it is given to [sum(count)], whether a hash
    is new, repeated in the list, already stored or NULL, and the table still
    respects the constraint. *)
Theorem bulk_insert_hashes_counts (hashes : list (option string))
  (s : SQLiteDB) :
  NoDup (text_hashes (hash_table s)) ->
  sum_count (bulk_insert_hashes hashes s)
  = sum_count s + Z.of_nat (List.length hashes)
  /\ NoDup (text_hashes (hash_table (bulk_insert_hashes hashes s))).
Proof.
  intro Hnd. destruct (bulk_insert_hashes_run hashes s Hnd) as [Hsum Hu].
  split; [exact Hsum|exact Hu].
Qed.

Lemma bulk_insert_hashes_counts_witness :
  NoDup (text_hashes (hash_table twin_files))
  /\ sum_count twin_files = 8
  /\ sum_count (bulk_insert_hashes [Some "h0"; None; Some "new"; Some "new"]
                                   twin_files) = 12.
Proof.
  assert (Hnd : NoDup (text_hashes (hash_table twin_files))).
  { simpl. repeat constructor; simpl; intuition discriminate. }
  split; [exact Hnd|]. split; [reflexivity|].
  exact (proj1 (bulk_insert_hashes_counts
                  [Some "h0"; None; Some "new"; Some "new"] twin_files Hnd)).
Defined.

Lemma bulk_insert_hashes_stores (hashes : list (option string))
  (s : SQLiteDB) (x : string) :
  In x (text_hashes (hash_table s)) \/ In (Some x) hashes ->
  In x (text_hashes (hash_table (bulk_insert_hashes hashes s))).
Proof.
  unfold bulk_insert_hashes. revert s.
  induction hashes as [|h hs IH]; intros s H.
  - destruct H as [H|[]]. exact H.
  - cbn [fold_left]. apply IH.
    rewrite text_hashes_upsert.
    destruct H as [H|[->|H]].
    + left. apply in_or_app. left. exact H.
    + left. destruct (existsb (hash_is x) (hash_table s)) eqn:E.
      * apply in_or_app. left. apply in_text_hashes. exact E.
      * apply in_or_app. right. left. reflexivity.
    + right. exact H.
Qed.

Lemma select_hash_key_found (x : string) (s : SQLiteDB) :
  In x (text_hashes (hash_table s)) ->
  exists r, In r (hash_table s)
            /\ HashTable.hash r = Some x
            /\ select_hash_key (Some x) s = Some (HashTable.key r).
Proof.
  intro H. apply in_text_hashes in H. unfold select_hash_key.
  destruct (find (hash_is x) (hash_table s)) as [r|] eqn:Ef.
  - apply find_some in Ef. destruct Ef as [Hr Er].
    exists r. split; [exact Hr|]. split; [|reflexivity].
    unfold hash_is in Er. destruct (HashTable.hash r) as [h|]; [|discriminate].
    apply String.eqb_eq in Er. congruence.
  - apply existsb_exists in H. destruct H as [r [Hr Er]].
    rewrite (find_none _ _ Ef r Hr) in Er. discriminate.
Qed.

Lemma select_hash_key_missing (h : option string) (s : SQLiteDB) :
  (h = None \/ exists x, h = Some x /\ ~ In x (text_hashes (hash_table s))) ->
  select_hash_key h s = None.
Proof.
  intros [->|[x [-> Hx]]]; [reflexivity|]. unfold select_hash_key.
  destruct (find (hash_is x) (hash_table s)) as [r|] eqn:Ef; [|reflexivity].
  exfalso. apply Hx. apply in_text_hashes. apply existsb_exists.
  apply find_some in Ef. exists r. exact Ef.
Qed.

Lemma hash_lookup_keeps (wanted : list (option string)) (s : SQLiteDB) :
  snd (get_bulk_hash_lookup wanted s) = s.
Proof.
  induction wanted as [|h rest IH]; [reflexivity|].
  cbn [get_bulk_hash_lookup]. unfold bind, get at 1.
  destruct (select_hash_key h s); [|reflexivity].
  destruct (get_bulk_hash_lookup rest s) as [[lookup|e] s1]; exact IH.
Qed.

Lemma hash_lookup_found (wanted : list (option string)) (s : SQLiteDB) :
  (forall h, In h wanted ->
     exists x, h = Some x /\ In x (text_hashes (hash_table s))) ->
  exists lookup,
    get_bulk_hash_lookup wanted s = (Val lookup, s)
    /\ map fst lookup = wanted
    /\ forall h k, In (h, k) lookup ->
         exists r, In r (hash_table s)
                   /\ HashTable.key r = k /\ HashTable.hash r = h.
Proof.
  induction wanted as [|h rest IH]; intro Hall.
  - exists []. repeat split. intros h k [].
  - destruct IH as [lookup [E [Ekeys Hrows]]].
    { intros h' Hh'. apply Hall. right. exact Hh'. }
    destruct (Hall h (or_introl eq_refl)) as [x [-> Hx]].
    destruct (select_hash_key_found x s Hx) as [r [Hr [Ehash Esel]]].
    exists ((Some x, HashTable.key r) :: lookup).
    cbn [get_bulk_hash_lookup]. unfold bind, get at 1.
    rewrite Esel, E. split; [reflexivity|].
    split; [simpl; rewrite Ekeys; reflexivity|].
    intros h' k' [Eq|Hin]; [|apply Hrows; exact Hin].
    injection Eq as <- <-. exists r. repeat split; assumption.
Qed.

Lemma hash_lookup_missing (wanted : list (option string)) (s : SQLiteDB) :
  (exists h, In h wanted
     /\ (h = None
         \/ exists x, h = Some x /\ ~ In x (text_hashes (hash_table s)))) ->
  fst (get_bulk_hash_lookup wanted s) = Raise AssertionError.
Proof.
  induction wanted as [|h rest IH]; intros [h' [Hin Hmiss]]; [contradiction|].
  cbn [get_bulk_hash_lookup]. unfold bind, get at 1.
  destruct (select_hash_key h s) as [k|] eqn:Ek; [|reflexivity].
  destruct Hin as [<-|Hin].
  - rewrite (select_hash_key_missing h s Hmiss) in Ek. discriminate.
  - assert (E : fst (get_bulk_hash_lookup rest s) = Raise AssertionError).
    { apply IH. exists h'. split; assumption. }
    destruct (get_bulk_hash_lookup rest s) as [[lookup|e] s1];
      simpl in E |- *; [discriminate|exact E].
Qed.

(** X7.  [get_bulk_hash_lookup] never writes; when every hash asked for is a
    text stored in the hash table it returns a dictionary that has the
    hashes asked for as its keys, each with the key of a row that holds this
    hash; a NULL or a hash that is not stored raises the assertion "Hash not
    found". *)
Theorem get_bulk_hash_lookup_found_or_asserts (wanted : list (option string))
  (s : SQLiteDB) :
  let run := get_bulk_hash_lookup wanted s in
  snd run = s
  /\ ((forall h, In h wanted ->
         exists x, h = Some x /\ In x (text_hashes (hash_table s))) ->
      exists lookup,
        fst run = Val lookup
        /\ map fst lookup = wanted
        /\ forall h k, In (h, k) lookup ->
             exists r, In r (hash_table s)
                       /\ HashTable.key r = k /\ HashTable.hash r = h)
  /\ ((exists h, In h wanted
         /\ (h = None
             \/ exists x, h = Some x
                          /\ ~ In x (text_hashes (hash_table s)))) ->
      fst run = Raise AssertionError).
Proof.
  cbv zeta. split; [apply hash_lookup_keeps|]. split.
  - intro Hall. destruct (hash_lookup_found wanted s Hall)
      as [lookup [E [Ekeys Hrows]]].
    exists lookup. rewrite E. repeat split; assumption.
  - apply hash_lookup_missing.
Qed.

Lemma get_bulk_hash_lookup_found_or_asserts_witness :
  (forall h, In h [Some "h90"; Some "h0"] ->
     exists x, h = Some x /\ In x (text_hashes (hash_table twin_files)))
  /\ fst (get_bulk_hash_lookup [Some "h90"; Some "h0"] twin_files)
     = Val [(Some "h90", 2); (Some "h0", 1)]
  /\ fst (get_bulk_hash_lookup [Some "h90"; None] twin_files)
     = Raise AssertionError.
Proof.
  assert (Hall : forall h, In h [Some "h90"; Some "h0"] ->
            exists x, h = Some x /\ In x (text_hashes (hash_table twin_files))).
  { intros h [<-|[<-|[]]]; eexists; (split; [reflexivity|]); simpl; tauto. }
  split; [exact Hall|].
  pose proof (get_bulk_hash_lookup_found_or_asserts [Some "h90"; Some "h0"]
                twin_files) as H1.
  pose proof (get_bulk_hash_lookup_found_or_asserts [Some "h90"; None]
                twin_files) as H2.
  cbv zeta in H1, H2. split.
  - destruct (proj1 (proj2 H1) Hall) as [lookup [E _]].
    rewrite E. vm_compute in E. symmetry. exact E.
  - apply (proj2 (proj2 H2)). exists None. split; [right; left; reflexivity|].
    left. reflexivity.
Defined.

(* ================================================================== *)
(** * Storing a batch of the first loop *)
(* ================================================================== *)

Lemma ostr_eqb_eq (a b : option string) : ostr_eqb a b = true <-> a = b.
Proof.
  destruct a as [x|], b as [y|]; simpl; try (split; congruence).
  rewrite String.eqb_eq. split; congruence.
Qed.

Lemma py_set_In (h : option string) (l : list (option string)) :
  In h (py_set l) <-> In h l.
Proof.
  induction l as [|x t IH]; simpl; [tauto|].
  rewrite filter_In, IH. split.
  - intros [E|[H _]]; [left; exact E|right; exact H].
  - intros [E|H]; [left; exact E|].
    destruct (ostr_eqb x h) eqn:Ex.
    + left. apply ostr_eqb_eq. exact Ex.
    + right. split; [exact H|reflexivity].
Qed.

Lemma dict_lookup_found (h : option string) (d : PyDict.t (option string) Z) :
  In h (map fst d) -> exists k, PyDict.lookup ostr_eqb h d = Some k.
Proof.
  induction d as [|[h' k'] d IH]; simpl; [contradiction|].
  intros [E|H].
  - subst h'. rewrite (proj2 (ostr_eqb_eq h h) eq_refl). eauto.
  - destruct (ostr_eqb h h'); [eauto|apply IH; exact H].
Qed.

(** The four hash fields of a result, as [store_batch_first_loop] collects
    them. *)
Lemma rewrite_hashes_run (R : Type) (lookup : PyDict.t (option string) Z)
  (results : list (PreprocessResult.t string)) (f : FastDifPy R) :
  (forall res h, In res results ->
     In h [PreprocessResult.hash_0 res; PreprocessResult.hash_90 res;
           PreprocessResult.hash_180 res; PreprocessResult.hash_270 res] ->
     In h (map fst lookup)) ->
  exists results',
    @rewrite_hashes R lookup results f = (Val results', f)
    /\ map (@PreprocessResult.key Z) results'
       = map (@PreprocessResult.key string) results
    /\ map (@PreprocessResult.error Z) results'
       = map (@PreprocessResult.error string) results.
Proof.
  induction results as [|res rest IH]; intro Hall.
  - exists []. repeat split.
  - destruct IH as [rest' [E [Ek Ee]]].
    { intros r h Hr Hh. apply (Hall r h); [right; exact Hr|exact Hh]. }
    destruct (dict_lookup_found (PreprocessResult.hash_0 res) lookup)
      as [k0 E0]; [apply (Hall res); simpl; auto|].
    destruct (dict_lookup_found (PreprocessResult.hash_90 res) lookup)
      as [k1 E1]; [apply (Hall res); simpl; auto|].
    destruct (dict_lookup_found (PreprocessResult.hash_180 res) lookup)
      as [k2 E2]; [apply (Hall res); simpl; auto|].
    destruct (dict_lookup_found (PreprocessResult.hash_270 res) lookup)
      as [k3 E3]; [apply (Hall res); simpl; auto|].
    eexists. cbn [rewrite_hashes]. unfold bind, lookup_hash.
    rewrite E0, E1, E2, E3. unfold ret at 1 2 3 4. rewrite E.
    split; [reflexivity|]. simpl. rewrite Ek, Ee. split; reflexivity.
Qed.

Lemma fold_left_view {S A V : Type} (v : S -> V) (g : S -> A -> S)
  (l : list A) (s : S) :
  (forall st a, v (g st a) = v st) -> v (fold_left g l s) = v s.
Proof.
  intro H. revert s. induction l as [|a l IH]; intro s; [reflexivity|].
  simpl. rewrite IH. apply H.
Qed.

Lemma batch_results_keep_hash_table (to_b64 : string -> string)
  (results : list (PreprocessResult.t Z)) (has_hash : bool) (s : SQLiteDB) :
  hash_table (batch_of_first_loop_results to_b64 results has_hash s)
  = hash_table s.
Proof.
  unfold batch_of_first_loop_results. destruct has_hash.
  - rewrite (fold_left_view hash_table).
    + apply (fold_left_view hash_table). intros st [[e v] k]. reflexivity.
    + intros st [[[[[[x y] h0] h90] h180] h270] k]. reflexivity.
  - rewrite (fold_left_view hash_table).
    + apply (fold_left_view hash_table). intros st [[e v] k]. reflexivity.
    + intros st [[x y] k]. reflexivity.
Qed.

Lemma db_set_db (R : Type) (d : SQLiteDB) (f : FastDifPy R) :
  db (set_db d f) = d.
Proof. reflexivity. Qed.

(** X8.  With hashing on, the four hash fields set in every result and
    sizes that respect the CHECK on [px] and [py],
    [store_batch_first_loop] returns and [sum(count)] over the hash table
    grows by four for every result of the batch; the table still respects
    the UNIQUE constraint on [hash]. *)
Theorem store_batch_first_loop_counts_four (to_b64 : string -> string)
  (R : Type) (results : list (PreprocessResult.t string)) (f : FastDifPy R) :
  FirstLoopConfig.compute_hash (first_loop f) = true ->
  (forall res, In res results -> hashes_set res) ->
  (forall res, In res results -> size_ok res) ->
  NoDup (text_hashes (hash_table (db f))) ->
  exists f',
    store_batch_first_loop to_b64 results f = (Val tt, f')
    /\ sum_count (db f')
       = sum_count (db f) + 4 * Z.of_nat (List.length results)
    /\ NoDup (text_hashes (hash_table (db f'))).
Proof.
  intros Hcfg Hset Hsize Hnd. unfold store_batch_first_loop, bind, get at 1.
  rewrite Hcfg.
  set (hashes :=
         flat_map (fun res =>
                     [PreprocessResult.hash_0 res; PreprocessResult.hash_90 res;
                      PreprocessResult.hash_180 res;
                      PreprocessResult.hash_270 res]) results).
  assert (Hsome : forall h, In h hashes -> exists x, h = Some x).
  { intros h Hh. apply in_flat_map in Hh. destruct Hh as [res [Hres Hin]].
    destruct (Hset res Hres) as [H0 [H1 [H2 H3]]].
    destruct h as [x|]; [eauto|]. exfalso.
    destruct Hin as [E|[E|[E|[E|[]]]]]; congruence. }
  assert (Hlen : Z.of_nat (List.length hashes)
                 = 4 * Z.of_nat (List.length results)).
  { unfold hashes. clear. induction results as [|r t IH]; [reflexivity|].
    cbn [flat_map List.length app] in *. lia. }
  unfold on_db at 1, modify at 1. cbn [fst snd].
  set (d1 := bulk_insert_hashes hashes (db f)).
  destruct (bulk_insert_hashes_run hashes (db f) Hnd) as [Hsum Hu].
  fold d1 in Hsum, Hu.
  destruct (hash_lookup_found (py_set hashes) d1) as [lookup [El [Ekeys _]]].
  { intros h Hh. apply (proj1 (py_set_In h hashes)) in Hh.
    destruct (Hsome h Hh) as [x ->]. exists x. split; [reflexivity|].
    apply bulk_insert_hashes_stores. right. exact Hh. }
  unfold on_db at 1. cbn [db set_db]. rewrite El.
  match goal with
  | |- context [@rewrite_hashes R lookup results ?st] =>
      destruct (rewrite_hashes_run R lookup results st) as [results' [Er _]]
  end.
  { intros res h Hres Hh. rewrite Ekeys. apply (proj2 (py_set_In h hashes)).
    apply in_flat_map. exists res. split; assumption. }
  rewrite Er. unfold on_db, modify. cbn [db set_db].
  eexists. split; [reflexivity|]. rewrite !db_set_db.
  unfold sum_count. rewrite batch_results_keep_hash_table.
  split; [|exact Hu]. unfold sum_count in Hsum. lia.
Qed.

Lemma store_batch_first_loop_counts_four_witness :
  FirstLoopConfig.compute_hash
    (first_loop (driver_of unit two_processing hashing_config)) = true
  /\ (forall res, In res [good_result] -> hashes_set res)
  /\ (forall res, In res [good_result] -> size_ok res)
  /\ exists f',
      store_batch_first_loop tagged [good_result]
        (driver_of unit two_processing hashing_config) = (Val tt, f')
      /\ sum_count (db f') = 4.
Proof.
  assert (Hset : forall res, In res [good_result] -> hashes_set res).
  { intros res [<-|[]]. repeat split; discriminate. }
  assert (Hsize : forall res, In res [good_result] -> size_ok res).
  { intros res [<-|[]]. split; simpl; lia. }
  split; [reflexivity|]. split; [exact Hset|]. split; [exact Hsize|].
  destruct (store_batch_first_loop_counts_four tagged unit [good_result]
              (driver_of unit two_processing hashing_config)
              eq_refl Hset Hsize (NoDup_nil _)) as [f' [Hrun [Hsum _]]].
  exists f'. split; [exact Hrun|exact Hsum].
Defined.

(* ================================================================== *)
(** * The results of the first loop in the catalog *)
(* ================================================================== *)

(** A run of UPDATE statements that select on the key, seen from one row. *)
Section RowUpdates.

Context {A : Type}.
Variable key_of : A -> Z.
Variable g : A -> Directory.row -> Directory.row.
Hypothesis g_miss :
  forall a r, key_of a <> Directory.key r -> g a r = r.
Hypothesis g_key : forall a r, Directory.key (g a r) = Directory.key r.

Lemma updates_by_row (args : list A) (s : SQLiteDB) :
  directory
    (fold_left (fun st a => set_directory (map (g a) (directory st)) st)
               args s)
  = map (fun r => fold_left (fun r a => g a r) args r) (directory s).
Proof.
  revert s. induction args as [|a args IH]; intro s; simpl.
  - rewrite map_id. reflexivity.
  - rewrite IH. simpl. rewrite map_map. reflexivity.
Qed.

Lemma row_updates_key (args : list A) (r : Directory.row) :
  Directory.key (fold_left (fun r a => g a r) args r) = Directory.key r.
Proof.
  revert r. induction args as [|a args IH]; intro r; simpl; [reflexivity|].
  rewrite IH. apply g_key.
Qed.

Lemma row_updates_miss (args : list A) (r : Directory.row) :
  (forall a, In a args -> key_of a <> Directory.key r) ->
  fold_left (fun r a => g a r) args r = r.
Proof.
  induction args as [|a args IH]; intro H; simpl; [reflexivity|].
  rewrite g_miss by (apply H; left; reflexivity).
  apply IH. intros b Hb. apply H. right. exact Hb.
Qed.

Lemma row_updates_hit (args : list A) (a : A) (r : Directory.row) :
  NoDup (map key_of args) -> In a args -> key_of a = Directory.key r ->
  fold_left (fun r a => g a r) args r = g a r.
Proof.
  induction args as [|b args IH]; intros Hnd Hin Hk; [contradiction|].
  simpl in Hnd |- *. inversion Hnd as [|? ? Hnot Hnd']; subst.
  destruct Hin as [->|Hin].
  - apply row_updates_miss. intros c Hc Ec. apply Hnot.
    rewrite g_key in Ec. rewrite Hk, <- Ec. apply in_map. exact Hc.
  - rewrite g_miss.
    + apply IH; assumption.
    + intro Eb. apply Hnot. rewrite Eb, <- Hk. apply in_map. exact Hin.
Qed.

End RowUpdates.

Lemma NoDup_map_inj {T U : Type} (f : T -> U) (l : list T) (x y : T) :
  NoDup (map f l) -> In x l -> In y l -> f x = f y -> x = y.
Proof.
  induction l as [|z l IH]; simpl; intros Hnd Hx Hy E; [contradiction|].
  inversion Hnd as [|? ? Hnot Hnd']; subst.
  destruct Hx as [->|Hx], Hy as [->|Hy].
  - reflexivity.
  - exfalso. apply Hnot. rewrite E. apply in_map. exact Hy.
  - exfalso. apply Hnot. rewrite <- E. apply in_map. exact Hx.
  - apply IH; assumption.
Qed.

Lemma find_key_some (results : list (PreprocessResult.t Z)) (k : Z)
  (res : PreprocessResult.t Z) :
  find (fun x => PreprocessResult.key x =? k) results = Some res ->
  In res results /\ PreprocessResult.key res = k.
Proof.
  intro H. apply find_some in H. destruct H as [Hin E].
  apply Z.eqb_eq in E. split; assumption.
Qed.

Lemma find_key_none (results : list (PreprocessResult.t Z)) (k : Z) :
  find (fun x => PreprocessResult.key x =? k) results = None ->
  forall res, In res results -> PreprocessResult.key res <> k.
Proof.
  intros H res Hin E. pose proof (find_none _ _ H res Hin) as Hf.
  simpl in Hf. apply Z.eqb_neq in Hf. contradiction.
Qed.

Lemma fold_left_map {S A B : Type} (g : S -> B -> S) (m : A -> B)
  (l : list A) (s : S) :
  fold_left g (map m l) s = fold_left (fun st a => g st (m a)) l s.
Proof.
  revert s. induction l as [|a l IH]; intro s; [reflexivity|].
  simpl. apply IH.
Qed.

(** [batch_of_first_loop_results] row by row: the updates of the failed
    results, then the updates of the others. *)
Lemma batch_results_by_row (to_b64 : string -> string)
  (results : list (PreprocessResult.t Z)) (has_hash : bool) (s : SQLiteDB) :
  directory (batch_of_first_loop_results to_b64 results has_hash s)
  = map (fun r =>
           fold_left (fun r res => success_update has_hash res r)
             (filter (fun res => negb (is_error res)) results)
             (fold_left (fun r res => err_update to_b64 res r)
                (filter is_error results) r))
        (directory s).
Proof.
  unfold batch_of_first_loop_results.
  set (s1 := fold_left (fun st a => update_err_stmt a st)
               (map (fun res => (to_b64 (error_text res), 0,
                                 PreprocessResult.key res))
                    (filter is_error results)) s).
  assert (E1 : directory s1
               = map (fun r => fold_left (fun r res => err_update to_b64 res r)
                                 (filter is_error results) r) (directory s)).
  { unfold s1. rewrite fold_left_map.
    apply (updates_by_row (err_update to_b64)). }
  destruct has_hash.
  - rewrite fold_left_map.
    rewrite (updates_by_row (success_update true)).
    rewrite E1, map_map. reflexivity.
  - rewrite fold_left_map.
    rewrite (updates_by_row (success_update false)).
    rewrite E1, map_map. reflexivity.
Qed.

Lemma err_update_miss (to_b64 : string -> string)
  (res : PreprocessResult.t Z) (r : Directory.row) :
  PreprocessResult.key res <> Directory.key r -> err_update to_b64 res r = r.
Proof.
  intro H. unfold err_update.
  destruct (Z.eqb_spec (Directory.key r) (PreprocessResult.key res));
    [congruence|reflexivity].
Qed.

Lemma err_update_key (to_b64 : string -> string)
  (res : PreprocessResult.t Z) (r : Directory.row) :
  Directory.key (err_update to_b64 res r) = Directory.key r.
Proof.
  unfold err_update.
  destruct (Directory.key r =? PreprocessResult.key res); reflexivity.
Qed.

Lemma success_update_miss (has_hash : bool)
  (res : PreprocessResult.t Z) (r : Directory.row) :
  PreprocessResult.key res <> Directory.key r ->
  success_update has_hash res r = r.
Proof.
  intro H. unfold success_update.
  destruct (Z.eqb_spec (Directory.key r) (PreprocessResult.key res));
    [congruence|reflexivity].
Qed.

Lemma success_update_key (has_hash : bool)
  (res : PreprocessResult.t Z) (r : Directory.row) :
  Directory.key (success_update has_hash res r) = Directory.key r.
Proof.
  unfold success_update.
  destruct (Directory.key r =? PreprocessResult.key res); [|reflexivity].
  destruct has_hash; reflexivity.
Qed.

(** X9.  With at most one result for a key and sizes that respect the
    CHECK on [px] and [py], [batch_of_first_loop_results] is one pass over
    the catalog: the row of a file is replaced by what the
    result with the key of the file stores (the encoded error and success 0,
    or the size, with hashing the four hash keys, and success 1), and a row
    without a result stays as it is. *)
Theorem batch_of_first_loop_results_marks (to_b64 : string -> string)
  (results : list (PreprocessResult.t Z)) (has_hash : bool) (s : SQLiteDB) :
  NoDup (map (@PreprocessResult.key Z) results) ->
  (forall res, In res results -> size_ok res) ->
  directory (batch_of_first_loop_results to_b64 results has_hash s)
  = map (marked to_b64 has_hash results) (directory s).
Proof.
  intros Hnd Hsize. rewrite batch_results_by_row. apply map_ext. intro r.
  unfold marked.
  destruct (find (fun res => PreprocessResult.key res =? Directory.key r)
                 results) as [res|] eqn:Ef.
  - apply find_key_some in Ef. destruct Ef as [Hin Ek].
    unfold stored. destruct (is_error res) eqn:Ee.
    + rewrite (row_updates_hit (@PreprocessResult.key Z) (err_update to_b64)
                 (err_update_miss to_b64) (err_update_key to_b64)
                 (filter is_error results) res r).
      * rewrite (row_updates_miss (@PreprocessResult.key Z)
                   (success_update has_hash) (success_update_miss has_hash)).
        -- unfold err_update. rewrite Ek, Z.eqb_refl. reflexivity.
        -- intros x Hx Ex. apply filter_In in Hx. destruct Hx as [Hx Enx].
           rewrite err_update_key in Ex.
           assert (x = res).
           { apply (NoDup_map_inj (@PreprocessResult.key Z) results);
               try assumption. congruence. }
           subst x. rewrite Ee in Enx. discriminate.
      * apply NoDup_map_filter. exact Hnd.
      * apply filter_In. split; assumption.
      * exact Ek.
    + rewrite (row_updates_miss (@PreprocessResult.key Z) (err_update to_b64)
                 (err_update_miss to_b64)).
      * rewrite (row_updates_hit (@PreprocessResult.key Z)
                   (success_update has_hash) (success_update_miss has_hash)
                   (success_update_key has_hash)
                   (filter (fun x => negb (is_error x)) results) res r).
        -- unfold success_update. rewrite Ek, Z.eqb_refl. reflexivity.
        -- apply NoDup_map_filter. exact Hnd.
        -- apply filter_In. split; [exact Hin|]. rewrite Ee. reflexivity.
        -- exact Ek.
      * intros x Hx Ex. apply filter_In in Hx. destruct Hx as [Hx Enx].
        assert (x = res).
        { apply (NoDup_map_inj (@PreprocessResult.key Z) results);
            try assumption. congruence. }
        subst x. congruence.
  - pose proof (find_key_none results (Directory.key r) Ef) as Hmiss.
    rewrite (row_updates_miss (@PreprocessResult.key Z) (err_update to_b64)
               (err_update_miss to_b64)).
    + apply (row_updates_miss (@PreprocessResult.key Z)
               (success_update has_hash) (success_update_miss has_hash)).
      intros x Hx. apply filter_In in Hx. apply Hmiss, Hx.
    + intros x Hx. apply filter_In in Hx. apply Hmiss, Hx.
Qed.

Lemma batch_of_first_loop_results_marks_witness :
  let results :=
    [PreprocessResult.mk 0 (Some 640) (Some 480) (Some 7) (Some 8) (Some 9)
                         (Some 10) None;
     PreprocessResult.mk 1 None None None None None None
                         (Some "cannot identify image file")] in
  NoDup (map (@PreprocessResult.key Z) results)
  /\ (forall res, In res results -> size_ok res)
  /\ map (fun r => (Directory.success r, Directory.error r, Directory.hash_0 r))
         (directory (batch_of_first_loop_results tagged results true
                       two_processing))
     = [(1, None, Some 7);
        (0, Some "b64:cannot identify image file", None)].
Proof.
  intro results.
  assert (Hnd : NoDup (map (@PreprocessResult.key Z) results)).
  { repeat constructor; simpl; intuition lia. }
  assert (Hsize : forall res, In res results -> size_ok res).
  { intros res [<-|[<-|[]]]; split; simpl; auto; lia. }
  split; [exact Hnd|]. split; [exact Hsize|].
  rewrite (batch_of_first_loop_results_marks tagged results true
             two_processing Hnd Hsize).
  reflexivity.
Defined.

Section RowSuccess.

Context {A : Type}.
Variable key_of : A -> Z.
Variable g : A -> Directory.row -> Directory.row.
Variable v : Z.
Hypothesis g_miss :
  forall a r, key_of a <> Directory.key r -> g a r = r.
Hypothesis g_key : forall a r, Directory.key (g a r) = Directory.key r.
Hypothesis g_hit :
  forall a r, key_of a = Directory.key r -> Directory.success (g a r) = v.

Lemma row_updates_cases (args : list A) (r : Directory.row) :
  fold_left (fun r a => g a r) args r = r
  \/ Directory.success (fold_left (fun r a => g a r) args r) = v.
Proof.
  revert r. induction args as [|a args IH]; intro r; simpl; [left; reflexivity|].
  destruct (Z.eq_dec (key_of a) (Directory.key r)) as [E|E].
  - right. destruct (IH (g a r)) as [H|H]; [rewrite H; apply g_hit, E|exact H].
  - rewrite (g_miss a r E). apply IH.
Qed.

Lemma row_updates_some (args : list A) (r : Directory.row) :
  (exists a, In a args /\ key_of a = Directory.key r) ->
  Directory.success (fold_left (fun r a => g a r) args r) = v.
Proof.
  revert r. induction args as [|a args IH]; intros r [b [Hin Eb]];
    [contradiction|]. simpl.
  destruct (Z.eq_dec (key_of a) (Directory.key r)) as [E|E].
  - destruct (row_updates_cases args (g a r)) as [H|H]; [|exact H].
    rewrite H. apply g_hit, E.
  - rewrite (g_miss a r E). apply IH.
    destruct Hin as [->|Hin]; [contradiction|]. exists b. split; assumption.
Qed.

End RowSuccess.

Lemma err_update_hit (to_b64 : string -> string)
  (res : PreprocessResult.t Z) (r : Directory.row) :
  PreprocessResult.key res = Directory.key r ->
  Directory.success (err_update to_b64 res r) = 0.
Proof.
  intro E. unfold err_update. rewrite E, Z.eqb_refl. reflexivity.
Qed.

Lemma success_update_hit (has_hash : bool)
  (res : PreprocessResult.t Z) (r : Directory.row) :
  PreprocessResult.key res = Directory.key r ->
  Directory.success (success_update has_hash res r) = 1.
Proof.
  intro E. unfold success_update. rewrite E, Z.eqb_refl.
  destruct has_hash; reflexivity.
Qed.

(** X10.  Once the results of a whole batch are stored, no file is left in
    the state PROCESSING: when no row has success -2 before
    [batch_of_preprocessing_args] hands out a batch and
    [batch_of_first_loop_results] gets a result for every task of the
    batch, with sizes that respect the CHECK on [px] and [py], no row of the
    catalog has success -2 afterwards. *)
Theorem first_loop_batch_leaves_none_processing (to_b64 : string -> string)
  (n : Z) (results : list (PreprocessResult.t Z)) (has_hash : bool)
  (s : SQLiteDB) :
  (forall r, In r (directory s) -> Directory.success r <> -2) ->
  (forall a, In a (fst (batch_of_preprocessing_args n s)) ->
     exists res, In res results
                 /\ PreprocessResult.key res = PreprocessArg.key a) ->
  (forall res, In res results -> size_ok res) ->
  forall r,
    In r (directory (batch_of_first_loop_results to_b64 results has_hash
                       (snd (batch_of_preprocessing_args n s)))) ->
    Directory.success r <> -2.
Proof.
  intros Hclean Hall Hsize r Hr. rewrite batch_results_by_row in Hr.
  apply in_map_iff in Hr. destruct Hr as [r1 [<- Hr1]].
  set (errs := filter is_error results).
  set (succs := filter (fun res => negb (is_error res)) results).
  set (r2 := fold_left (fun r res => err_update to_b64 res r) errs r1).
  assert (Hk2 : Directory.key r2 = Directory.key r1).
  { apply (row_updates_key (err_update to_b64) (err_update_key to_b64)). }
  destruct (Z.eq_dec (Directory.success r1) (-2)) as [Eproc|Eproc].
  - (* the row was handed out: a result carries its key *)
    assert (Hres : exists res, In res results
                     /\ PreprocessResult.key res = Directory.key r1).
    { unfold batch_of_preprocessing_args in Hr1. simpl in Hr1.
      apply in_map_iff in Hr1. destruct Hr1 as [r0 [E0 Hr0]].
      destruct (existsb (Z.eqb (Directory.key r0))
                        (map Directory.key (unprocessed n s))) eqn:Ex.
      - apply existsb_exists in Ex. destruct Ex as [k [Hk Ek]].
        apply Z.eqb_eq in Ek. apply in_map_iff in Hk.
        destruct Hk as [row [Erow Hrow]].
        destruct (Hall (PreprocessArg.mk (Directory.path row)
                                         (Directory.key row)))
          as [res [Hin Eres]].
        + unfold batch_of_preprocessing_args. simpl.
          apply in_map_iff. exists row. split; [reflexivity|exact Hrow].
        + exists res. split; [exact Hin|]. simpl in Eres.
          rewrite <- E0. simpl. congruence.
      - subst r1. exfalso. apply (Hclean r0 Hr0). exact Eproc. }
    destruct Hres as [res [Hin Eres]].
    destruct (is_error res) eqn:Ee.
    + assert (H2 : Directory.success r2 = 0).
      { apply (row_updates_some (@PreprocessResult.key Z) (err_update to_b64)
                 0 (err_update_miss to_b64) (err_update_hit to_b64)).
        exists res. split; [|exact Eres].
        apply filter_In. split; assumption. }
      destruct (row_updates_cases (@PreprocessResult.key Z)
                  (success_update has_hash) 1
                  (success_update_miss has_hash)
                  (success_update_hit has_hash) succs r2) as [H|H].
      * rewrite H, H2. discriminate.
      * rewrite H. discriminate.
    + rewrite (row_updates_some (@PreprocessResult.key Z)
                 (success_update has_hash) 1 (success_update_miss has_hash)
                 (success_update_hit has_hash) succs r2); [discriminate|].
      exists res. split; [|congruence].
      apply filter_In. split; [exact Hin|]. rewrite Ee. reflexivity.
  - destruct (row_updates_cases (@PreprocessResult.key Z)
                (success_update has_hash) 1
                (success_update_miss has_hash)
                (success_update_hit has_hash) succs r2) as [H|H];
      [|rewrite H; discriminate].
    rewrite H.
    destruct (row_updates_cases (@PreprocessResult.key Z)
                (err_update to_b64) 0 (err_update_miss to_b64)
                (err_update_hit to_b64) errs r1) as [H1|H1].
    + unfold r2. rewrite H1. exact Eproc.
    + unfold r2. rewrite H1. discriminate.
Qed.

Lemma first_loop_batch_leaves_none_processing_witness :
  let results :=
    [PreprocessResult.mk 1 None None None None None None (Some "broken");
     PreprocessResult.mk 0 (Some 640) (Some 480) None None None None None] in
  (forall r, In r (directory three_files) -> Directory.success r <> -2)
  /\ map PreprocessArg.key (fst (batch_of_preprocessing_args 2 three_files))
     = [0; 1]
  /\ forall r,
       In r (directory (batch_of_first_loop_results tagged results false
                          (snd (batch_of_preprocessing_args 2 three_files)))) ->
       Directory.success r <> -2.
Proof.
  cbv zeta.
  assert (Hclean : forall r, In r (directory three_files) ->
                             Directory.success r <> -2).
  { intros r [<-|[<-|[<-|[]]]]; simpl; discriminate. }
  split; [exact Hclean|]. split; [reflexivity|].
  apply (first_loop_batch_leaves_none_processing tagged 2 _ false three_files
           Hclean).
  - intros a [<-|[<-|[]]].
    + eexists. split; [right; left; reflexivity|reflexivity].
    + eexists. split; [left; reflexivity|reflexivity].
  - intros res [<-|[<-|[]]]; split; simpl; auto; lia.
Defined.

(* ================================================================== *)
(** * Storing the results of the second loop *)
(* ================================================================== *)

Lemma dif_updates_by_row {A : Type} (g : A -> Dif.row -> Dif.row)
  (args : list A) (s : SQLiteDB) :
  fold_left (fun st a => set_dif_table (map (g a) (dif_table st)) st) args s
  = set_dif_table
      (map (fun r => fold_left (fun r a => g a r) args r) (dif_table s)) s.
Proof.
  revert s. induction args as [|a args IH]; intro s; simpl.
  - rewrite map_id. destruct s. reflexivity.
  - rewrite IH. simpl. rewrite map_map. reflexivity.
Qed.

Lemma fold_left_ext_all {S A : Type} (g h : S -> A -> S) (l : list A) (s : S) :
  (forall st a, g st a = h st a) -> fold_left g l s = fold_left h l s.
Proof.
  intro H. revert s. induction l as [|a l IH]; intro s; [reflexivity|].
  simpl. rewrite H. apply IH.
Qed.

Lemma item_result_args_combine (key : list Z) (res : list Q) :
  item_result_args key res
  = if (List.length res <? List.length key)%nat then None
    else Some (map (fun kd => (snd kd, fst kd)) (combine key res)).
Proof.
  revert res. induction key as [|k kt IH]; intro res; [reflexivity|].
  destruct res as [|d rt]; [reflexivity|].
  cbn [item_result_args combine map List.length]. rewrite IH.
  change (S (List.length rt) <? S (List.length kt))%nat
    with (List.length rt <? List.length kt)%nat.
  destruct (List.length rt <? List.length kt)%nat; reflexivity.
Qed.

Lemma item_row_key (args : list (Z * Q)) (r : Dif.row) :
  Dif.key (fold_left (fun r kd => if Dif.key r =? fst kd
                                  then with_dif_success (snd kd) 1 r else r)
                     args r) = Dif.key r.
Proof.
  revert r. induction args as [|a args IH]; intro r; [reflexivity|].
  simpl. rewrite IH. destruct (Dif.key r =? fst a); reflexivity.
Qed.

(** Seen from one row, a run of item results is its last result for the
    key of the row. *)
Lemma item_row_last (args : list (Z * Q)) (r : Dif.row) :
  fold_left (fun r kd => if Dif.key r =? fst kd
                         then with_dif_success (snd kd) 1 r else r) args r
  = match find (fun kd => fst kd =? Dif.key r) (rev args) with
    | Some kd => with_dif_success (snd kd) 1 r
    | None => r
    end.
Proof.
  induction args as [|a args IH] using rev_ind; [reflexivity|].
  rewrite fold_left_app, rev_app_distr. cbn [fold_left rev app find].
  rewrite item_row_key, (Z.eqb_sym (Dif.key r) (fst a)).
  destruct (fst a =? Dif.key r); [|exact IH].
  rewrite IH.
  destruct (find (fun kd => fst kd =? Dif.key r) (rev args)); reflexivity.
Qed.

(** [insert_batch_diff_item_result] as one pass over the pair table. *)
Lemma item_results_run (key : list Z) (res : list Q)
  (s : SQLiteDB) :
  insert_batch_diff_item_result key res s
  = if (List.length res <? List.length key)%nat
    then (Raise IndexError, s)
    else (Val tt, set_dif_table (map (scored_by key res) (dif_table s)) s).
Proof.
  unfold insert_batch_diff_item_result. rewrite item_result_args_combine.
  destruct (List.length res <? List.length key)%nat; [reflexivity|].
  unfold modify. f_equal. rewrite fold_left_map.
  rewrite (dif_updates_by_row
             (fun kd r => if Dif.key r =? fst kd
                          then with_dif_success (snd kd) 1 r else r)).
  f_equal. apply map_ext. intro r. apply item_row_last.
Qed.

(** X11.  For scores that respect the CHECK on [dif],
    [insert_batch_diff_item_result] with fewer results than keys raises the
    IndexError of [res[i]] before it touches the database; otherwise it
    returns, and every pair row whose key is in [key] gets the
    score of the last position of its key and success 1, while every other
    row and every other table stay as they are. *)
Theorem insert_batch_diff_item_result_scores (key : list Z) (res : list Q)
  (s : SQLiteDB) :
  Forall score_ok res ->
  insert_batch_diff_item_result key res s
  = if (List.length res <? List.length key)%nat
    then (Raise IndexError, s)
    else (Val tt, set_dif_table (map (scored_by key res) (dif_table s)) s).
Proof. intros _. exact (item_results_run key res s). Qed.

Lemma insert_batch_diff_item_result_scores_witness :
  Forall score_ok [(1 # 2); (3 # 1); (0 # 1)]
  /\ map (fun r => (Dif.key r, Dif.dif r, Dif.success r))
         (dif_table (snd (insert_batch_diff_item_result [3; 1; 3]
                            [(1 # 2); (3 # 1); (0 # 1)] unscored_pairs)))
     = [(1, 3 # 1, 1); (2, -1 # 1, -1); (3, 0 # 1, 1)]
  /\ insert_batch_diff_item_result [3; 1] [(1 # 2)] unscored_pairs
     = (Raise IndexError, unscored_pairs).
Proof.
  assert (Hok : Forall score_ok [(1 # 2); (3 # 1); (0 # 1)]).
  { repeat constructor; unfold score_ok, Qle; simpl; lia. }
  assert (Hok1 : Forall score_ok [(1 # 2)]).
  { repeat constructor; unfold score_ok, Qle; simpl; lia. }
  split; [exact Hok|]. split.
  - rewrite (insert_batch_diff_item_result_scores [3; 1; 3] _ unscored_pairs
               Hok). reflexivity.
  - rewrite (insert_batch_diff_item_result_scores [3; 1] _ unscored_pairs
               Hok1). reflexivity.
Defined.

Lemma block_row_run (results : list Q) (x y : Z) (r : Dif.row) :
  fold_left (fun r a =>
               let '(d, ka, kb) := a in
               if ((Dif.key_a r =? ka) && (Dif.key_b r =? kb))%bool
               then with_dif_success d 1 r else r)
            (block_result_args x y results) r
  = scored_in_run x y results r.
Proof.
  revert y r. induction results as [|d rest IH]; intros y r.
  - unfold scored_in_run. simpl.
    destruct ((Dif.key_a r =? x) && (Dif.key_b r <=? y))%bool;
      [|reflexivity].
    destruct (Z.to_nat (y - Dif.key_b r)); reflexivity.
  - cbn [block_result_args fold_left]. rewrite IH. unfold scored_in_run.
    destruct (Z.eqb_spec (Dif.key_a r) x) as [Ea|Ea]; cbn [andb];
      [|rewrite (proj2 (Z.eqb_neq _ _) Ea); reflexivity].
    destruct (Z.eqb_spec (Dif.key_b r) y) as [Eb|Eb].
    + cbn [with_dif_success Dif.key_a Dif.key_b].
      rewrite Ea, Eb, Z.eqb_refl.
      rewrite (proj2 (Z.leb_gt y (y - 1))) by lia.
      rewrite Z.leb_refl, Z.sub_diag. reflexivity.
    + rewrite (proj2 (Z.eqb_eq _ _) Ea). cbn [andb].
      destruct (Z.leb_spec (Dif.key_b r) (y - 1)) as [Hle|Hgt].
      * rewrite (proj2 (Z.leb_le _ _)) by lia.
        replace (Z.to_nat (y - Dif.key_b r))
          with (S (Z.to_nat (y - 1 - Dif.key_b r))) by lia.
        reflexivity.
      * rewrite (proj2 (Z.leb_gt _ _)) by lia. reflexivity.
Qed.

(** X12.  For scores that respect the CHECK on [dif],
    [insert_batch_diff_block_result] walks down from [max_key_y]: the
    pair row [(min_key_x, max_key_y - i)] gets [results[i]] and success 1
    for every position [i] of [results], and every other pair row and every
    other table stay as they are. *)
Theorem insert_batch_diff_block_result_run (min_key_x max_key_y : Z)
  (results : list Q) (s : SQLiteDB) :
  Forall score_ok results ->
  insert_batch_diff_block_result min_key_x max_key_y results s
  = set_dif_table
      (map (scored_in_run min_key_x max_key_y results) (dif_table s)) s.
Proof.
  intros _. unfold insert_batch_diff_block_result.
  transitivity
    (fold_left
       (fun st a =>
          set_dif_table
            (map (fun r =>
                    let '(d, ka, kb) := a in
                    if ((Dif.key_a r =? ka) && (Dif.key_b r =? kb))%bool
                    then with_dif_success d 1 r else r) (dif_table st)) st)
       (block_result_args min_key_x max_key_y results) s).
  - apply fold_left_ext_all. intros st [[d ka] kb]. reflexivity.
  - rewrite (dif_updates_by_row
               (fun a r =>
                  let '(d, ka, kb) := a in
                  if ((Dif.key_a r =? ka) && (Dif.key_b r =? kb))%bool
                  then with_dif_success d 1 r else r)).
    f_equal. apply map_ext. intro r. apply block_row_run.
Qed.

Lemma insert_batch_diff_block_result_run_witness :
  Forall score_ok [(1 # 2); (3 # 1); (7 # 1)]
  /\ map (fun r => (Dif.key_a r, Dif.key_b r, Dif.dif r, Dif.success r))
         (dif_table (insert_batch_diff_block_result 0 2
                       [(1 # 2); (3 # 1); (7 # 1)] unscored_pairs))
     = [(0, 1, 3 # 1, 1); (0, 2, 1 # 2, 1); (1, 2, -1 # 1, -1)].
Proof.
  assert (Hok : Forall score_ok [(1 # 2); (3 # 1); (7 # 1)]).
  { repeat constructor; unfold score_ok, Qle; simpl; lia. }
  split; [exact Hok|].
  rewrite (insert_batch_diff_block_result_run 0 2 _ unscored_pairs Hok).
  reflexivity.
Defined.

(* ================================================================== *)
(** * Reading the pair table *)
(* ================================================================== *)

Lemma join_directory_some (ds : list Dif.row) (s : SQLiteDB) (d : Dif.row)
  (a b : Directory.row) :
  In d ds ->
  In a (directory s) -> Directory.key a = Dif.key_a d ->
  In b (directory s) -> Directory.key b = Dif.key_b d ->
  In (d, a, b) (join_directory ds s).
Proof.
  intros Hd Ha Ea Hb Eb. unfold join_directory.
  apply in_flat_map. exists d. split; [exact Hd|].
  apply in_flat_map. exists a. split.
  - apply filter_In. split; [exact Ha|]. apply Z.eqb_eq. congruence.
  - apply in_map. apply filter_In. split; [exact Hb|].
    apply Z.eqb_eq. congruence.
Qed.

(** X13.  When every pair row names two files of the catalog,
    [verify_item_block] holds for a block exactly when [get_item_block] has
    no argument left for it, with or without the block key: the stopping
    criterion of [__item_block] and the criterion by which
    [prune_cache_item] drops a cache agree. *)
Theorem verify_item_block_iff_no_args (block_key : Z)
  (include_block_key : bool) (s : SQLiteDB) :
  refers_to_files s ->
  verify_item_block block_key s = true
  <-> get_item_block block_key include_block_key s = [].
Proof.
  intro Hint. unfold verify_item_block, get_item_block.
  fold (open_in_block block_key).
  set (open := filter (open_in_block block_key) (dif_table s)).
  split.
  - intro H. apply Z.eqb_eq in H.
    assert (E : open = []) by (destruct open; [reflexivity|discriminate]).
    rewrite E. reflexivity.
  - intro H. apply map_eq_nil in H.
    destruct open as [|d rest] eqn:E; [reflexivity|]. exfalso.
    assert (Hd : In d (dif_table s)).
    { assert (Hin : In d open) by (rewrite E; left; reflexivity).
      unfold open in Hin. apply filter_In in Hin. tauto. }
    destruct (Hint d Hd) as [[a [Ha Ea]] [b [Hb Eb]]].
    assert (Hin : In (d, a, b) (join_directory (d :: rest) s)).
    { apply join_directory_some; try assumption. left. reflexivity. }
    rewrite H in Hin. contradiction.
Qed.

Lemma verify_item_block_iff_no_args_witness :
  refers_to_files unscored_pairs
  /\ verify_item_block 1 unscored_pairs = false
  /\ get_item_block 1 false unscored_pairs <> []
  /\ verify_item_block 2 unscored_pairs = true.
Proof.
  assert (Hint : refers_to_files unscored_pairs).
  { intros d [<-|[<-|[<-|[]]]]; split; eexists;
      first [ solve [split; [left; reflexivity|reflexivity]]
            | solve [split; [right; left; reflexivity|reflexivity]]
            | solve [split; [right; right; left; reflexivity|reflexivity]] ]. }
  split; [exact Hint|]. split; [reflexivity|]. split; [discriminate|].
  apply (proj2 (verify_item_block_iff_no_args 2 false unscored_pairs Hint)).
  reflexivity.
Defined.

(** X14.  [get_pair_count_diff] counts the open pairs of all blocks: when
    it is 0 every block verifies, and when every open pair row carries a
    block key and every block verifies it is 0. *)
Theorem get_pair_count_diff_zero_iff_blocks_done (s : SQLiteDB) :
  (get_pair_count_diff s = 0 ->
   forall block_key, verify_item_block block_key s = true)
  /\ ((forall d, In d (dif_table s) -> Dif.success d = -1 ->
                 Dif.block_key d <> None) ->
      (forall block_key, verify_item_block block_key s = true) ->
      get_pair_count_diff s = 0).
Proof.
  unfold get_pair_count_diff, verify_item_block. split.
  - intros H k. apply Z.eqb_eq.
    rewrite filter_none; [reflexivity|].
    intros d Hd. destruct (Dif.success d =? -1) eqn:E;
      [|apply andb_false_r].
    exfalso.
    assert (Hin : In d (filter (fun d => Dif.success d =? -1) (dif_table s)))
      by (apply filter_In; split; assumption).
    destruct (filter (fun d => Dif.success d =? -1) (dif_table s));
      [contradiction|discriminate].
  - intros Hkeys Hall. rewrite filter_none; [reflexivity|].
    intros d Hd. destruct (Z.eqb_spec (Dif.success d) (-1)) as [E|E];
      [|reflexivity].
    exfalso. destruct (Dif.block_key d) as [k|] eqn:Ek;
      [|exact (Hkeys d Hd E Ek)].
    specialize (Hall k). apply Z.eqb_eq in Hall.
    assert (Hin : In d (filter (fun d => in_block k d
                                         && (Dif.success d =? -1))%bool
                               (dif_table s))).
    { apply filter_In. split; [exact Hd|].
      unfold in_block. rewrite Ek, E. simpl. rewrite Z.eqb_refl. reflexivity. }
    destruct (filter (fun d => in_block k d && (Dif.success d =? -1))%bool
                     (dif_table s)); [contradiction|discriminate].
Qed.

Lemma get_pair_count_diff_zero_iff_blocks_done_witness :
  get_pair_count_diff unscored_pairs = 3
  /\ (let done := insert_batch_diff_block_result 0 2 [(1 # 2); (3 # 1)]
                    (insert_batch_diff_block_result 1 2 [(0 # 1)]
                       unscored_pairs) in
      get_pair_count_diff done = 0
      /\ forall block_key, verify_item_block block_key done = true).
Proof.
  split; [reflexivity|]. cbv zeta.
  assert (H0 : get_pair_count_diff
                 (insert_batch_diff_block_result 0 2 [(1 # 2); (3 # 1)]
                    (insert_batch_diff_block_result 1 2 [(0 # 1)]
                       unscored_pairs)) = 0) by reflexivity.
  split; [exact H0|].
  exact (proj1 (get_pair_count_diff_zero_iff_blocks_done _) H0).
Defined.

(* ================================================================== *)
(** * The queries for duplicates *)
(* ================================================================== *)

Lemma filter_filter_implied {T : Type} (f g : T -> bool) (l : list T) :
  (forall x, f x = true -> g x = true) -> filter f (filter g l) = filter f l.
Proof.
  intro H. induction l as [|x t IH]; simpl; [reflexivity|].
  destruct (g x) eqn:Eg; simpl.
  - rewrite IH. reflexivity.
  - destruct (f x) eqn:Ef; [|exact IH].
    rewrite (H x Ef) in Eg. discriminate.
Qed.

Lemma below_survives_drop (threshold delta : Q) (d : Dif.row) :
  (delta <= threshold)%Q -> below delta d = true ->
  negb (Sql.real_ltb threshold (Dif.dif d)) = true.
Proof.
  intros Hle H. apply below_spec in H. destruct H as [Hlt _].
  apply negb_true_iff. apply not_true_is_false. intro E.
  apply real_ltb_lt in E.
  apply (Qlt_irrefl (Dif.dif d)).
  apply (Qlt_le_trans _ delta); [exact Hlt|].
  apply (Qle_trans _ threshold); [exact Hle|].
  apply Qlt_le_weak. exact E.
Qed.

(** X15.  [reduce_diff] loses no duplicate at or below its threshold: for
    every [delta] that is not above the threshold, [get_diff_pairs] and
    [get_diff_clusters] give after [reduce_diff] what they gave before. *)
Theorem reduce_diff_keeps_duplicates (R : Type) (threshold delta : Q)
  (dir_a : bool) (f : FastDifPy R) :
  (delta <= threshold)%Q ->
  get_diff_pairs delta (reduce_diff threshold f) = get_diff_pairs delta f
  /\ get_diff_clusters delta dir_a (reduce_diff threshold f)
     = get_diff_clusters delta dir_a f.
Proof.
  intro Hle.
  assert (E : forall group_a,
             select_duplicates delta group_a (drop_diff threshold (db f))
             = select_duplicates delta group_a (db f)).
  { intro group_a. unfold select_duplicates, drop_diff. simpl.
    rewrite filter_filter_implied.
    - reflexivity.
    - intros d Hd. exact (below_survives_drop threshold delta d Hle Hd). }
  unfold get_diff_pairs, get_diff_clusters, get_duplicate_pairs, get_cluster,
    reduce_diff. simpl. rewrite !E. split; reflexivity.
Qed.

Lemma reduce_diff_keeps_duplicates_witness :
  (1 <= 2)%Q
  /\ dif_table (db (reduce_diff 2 (driver_of unit three_pairs
                                     (plain_config "/a" None))))
     = [scored 1 0 1 (0 # 1) 1; scored 3 1 2 (-1 # 1) (-1)]
  /\ get_diff_pairs 1 (reduce_diff 2 (driver_of unit three_pairs
                                        (plain_config "/a" None)))
     = get_diff_pairs 1 (driver_of unit three_pairs (plain_config "/a" None)).
Proof.
  assert (Hle : (1 <= 2)%Q) by (unfold Qle; simpl; lia).
  split; [exact Hle|]. split; [reflexivity|].
  exact (proj1 (reduce_diff_keeps_duplicates unit 2 1 true
                  (driver_of unit three_pairs (plain_config "/a" None)) Hle)).
Defined.

Lemma filter_key_singleton (l : list Directory.row) (a : Directory.row)
  (k : Z) :
  NoDup (map Directory.key l) -> In a l -> Directory.key a = k ->
  filter (fun x => k =? Directory.key x) l = [a].
Proof.
  induction l as [|x t IH]; simpl; intros Hnd Hin Ek; [contradiction|].
  inversion Hnd as [|? ? Hnot Hnd']; subst.
  destruct Hin as [->|Hin].
  - rewrite Z.eqb_refl. f_equal. apply filter_none.
    intros y Hy. apply Z.eqb_neq. intro E. apply Hnot. rewrite E.
    apply in_map. exact Hy.
  - rewrite (proj2 (Z.eqb_neq _ _)).
    + apply IH; [exact Hnd'|exact Hin|reflexivity].
    + intro E. apply Hnot. rewrite <- E. apply in_map. exact Hin.
Qed.

Lemma join_directory_length (ds : list Dif.row) (s : SQLiteDB) :
  NoDup (map Directory.key (directory s)) ->
  (forall d, In d ds ->
     (exists a, In a (directory s) /\ Directory.key a = Dif.key_a d)
     /\ (exists b, In b (directory s) /\ Directory.key b = Dif.key_b d)) ->
  List.length (join_directory ds s) = List.length ds.
Proof.
  intros Hnd. induction ds as [|d ds IH]; intro Hall; [reflexivity|].
  unfold join_directory in *. cbn [flat_map]. rewrite length_app, IH.
  - destruct (Hall d (or_introl eq_refl)) as [[a [Ha Ea]] [b [Hb Eb]]].
    rewrite (filter_key_singleton (directory s) a (Dif.key_a d) Hnd Ha Ea).
    cbn [flat_map].
    rewrite (filter_key_singleton (directory s) b (Dif.key_b d) Hnd Hb Eb).
    reflexivity.
  - intros d' Hd'. apply Hall. right. exact Hd'.
Qed.

(** X16.  The join of [get_duplicate_pairs] neither loses nor repeats a
    pair: when the keys of the catalog are unique and every pair row names
    two files of the catalog, the query yields as many rows as there are
    pair rows with success 1 and a score below [delta], and the paths and the
    score of each of them are among the rows. *)
Theorem get_duplicate_pairs_complete (delta : Q) (s : SQLiteDB) :
  NoDup (map Directory.key (directory s)) ->
  refers_to_files s ->
  List.length (get_duplicate_pairs delta s)
  = List.length (filter (below delta) (dif_table s))
  /\ forall d a b,
       In d (dif_table s) -> below delta d = true ->
       In a (directory s) -> Directory.key a = Dif.key_a d ->
       In b (directory s) -> Directory.key b = Dif.key_b d ->
       In (Directory.path a, Directory.path b, Dif.dif d)
          (get_duplicate_pairs delta s).
Proof.
  intros Hnd Hint. unfold get_duplicate_pairs, select_duplicates. split.
  - rewrite length_map, order_by_length. apply join_directory_length.
    + exact Hnd.
    + intros d Hd. apply filter_In in Hd. apply Hint. tauto.
  - intros d a b Hd Hbelow Ha Ea Hb Eb.
    apply in_map_iff. exists (d, a, b). split; [reflexivity|].
    apply order_by_In. apply join_directory_some; try assumption.
    apply filter_In. split; assumption.
Qed.

Lemma get_duplicate_pairs_complete_witness :
  NoDup (map Directory.key (directory three_pairs))
  /\ refers_to_files three_pairs
  /\ List.length (get_duplicate_pairs 6 three_pairs) = 2%nat.
Proof.
  assert (Hnd : NoDup (map Directory.key (directory three_pairs))).
  { repeat constructor; simpl; intuition lia. }
  assert (Hint : refers_to_files three_pairs).
  { intros d [<-|[<-|[<-|[]]]]; split; eexists;
      first [ solve [split; [left; reflexivity|reflexivity]]
            | solve [split; [right; left; reflexivity|reflexivity]]
            | solve [split; [right; right; left; reflexivity|reflexivity]] ]. }
  split; [exact Hnd|]. split; [exact Hint|].
  rewrite (proj1 (get_duplicate_pairs_complete 6 three_pairs Hnd Hint)).
  reflexivity.
Defined.

Lemma dict_lookup_set_same {V : Type} (k : string) (v : V)
  (d : PyDict.t string V) :
  PyDict.lookup String.eqb k (PyDict.set String.eqb k v d) <> None.
Proof.
  induction d as [|[k' v'] d IH]; simpl.
  - rewrite String.eqb_refl. discriminate.
  - destruct (String.eqb k k') eqn:E; simpl; rewrite E;
      [discriminate|exact IH].
Qed.

Lemma dict_lookup_set_other {V : Type} (k k' : string) (v : V)
  (d : PyDict.t string V) :
  PyDict.lookup String.eqb k d <> None ->
  PyDict.lookup String.eqb k (PyDict.set String.eqb k' v d) <> None.
Proof.
  induction d as [|[k0 v0] d IH]; simpl; intro H; [contradiction|].
  destruct (String.eqb k' k0); simpl;
    destruct (String.eqb k k0); try discriminate; auto.
Qed.

Lemma cluster_dict_has (group_a : bool) (acc : list (string * string * Q))
  (row : string * string * Q) :
  In row acc ->
  PyDict.lookup String.eqb (member group_a row) (cluster_dict group_a acc)
  <> None.
Proof.
  unfold cluster_dict. fold (member group_a).
  assert (H : forall d0,
             In row acc
             \/ PyDict.lookup String.eqb (member group_a row) d0 <> None ->
             PyDict.lookup String.eqb (member group_a row)
               (fold_left
                  (fun d r => PyDict.set String.eqb (member group_a r)
                                         (snd r) d) acc d0) <> None).
  { induction acc as [|r acc IH]; intros d0 [Hin|Hd]; simpl.
    - contradiction.
    - exact Hd.
    - destruct Hin as [->|Hin].
      + apply IH. right. apply dict_lookup_set_same.
      + apply IH. left. exact Hin.
    - apply IH. right. apply dict_lookup_set_other. exact Hd. }
  intro Hin. apply H. left. exact Hin.
Qed.

Lemma cluster_loop_covers (group_a : bool)
  (rows acc : list (string * string * Q)) (head : string)
  (row : string * string * Q) :
  (forall r, In r acc -> anchor group_a r = head) ->
  In row (acc ++ rows) ->
  exists c, In c (cluster_loop group_a head acc rows)
            /\ fst c = anchor group_a row
            /\ PyDict.lookup String.eqb (member group_a row) (snd c) <> None.
Proof.
  revert acc head. induction rows as [|x rest IH]; intros acc head Hacc Hin.
  - rewrite app_nil_r in Hin. exists (head, cluster_dict group_a acc).
    split; [left; reflexivity|]. split.
    + symmetry. apply Hacc. exact Hin.
    + apply cluster_dict_has. exact Hin.
  - cbn [cluster_loop]. fold (anchor group_a x).
    destruct (String.eqb_spec (anchor group_a x) head) as [E|E].
    + apply IH.
      * intros r Hr. apply in_app_or in Hr.
        destruct Hr as [Hr|[<-|[]]]; [apply Hacc; exact Hr|exact E].
      * rewrite <- app_assoc. exact Hin.
    + apply in_app_or in Hin. destruct Hin as [Hin|Hin].
      * exists (head, cluster_dict group_a acc).
        split; [left; reflexivity|]. split.
        -- symmetry. apply Hacc. exact Hin.
        -- apply cluster_dict_has. exact Hin.
      * destruct (IH [x] (anchor group_a x)) as [c [Hc Hrest]].
        -- intros r [<-|[]]. reflexivity.
        -- exact Hin.
        -- exists c. split; [right; exact Hc|exact Hrest].
Qed.

(** X17.  [get_cluster] leaves out no duplicate: every row of the duplicate
    query is in a cluster that is built around its file of the grouping
    side and that has its other file among the keys of its dictionary. *)
Theorem get_cluster_covers_pairs (delta : Q) (group_a : bool) (s : SQLiteDB)
  (row : string * string * Q) :
  In row (map project (select_duplicates delta group_a s)) ->
  exists c, In c (get_cluster delta group_a s)
            /\ fst c = anchor group_a row
            /\ PyDict.lookup String.eqb (member group_a row) (snd c) <> None.
Proof.
  unfold get_cluster. intro Hin.
  destruct (map project (select_duplicates delta group_a s))
    as [|x rest]; [contradiction|].
  fold (anchor group_a x).
  apply (cluster_loop_covers group_a rest [x] (anchor group_a x) row).
  - intros r [<-|[]]. reflexivity.
  - exact Hin.
Qed.

Lemma get_cluster_covers_pairs_witness :
  In ("/a/x.jpg", "/a/z.jpg", 5 # 1)
     (map project (select_duplicates 6 true three_pairs))
  /\ exists c, In c (get_cluster 6 true three_pairs)
               /\ fst c = "/a/x.jpg"
               /\ PyDict.lookup String.eqb "/a/z.jpg" (snd c) <> None.
Proof.
  assert (Hin : In ("/a/x.jpg", "/a/z.jpg", 5 # 1)
                   (map project (select_duplicates 6 true three_pairs))).
  { right. left. reflexivity. }
  split; [exact Hin|].
  exact (get_cluster_covers_pairs 6 true three_pairs _ Hin).
Defined.

(* ================================================================== *)
(** * The blocks of the pair table *)
(* ================================================================== *)

Lemma distinct_NoDup (l : list Z) : NoDup (Sql.distinct Z.eqb l).
Proof.
  induction l as [|x t IH]; simpl; constructor.
  - intro H. apply filter_In in H. destruct H as [_ H].
    rewrite Z.eqb_refl in H. discriminate.
  - apply NoDup_filter. exact IH.
Qed.

Lemma distinct_length (l : list Z) :
  (List.length (Sql.distinct Z.eqb l) <= List.length l)%nat.
Proof.
  induction l as [|x t IH]; simpl; [lia|].
  pose proof (filter_length_le (fun y => negb (x =? y)) (Sql.distinct Z.eqb t)).
  lia.
Qed.

Lemma Z_distinct_In (l : list Z) (x : Z) :
  In x (Sql.distinct Z.eqb l) <-> In x l.
Proof. apply distinct_In. intros a b. apply Z.eqb_eq. Qed.

Lemma max_key_b_row_spec (rows : list Dif.row) (best : Dif.row) :
  In (max_key_b_row best rows) (best :: rows)
  /\ forall x, In x (best :: rows) ->
               Dif.key_b x <= Dif.key_b (max_key_b_row best rows).
Proof.
  revert best. induction rows as [|r rest IH]; intro best.
  - simpl. split; [left; reflexivity|]. intros x [<-|[]]. lia.
  - cbn [max_key_b_row].
    destruct (IH (if Dif.key_b best <? Dif.key_b r then r else best))
      as [Hin Hmax].
    destruct (Z.ltb_spec (Dif.key_b best) (Dif.key_b r)) as [Hlt|Hge].
    + split.
      * destruct Hin as [<-|Hin]; [right; left; reflexivity|].
        right. right. exact Hin.
      * intros x [<-|[<-|Hx]].
        -- specialize (Hmax r (or_introl eq_refl)). lia.
        -- apply Hmax. left. reflexivity.
        -- apply Hmax. right. exact Hx.
    + split.
      * destruct Hin as [<-|Hin]; [left; reflexivity|].
        right. right. exact Hin.
      * intros x [<-|[<-|Hx]].
        -- apply Hmax. left. reflexivity.
        -- specialize (Hmax best (or_introl eq_refl)). lia.
        -- apply Hmax. right. exact Hx.
Qed.

(** The task of one [key_a] of a block. *)
Lemma task_of_key_a (rows : list Dif.row) (ka : Z) :
  In ka (map Dif.key_a rows) ->
  exists top,
    match filter (fun r => Dif.key_a r =? ka) rows with
    | [] => []
    | r :: rest =>
        [(Dif.key (max_key_b_row r rest), ka,
          Dif.key_b (max_key_b_row r rest))]
    end = [(Dif.key top, ka, Dif.key_b top)]
    /\ In top rows /\ Dif.key_a top = ka
    /\ forall x, In x rows -> Dif.key_a x = ka ->
                 Dif.key_b x <= Dif.key_b top.
Proof.
  intro Hin. apply in_map_iff in Hin. destruct Hin as [r0 [E0 Hr0]].
  assert (Hsel : In r0 (filter (fun r => Dif.key_a r =? ka) rows)).
  { apply filter_In. split; [exact Hr0|]. apply Z.eqb_eq. exact E0. }
  destruct (filter (fun r => Dif.key_a r =? ka) rows) as [|r rest] eqn:Ef;
    [contradiction|].
  destruct (max_key_b_row_spec rest r) as [Htop Hmax].
  exists (max_key_b_row r rest). split; [reflexivity|].
  assert (Hsub : forall x, In x (r :: rest) ->
                           In x rows /\ Dif.key_a x = ka).
  { intros x Hx. rewrite <- Ef in Hx. apply filter_In in Hx.
    destruct Hx as [Hx Ex]. apply Z.eqb_eq in Ex. split; assumption. }
  destruct (Hsub _ Htop) as [Ht Et]. split; [exact Ht|]. split; [exact Et|].
  intros x Hx Ex. apply Hmax. rewrite <- Ef. apply filter_In.
  split; [exact Hx|]. apply Z.eqb_eq. exact Ex.
Qed.

(** X18.  [get_task_block_key] gives one task for each row of a block: as
    many tasks as the block has distinct [key_a], no two for the same
    [key_a], and each task names a pair row of the block with this [key_a]
    whose [key_b] is the largest of the block for this [key_a]. *)
Theorem get_task_block_key_one_per_row (block_key : Z) (s : SQLiteDB) :
  let tasks := get_task_block_key block_key s in
  Z.of_nat (List.length tasks)
  = count_distinct (map Dif.key_a (block_rows block_key s))
  /\ NoDup (map (fun t => snd (fst t)) tasks)
  /\ forall k ka kb, In (k, ka, kb) tasks ->
       exists r, In r (block_rows block_key s)
                 /\ Dif.key r = k /\ Dif.key_a r = ka /\ Dif.key_b r = kb
                 /\ forall x, In x (block_rows block_key s) ->
                      Dif.key_a x = ka -> Dif.key_b x <= kb.
Proof.
  unfold get_task_block_key, count_distinct. cbv zeta.
  fold (block_rows block_key s). set (rows := block_rows block_key s).
  set (keys := Sql.order_by Z.leb (Sql.distinct Z.eqb (map Dif.key_a rows))).
  assert (Hkeys : forall ka, In ka keys -> In ka (map Dif.key_a rows)).
  { intros ka Hka. unfold keys in Hka. apply order_by_In in Hka.
    apply (proj1 (Z_distinct_In (map Dif.key_a rows) ka)). exact Hka. }
  assert (Hnd : NoDup keys).
  { unfold keys. eapply Permutation_NoDup; [apply order_by_perm|].
    apply distinct_NoDup. }
  assert (Hlen : List.length keys
                 = List.length (Sql.distinct Z.eqb (map Dif.key_a rows))).
  { unfold keys. apply order_by_length. }
  rewrite <- Hlen. clear Hlen.
  induction keys as [|ka keys IH]; [simpl; repeat split; [constructor|]|].
  - intros k ka kb [].
  - inversion Hnd as [|? ? Hnot Hnd']; subst.
    destruct IH as [IHlen [IHnd IHin]];
      [intros x Hx; apply Hkeys; right; exact Hx|exact Hnd'|].
    destruct (task_of_key_a rows ka (Hkeys ka (or_introl eq_refl)))
      as [top [Etask [Htop [Eka Hmax]]]].
    cbn [flat_map]. rewrite Etask. cbn [app List.length map fst snd].
    split; [lia|]. split.
    + constructor; [|exact IHnd].
      intro Hin. apply Hnot. apply in_map_iff in Hin.
      destruct Hin as [[[k' ka'] kb'] [E Hin]]. simpl in E. subst ka'.
      apply in_flat_map in Hin. destruct Hin as [ka0 [Hka0 Hin]].
      destruct (task_of_key_a rows ka0 (Hkeys ka0 (or_intror Hka0)))
        as [top0 [Etask0 _]].
      rewrite Etask0 in Hin. destruct Hin as [E|[]].
      injection E as _ <- _. exact Hka0.
    + intros k ka' kb [E|Hin].
      * injection E as <- <- <-. exists top. repeat split; assumption.
      * exact (IHin k ka' kb Hin).
Qed.

Lemma get_task_block_key_one_per_row_witness :
  get_task_block_key 1 three_pairs = [(2, 0, 2); (3, 1, 2)]
  /\ exists r, In r (block_rows 1 three_pairs)
               /\ Dif.key r = 2 /\ Dif.key_a r = 0 /\ Dif.key_b r = 2.
Proof.
  split; [reflexivity|].
  destruct (proj2 (proj2 (get_task_block_key_one_per_row 1 three_pairs))
              2 0 2 (or_introl eq_refl)) as [r [Hr [Ek [Ea [Eb _]]]]].
  exists r. repeat split; assumption.
Defined.


(** The result of [get_cache_block_thumb] on an empty block and on any
    other block. *)
Lemma get_cache_block_thumb_bounds_aux (block_key : Z) (has_dir_b : bool)
  (s : SQLiteDB) :
  let rows := block_rows block_key s in
  (get_cache_block_thumb block_key has_dir_b s = (-1, -1, -1, -1)
   <-> rows = [])
  /\ (rows <> [] ->
      exists l_x l_y s_x s_y,
        get_cache_block_thumb block_key has_dir_b s = (l_x, l_y, s_x, s_y)
        /\ In l_x (map Dif.key_a rows) /\ In l_y (map Dif.key_b rows)
        /\ (forall r, In r rows -> l_x <= Dif.key_a r /\ l_y <= Dif.key_b r)
        /\ 1 <= s_x <= Z.of_nat (List.length rows)
        /\ 1 <= s_y <= Z.of_nat (List.length rows)).
Proof.
  cbv zeta. unfold get_cache_block_thumb. fold (block_rows block_key s).
  set (rows := block_rows block_key s).
  assert (Hsize : forall (g : Dif.row -> Z), rows <> [] ->
             1 <= count_distinct (map g rows) <= Z.of_nat (List.length rows)).
  { intros g Hne. unfold count_distinct.
    pose proof (distinct_length (map g rows)) as Hle.
    rewrite length_map in Hle.
    destruct rows as [|r rest]; [contradiction|]. simpl in *. lia. }
  assert (Hfull : rows <> [] ->
            exists l_x l_y s_x s_y,
              match Sql.min_of (map Dif.key_a rows),
                    Sql.min_of (map Dif.key_b rows) with
              | Some lower_key_x, Some lower_key_y =>
                  (lower_key_x, lower_key_y,
                   count_distinct (map Dif.key_a rows),
                   count_distinct (map Dif.key_b rows))
              | _, _ => (-1, -1, -1, -1)
              end = (l_x, l_y, s_x, s_y)
              /\ In l_x (map Dif.key_a rows) /\ In l_y (map Dif.key_b rows)
              /\ (forall r, In r rows ->
                            l_x <= Dif.key_a r /\ l_y <= Dif.key_b r)
              /\ 1 <= s_x <= Z.of_nat (List.length rows)
              /\ 1 <= s_y <= Z.of_nat (List.length rows)).
  { intro Hne.
    pose proof (min_of_spec (map Dif.key_a rows)) as Ha.
    pose proof (min_of_spec (map Dif.key_b rows)) as Hb.
    destruct (Sql.min_of (map Dif.key_a rows)) as [lx|];
      [|apply map_eq_nil in Ha; contradiction].
    destruct (Sql.min_of (map Dif.key_b rows)) as [ly|];
      [|apply map_eq_nil in Hb; contradiction].
    destruct Ha as [Hina Hmina], Hb as [Hinb Hminb].
    exists lx, ly, (count_distinct (map Dif.key_a rows)),
      (count_distinct (map Dif.key_b rows)).
    split; [reflexivity|]. split; [exact Hina|]. split; [exact Hinb|].
    split; [|split; apply Hsize; exact Hne].
    intros r Hr. split; [apply Hmina|apply Hminb]; apply in_map; exact Hr. }
  split; [|exact Hfull]. split.
  - intro E. destruct rows as [|r rest] eqn:Er; [reflexivity|]. exfalso.
    destruct Hfull as [lx [ly [sx [sy [E' [_ [_ [_ [Hsx _]]]]]]]]];
      [discriminate|].
    rewrite E in E'. injection E' as <- <- <- <-. lia.
  - intro E. rewrite E. reflexivity.
Qed.

(** X19.  [get_cache_block_thumb] gives the stop value (-1, -1, -1, -1)
    exactly for a block without pair rows; for any other block the two lower
    keys are the least [key_a] and the least [key_b] of the block, and each
    size is at least 1 and at most the number of pair rows of the block. *)
Theorem get_cache_block_thumb_bounds (block_key : Z) (has_dir_b : bool)
  (s : SQLiteDB) :
  let rows := block_rows block_key s in
  (get_cache_block_thumb block_key has_dir_b s = (-1, -1, -1, -1)
   <-> rows = [])
  /\ (rows <> [] ->
      exists l_x l_y s_x s_y,
        get_cache_block_thumb block_key has_dir_b s = (l_x, l_y, s_x, s_y)
        /\ In l_x (map Dif.key_a rows) /\ In l_y (map Dif.key_b rows)
        /\ (forall r, In r rows -> l_x <= Dif.key_a r /\ l_y <= Dif.key_b r)
        /\ 1 <= s_x <= Z.of_nat (List.length rows)
        /\ 1 <= s_y <= Z.of_nat (List.length rows)).
Proof. exact (get_cache_block_thumb_bounds_aux block_key has_dir_b s). Qed.

Lemma get_cache_block_thumb_bounds_witness :
  block_rows 1 three_pairs <> []
  /\ get_cache_block_thumb 1 false three_pairs = (0, 1, 2, 2)
  /\ get_cache_block_thumb 2 false three_pairs = (-1, -1, -1, -1).
Proof.
  assert (Hne : block_rows 1 three_pairs <> []) by discriminate.
  split; [exact Hne|]. split.
  - destruct (proj2 (get_cache_block_thumb_bounds 1 false three_pairs) Hne)
      as [lx [ly [sx [sy [E _]]]]].
    rewrite E. vm_compute in E. symmetry. exact E.
  - apply (proj1 (get_cache_block_thumb_bounds 2 false three_pairs)).
    reflexivity.
Defined.

Lemma limit_exact {T : Type} (n : Z) (l : list T) :
  0 <= n <= Z.of_nat (List.length l) ->
  Z.of_nat (List.length (Sql.limit n l)) = n.
Proof.
  intros [H0 Hn]. unfold Sql.limit.
  destruct (Z.ltb_spec n 0); [lia|]. rewrite length_firstn. lia.
Qed.

(** As many files have a key from the least key of a column of the block
    on as the column has distinct keys. *)
Lemma enough_files (s : SQLiteDB) (keys : list Z) (lower : Z) :
  (forall k, In k keys ->
     lower <= k /\ exists a, In a (directory s) /\ Directory.key a = k) ->
  count_distinct keys
  <= Z.of_nat (List.length
                 (filter (fun r => Directory.key r >=? lower) (directory s))).
Proof.
  intro H. unfold count_distinct. apply inj_le.
  rewrite <- (length_map Directory.key
                (filter (fun r => Directory.key r >=? lower) (directory s))).
  apply NoDup_incl_length; [apply distinct_NoDup|].
  intros k Hk. apply (proj1 (Z_distinct_In keys k)) in Hk.
  destruct (H k Hk) as [Hle [a [Ha <-]]].
  apply in_map. apply filter_In. split; [exact Ha|].
  apply Z.geb_le. exact Hle.
Qed.

(** X20.  When every pair row names two files of the catalog,
    [get_cache_block_original] returns and writes nothing, whatever the
    block: neither of its two assertions on the number of paths can fail.
    For a block without pair rows it returns (-1, -1, [], []), and for any
    other block it returns as many paths for each side as
    [get_cache_block_thumb] gives as the size of that side. *)
Theorem get_cache_block_original_returns (block_key : Z) (has_dir_b : bool)
  (s : SQLiteDB) :
  refers_to_files s ->
  exists l_x l_y p_x p_y,
    get_cache_block_original block_key has_dir_b s
    = (Val (l_x, l_y, p_x, p_y), s)
    /\ (block_rows block_key s = [] ->
        (l_x, l_y, p_x, p_y) = (-1, -1, [], []))
    /\ (block_rows block_key s <> [] ->
        get_cache_block_thumb block_key has_dir_b s
        = (l_x, l_y, Z.of_nat (List.length p_x), Z.of_nat (List.length p_y))).
Proof.
  intro Hint.
  destruct (get_cache_block_thumb_bounds_aux block_key has_dir_b s)
    as [Hstop Hfull].
  unfold get_cache_block_original, bind, get.
  destruct (block_rows block_key s) as [|r0 rest] eqn:Erows.
  - rewrite (proj2 Hstop eq_refl). simpl.
    exists (-1), (-1), [], []. split; [reflexivity|].
    split; [reflexivity|]. intro H. contradiction.
  - destruct Hfull as [lx [ly [sx [sy [E [Hinx [Hiny [Hmin [Hsx Hsy]]]]]]]]];
      [discriminate|].
    rewrite E.
    assert (Hnot : ((lx =? -1) && (ly =? -1) && (sx =? -1) && (sy =? -1))%bool
                   = false).
    { rewrite (proj2 (Z.eqb_neq sx (-1))) by lia.
      rewrite andb_false_r. reflexivity. }
    rewrite Hnot.
    assert (Hrows : forall d, In d (r0 :: rest) -> In d (dif_table s)).
    { intros d Hd. rewrite <- Erows in Hd. unfold block_rows in Hd.
      apply filter_In in Hd. tauto. }
    assert (Ex : sx = count_distinct (map Dif.key_a (r0 :: rest))
                 /\ sy = count_distinct (map Dif.key_b (r0 :: rest))).
    { unfold get_cache_block_thumb in E. fold (block_rows block_key s) in E.
      rewrite Erows in E.
      destruct (Sql.min_of (map Dif.key_a (r0 :: rest)));
        [|injection E; lia].
      destruct (Sql.min_of (map Dif.key_b (r0 :: rest)));
        [|injection E; lia].
      injection E as _ _ <- <-. split; reflexivity. }
    destruct Ex as [Ex Ey].
    assert (Lx : Z.of_nat (List.length (select_paths_from lx sx s)) = sx).
    { unfold select_paths_from. rewrite length_map. apply limit_exact.
      split; [lia|]. rewrite Ex. apply enough_files.
      intros k Hk. apply in_map_iff in Hk. destruct Hk as [d [<- Hd]].
      split; [apply Hmin; exact Hd|].
      destruct (Hint d (Hrows d Hd)) as [Ha _]. exact Ha. }
    assert (Ly : Z.of_nat (List.length (select_paths_from ly sy s)) = sy).
    { unfold select_paths_from. rewrite length_map. apply limit_exact.
      split; [lia|]. rewrite Ey. apply enough_files.
      intros k Hk. apply in_map_iff in Hk. destruct Hk as [d [<- Hd]].
      split; [apply Hmin; exact Hd|].
      destruct (Hint d (Hrows d Hd)) as [_ Hb]. exact Hb. }
    unfold assert. rewrite Lx, Ly, !Z.eqb_refl. simpl.
    exists lx, ly, (select_paths_from lx sx s), (select_paths_from ly sy s).
    split; [reflexivity|]. split; [discriminate|].
    intros _. rewrite Lx, Ly. reflexivity.
Qed.

Lemma get_cache_block_original_returns_witness :
  refers_to_files three_pairs
  /\ get_cache_block_original 1 false three_pairs
     = (Val (0, 1, ["/a/x.jpg"; "/a/y.jpg"], ["/a/y.jpg"; "/a/z.jpg"]),
        three_pairs).
Proof.
  assert (Hint : refers_to_files three_pairs).
  { intros d [<-|[<-|[<-|[]]]]; split; eexists;
      first [ solve [split; [left; reflexivity|reflexivity]]
            | solve [split; [right; left; reflexivity|reflexivity]]
            | solve [split; [right; right; left; reflexivity|reflexivity]] ]. }
  split; [exact Hint|].
  destruct (get_cache_block_original_returns 1 false three_pairs Hint)
    as [lx [ly [px [py [E _]]]]].
  rewrite E. vm_compute in E. symmetry. exact E.
Defined.

(* ================================================================== *)
(** * The RAM cache of the second loop *)
(* ================================================================== *)

Lemma dict_lookup_set_Z {V : Type} (k : Z) (v : V) (d : PyDict.t Z V) :
  PyDict.lookup Z.eqb k (PyDict.set Z.eqb k v d) = Some v.
Proof.
  induction d as [|[k' v'] d IH]; simpl.
  - rewrite Z.eqb_refl. reflexivity.
  - destruct (k =? k') eqn:E; simpl; rewrite E; [reflexivity|exact IH].
Qed.

(** X21.  [__build_thumb_cache] asserts that the RAM cache and the
    thumbnails are both in use, and refuses a block next to the diagonal
    that is not a square with a ValueError; in both cases the driver is as
    it was.  Otherwise it returns, and the cache it files under the current
    cache index holds the images of all keys of the block: the keys
    [l_x .. l_x + s_x - 1] on the side x and [l_y .. l_y + s_y - 1] on the
    side y; the database and the configuration are not touched. *)
Theorem build_thumb_cache_holds_block (R : Type) (l_x l_y s_x s_y : Z)
  (f : FastDifPy R) :
  let run := __build_thumb_cache l_x l_y s_x s_y f in
  let wanted := (SecondLoopConfig.use_ram_cache (second_loop f)
                 && FirstLoopConfig.compress (first_loop f))%bool in
  (wanted = false -> run = (Raise AssertionError, f))
  /\ (wanted = true -> l_x + 1 = l_y -> s_x <> s_y ->
      run = (Raise ValueError, f))
  /\ (wanted = true -> (l_x + 1 = l_y -> s_x = s_y) ->
      exists f' bc,
        run = (Val tt, f')
        /\ PyDict.lookup Z.eqb (SecondLoopConfig.cache_index (second_loop f))
                         (ram_cache f') = Some bc
        /\ holds_keys (BatchCache.x bc) l_x s_x
        /\ holds_keys (BatchCache.y bc) l_y s_y
        /\ db f' = db f /\ config f' = config f).
Proof.
  cbv zeta. unfold __build_thumb_cache, bind, get, assert.
  destruct (SecondLoopConfig.use_ram_cache (second_loop f)
            && FirstLoopConfig.compress (first_loop f))%bool.
  - split; [discriminate|]. unfold ret at 1.
    destruct (Z.eqb_spec (l_x + 1) l_y) as [Ed|Ed].
    + destruct (Z.eqb_spec s_x s_y) as [Es|Es]; simpl.
      * split; [intros _ _ H; contradiction|]. intros _ _.
        unfold register_cache, modify. eexists. eexists.
        split; [reflexivity|].
        destruct (SecondLoopConfig.batch_args (second_loop f)); simpl;
          rewrite dict_lookup_set_Z; (split; [reflexivity|]);
          unfold holds_keys; simpl; repeat split; lia.
      * split; [reflexivity|]. intros _ H. exfalso. apply Es, H, Ed.
    + unfold ret at 1. split; [intros _ H; contradiction|]. intros _ _.
      unfold register_cache, modify. eexists. eexists.
      split; [reflexivity|].
      destruct (SecondLoopConfig.batch_args (second_loop f)); simpl;
        rewrite dict_lookup_set_Z; (split; [reflexivity|]);
        unfold holds_keys; simpl; repeat split; lia.
  - split; [reflexivity|]. split; discriminate.
Qed.

Lemma build_thumb_cache_holds_block_witness :
  (let f := driver_of unit three_pairs (cached_config false) in
   exists f' bc,
     __build_thumb_cache 0 1 2 2 f = (Val tt, f')
     /\ PyDict.lookup Z.eqb 1 (ram_cache f') = Some bc
     /\ holds_keys (BatchCache.y bc) 1 2)
  /\ __build_thumb_cache 0 1 2 3
       (driver_of unit three_pairs (cached_config false))
     = (Raise ValueError, driver_of unit three_pairs (cached_config false))
  /\ __build_thumb_cache 0 1 2 2
       (driver_of unit three_pairs (plain_config "/a" None))
     = (Raise AssertionError,
        driver_of unit three_pairs (plain_config "/a" None)).
Proof.
  pose proof (build_thumb_cache_holds_block unit 0 1 2 2
                (driver_of unit three_pairs (cached_config false))) as H1.
  pose proof (build_thumb_cache_holds_block unit 0 1 2 3
                (driver_of unit three_pairs (cached_config false))) as H2.
  pose proof (build_thumb_cache_holds_block unit 0 1 2 2
                (driver_of unit three_pairs (plain_config "/a" None))) as H3.
  cbv zeta in H1, H2, H3. split; [|split].
  - destruct (proj2 (proj2 H1) eq_refl (fun _ => eq_refl))
      as [f' [bc [E [Hl [_ [Hy _]]]]]].
    exists f', bc. split; [exact E|]. split; [exact Hl|exact Hy].
  - apply (proj1 (proj2 H2) eq_refl eq_refl). discriminate.
  - apply (proj1 H3). reflexivity.
Defined.

Lemma dict_pop_keys {V : Type} (k x : Z) (d : PyDict.t Z V) :
  In x (PyDict.keys (PyDict.pop Z.eqb k d))
  <-> In x (PyDict.keys d) /\ x <> k.
Proof.
  unfold PyDict.keys, PyDict.pop. rewrite !in_map_iff. split.
  - intros [kv [<- Hin]]. apply filter_In in Hin. destruct Hin as [Hin E].
    apply negb_true_iff, Z.eqb_neq in E. split.
    + exists kv. split; [reflexivity|exact Hin].
    + congruence.
  - intros [[kv [<- Hin]] Hne]. exists kv. split; [reflexivity|].
    apply filter_In. split; [exact Hin|].
    apply negb_true_iff, Z.eqb_neq. congruence.
Qed.

(** X22.  [prune_cache_item] always returns and never writes to the
    database; it drops at most the cache with the lowest key, and only when
    [verify_item_block] holds for that key: a cache that is gone afterwards
    had the least key of the RAM cache and a block without open pairs, and
    no cache is added. *)
Theorem prune_cache_item_drops_only_done (R : Type) (f : FastDifPy R) :
  exists f',
    prune_cache_item f = (Val tt, f')
    /\ db f' = db f
    /\ (forall k, In k (PyDict.keys (ram_cache f')) ->
                  In k (PyDict.keys (ram_cache f)))
    /\ (forall k, In k (PyDict.keys (ram_cache f)) ->
                  ~ In k (PyDict.keys (ram_cache f')) ->
                  verify_item_block k (db f) = true
                  /\ forall k', In k' (PyDict.keys (ram_cache f)) -> k <= k').
Proof.
  unfold prune_cache_item, bind, get.
  pose proof (min_of_spec (PyDict.keys (ram_cache f))) as Hmin.
  destruct (Sql.min_of (PyDict.keys (ram_cache f))) as [lowest|].
  - destruct Hmin as [Hin Hleast].
    destruct (verify_item_block lowest (db f)) eqn:Ev.
    + unfold modify. eexists. split; [reflexivity|]. simpl.
      split; [reflexivity|]. split.
      * intros k Hk. apply dict_pop_keys in Hk. tauto.
      * intros k Hk Hgone.
        destruct (Z.eq_dec k lowest) as [->|Hne].
        -- split; [exact Ev|exact Hleast].
        -- exfalso. apply Hgone. apply dict_pop_keys. split; assumption.
    + exists f. repeat split; tauto.
  - exists f. repeat split; tauto.
Qed.

Lemma prune_cache_item_drops_only_done_witness :
  PyDict.keys (ram_cache (snd (prune_cache_item (two_caches unscored_pairs))))
  = [2; 1]
  /\ exists f',
       prune_cache_item (two_caches three_files) = (Val tt, f')
       /\ PyDict.keys (ram_cache f') = [2]
       /\ verify_item_block 1 three_files = true.
Proof.
  split; [reflexivity|].
  destruct (prune_cache_item_drops_only_done unit (two_caches three_files))
    as [f' [E [_ [_ Hgone]]]].
  exists f'. split; [exact E|].
  assert (Ek : PyDict.keys (ram_cache f') = [2]).
  { vm_compute in E. injection E as <-. reflexivity. }
  split; [exact Ek|].
  apply (Hgone 1).
  - right. left. reflexivity.
  - rewrite Ek. intros [H|[]]. discriminate.
Defined.

(* ================================================================== *)
(** * Draining the result queue *)
(* ================================================================== *)

Lemma keeps_on_db_queue {R A : Type} (c : M SQLiteDB A) :
  keeps (@queue_view R) (on_db c).
Proof. intro f. unfold on_db. destruct (c (db f)). reflexivity. Qed.

#[local] Hint Resolve keeps_on_db_queue : keeps.

Lemma queue_kept_by_store_item (to_b64 : string -> string)
  (results : list ItemCompareResult.t) :
  keeps (@queue_view item_msg)
        (store_item_second_loop to_b64 (R := item_msg) results).
Proof.
  unfold store_item_second_loop, prune_cache_item.
  destruct (split_item_results results [] [] []) as [[ks ds] errors].
  repeat keeps_step.
Qed.

Lemma queue_kept_by_store_batch (to_b64 : string -> string)
  (results : list BatchCompareResult.t) :
  keeps (@queue_view BatchCompareResult.t)
        (store_batch_second_loop to_b64 (R := BatchCompareResult.t) results).
Proof.
  unfold store_batch_second_loop, store_batch_result, prune_cache_batch.
  repeat keeps_step.
Qed.

Lemma item_loop_drains (q : list (option item_msg)) (f : FastDifPy item_msg)
  (results : list ItemCompareResult.t) (count : Z) :
  exists f1,
    item_loop true q f results count
    = (f1, results ++ flat_map items_of q, count + items_in q)
    /\ queue_view f1
       = ([], exit_counter f + sentinels_in q, _dequeue_counter f,
          _enqueue_counter f).
Proof.
  revert f results count. induction q as [|m q IH]; intros f results count.
  - eexists. simpl. rewrite app_nil_r. unfold items_in, sentinels_in. simpl.
    rewrite !Z.add_0_r. split; reflexivity.
  - cbn [item_loop]. unfold item_guard at 1. rewrite orb_true_r.
    destruct m as [[r|l]|].
    + destruct (IH f (results ++ [r]) (count + 1)) as [f1 [E Hv]].
      exists f1. rewrite E. split; [|exact Hv].
      unfold items_in. cbn [flat_map items_of]. rewrite <- app_assoc.
      f_equal. rewrite length_app. cbn [List.length]. lia.
    + destruct (IH f (results ++ l) (count + Z.of_nat (List.length l)))
        as [f1 [E Hv]].
      exists f1. rewrite E. split; [|exact Hv].
      unfold items_in. cbn [flat_map items_of]. rewrite <- app_assoc.
      f_equal. rewrite length_app. lia.
    + destruct (IH (bump_exit_counter f) results count) as [f1 [E Hv]].
      exists f1. rewrite E. split; [reflexivity|].
      rewrite Hv. unfold sentinels_in. cbn [filter List.length].
      simpl exit_counter. simpl _dequeue_counter. simpl _enqueue_counter.
      f_equal. f_equal. f_equal. lia.
Qed.

Lemma batch_loop_drains (q : list (option BatchCompareResult.t))
  (f : FastDifPy BatchCompareResult.t) (results : list BatchCompareResult.t) :
  exists f1 taken,
    batch_loop true q f results = (f1, results ++ taken)
    /\ queue_view f1
       = ([], exit_counter f + sentinels_in q,
          _dequeue_counter f + results_in q, _enqueue_counter f).
Proof.
  revert f results. induction q as [|m q IH]; intros f results.
  - exists (set_result_queue [] f), []. simpl. rewrite app_nil_r.
    unfold results_in, sentinels_in. simpl. rewrite !Z.add_0_r.
    split; reflexivity.
  - cbn [batch_loop]. unfold batch_guard at 1. rewrite orb_true_r.
    destruct m as [r|].
    + destruct (IH (set_dequeue_counter (_dequeue_counter f + 1) f)
                   (results ++ [r])) as [f1 [taken [E Hv]]].
      exists f1, (r :: taken). rewrite E. split.
      * rewrite <- app_assoc. reflexivity.
      * rewrite Hv, results_in_some. unfold sentinels_in.
        cbn [filter]. simpl exit_counter. simpl _dequeue_counter.
        simpl _enqueue_counter. f_equal. f_equal. lia.
    + destruct (IH (bump_exit_counter f) results) as [f1 [taken [E Hv]]].
      exists f1, taken. rewrite E. split; [reflexivity|].
      rewrite Hv, results_in_none. unfold sentinels_in.
      cbn [filter List.length]. simpl exit_counter. simpl _dequeue_counter.
      simpl _enqueue_counter. f_equal. f_equal. f_equal. lia.
Qed.

(** X23.  With [drain] set, the two dequeue functions of the second loop
    read the whole result queue, whatever the counters say: afterwards the
    queue is empty and [exit_counter] has grown by the number of sentinels,
    also when storing the results raises.  In batch mode the dequeue counter
    has grown by the number of results read; in item mode, for scores that
    respect the CHECK on [dif], it grows by the number of item results read
    once they are stored, and stays when storing them raises.  The enqueue
    counter is not changed. *)
Theorem dequeue_second_loop_drains (to_b64 : string -> string) :
  (forall f : FastDifPy item_msg,
     let run := dequeue_second_loop_item to_b64 true f in
     result_queue (snd run) = []
     /\ exit_counter (snd run)
        = exit_counter f + sentinels_in (result_queue f)
     /\ _enqueue_counter (snd run) = _enqueue_counter f
     /\ ((forall r, In r (flat_map items_of (result_queue f)) ->
                    score_ok (ItemCompareResult.diff r)) ->
         _dequeue_counter (snd run)
         = match fst run with
           | Val _ => _dequeue_counter f + items_in (result_queue f)
           | Raise _ => _dequeue_counter f
           end))
  /\ (forall f : FastDifPy BatchCompareResult.t,
        let run := dequeue_second_loop_batch to_b64 true f in
        result_queue (snd run) = []
        /\ exit_counter (snd run)
           = exit_counter f + sentinels_in (result_queue f)
        /\ _enqueue_counter (snd run) = _enqueue_counter f
        /\ _dequeue_counter (snd run)
           = _dequeue_counter f + results_in (result_queue f)).
Proof.
  split; intro f; cbv zeta.
  - unfold dequeue_second_loop_item.
    destruct (item_loop_drains (result_queue f) f [] 0) as [f1 [E Hv]].
    rewrite E. unfold bind.
    pose proof (queue_kept_by_store_item to_b64
                  ([] ++ flat_map items_of (result_queue f)) f1) as Hk.
    destruct (store_item_second_loop to_b64
                ([] ++ flat_map items_of (result_queue f)) f1)
      as [[u|e] f2]; simpl in Hk; rewrite Hv in Hk;
      unfold queue_view in Hk; injection Hk as Hq He Hd Hn.
    + unfold modify. simpl. rewrite Hq, He, Hd, Hn. repeat split; lia.
    + simpl. rewrite Hq, He, Hd, Hn. repeat split.
  - unfold dequeue_second_loop_batch.
    destruct (batch_loop_drains (result_queue f) f []) as [f1 [taken [E Hv]]].
    rewrite E. cbn [app].
    pose proof (queue_kept_by_store_batch to_b64 taken f1) as Hk.
    rewrite Hv in Hk. unfold queue_view in Hk. injection Hk as Hq He Hd Hn.
    rewrite Hq, He, Hd, Hn. repeat split.
Qed.

Lemma dequeue_second_loop_drains_witness :
  (forall r, In r (flat_map items_of (result_queue item_backlog_small)) ->
             score_ok (ItemCompareResult.diff r))
  /\ (let run := dequeue_second_loop_item tagged true item_backlog_small in
      fst run = Val tt
      /\ result_queue (snd run) = []
      /\ _dequeue_counter (snd run) = 1).
Proof.
  assert (Hok : forall r,
             In r (flat_map items_of (result_queue item_backlog_small)) ->
             score_ok (ItemCompareResult.diff r)).
  { intros r [<-|[]]. unfold score_ok, Qle. simpl. lia. }
  split; [exact Hok|]. cbv zeta.
  destruct (proj1 (dequeue_second_loop_drains tagged) item_backlog_small)
    as [Hq [_ [_ Hd]]].
  split; [reflexivity|]. split; [exact Hq|].
  rewrite (Hd Hok). reflexivity.
Defined.

(* ================================================================== *)
(** * Submitting a block in item mode *)
(* ================================================================== *)

Lemma set_cmd_queue_same (R : Type) (f : FastDifPy R) :
  set_cmd_queue (cmd_queue f ++ []) f = f.
Proof. destruct f. unfold set_cmd_queue. simpl. rewrite app_nil_r. reflexivity. Qed.

Lemma put_items_run (R : Type) (l : list ItemCompareArgs.t) (f : FastDifPy R) :
  for_each (fun a => cmd_queue_put (R := R) (PutItem a)) l f
  = (Val tt, set_cmd_queue (cmd_queue f ++ map PutItem l) f).
Proof.
  revert f. induction l as [|a l IH]; intro f.
  - simpl. rewrite set_cmd_queue_same. reflexivity.
  - cbn [for_each]. unfold bind, cmd_queue_put at 1, modify.
    rewrite IH. unfold set_cmd_queue. simpl. rewrite <- app_assoc.
    reflexivity.
Qed.

Lemma submit_slice_single (R : Type) (sl : list ItemCompareArgs.t)
  (f : FastDifPy R) :
  sl <> [] ->
  submit_slice false sl f
  = (Val tt, set_cmd_queue (cmd_queue f ++ map PutItem sl) f).
Proof.
  intro Hne. unfold submit_slice.
  destruct sl as [|a sl]; [contradiction|].
  change (Z.of_nat (List.length (a :: sl)) =? 0)
    with (Z.pos (Pos.of_succ_nat (List.length sl)) =? 0).
  cbn [Z.eqb]. apply put_items_run.
Qed.

Lemma slices_run (R : Type) (fuel n : nat) (l : list ItemCompareArgs.t)
  (f : FastDifPy R) :
  (0 < n)%nat -> (List.length l <= fuel)%nat ->
  for_each (submit_slice (R := R) false) (slices fuel n l) f
  = (Val tt, set_cmd_queue (cmd_queue f ++ map PutItem l) f).
Proof.
  intro Hn. revert l f. induction fuel as [|fuel IH]; intros l f Hlen.
  - destruct l; [|simpl in Hlen; lia].
    simpl. rewrite set_cmd_queue_same. reflexivity.
  - destruct l as [|a l].
    + simpl. rewrite set_cmd_queue_same. reflexivity.
    + cbn [slices for_each]. unfold bind.
      rewrite submit_slice_single.
      * rewrite IH.
        -- unfold set_cmd_queue. simpl cmd_queue. rewrite <- app_assoc.
           rewrite <- map_app, firstn_skipn. reflexivity.
        -- rewrite length_skipn. cbn [List.length] in Hlen |- *. lia.
      * destruct n; [lia|]. discriminate.
Qed.

(** X24.  Without RAM cache and with a positive batch size, [__item_block]
    puts every open pair of the current block on the command queue exactly
    once, as a single item and in the order of the query, adds their number
    to the enqueue counter, moves on to the next block and answers True; for
    a block without open pair it answers False and changes nothing.  The
    database is not written. *)
Theorem item_block_enqueues_each_pair (R : Type) (f : FastDifPy R) :
  SecondLoopConfig.batch_args (second_loop f) = false ->
  SecondLoopConfig.use_ram_cache (second_loop f) = false ->
  0 < SecondLoopConfig.batch_size (second_loop f) ->
  let args :=
    get_item_block (SecondLoopConfig.cache_index (second_loop f)) false
                   (db f) in
  (args = [] -> __item_block true f = (Val (Flag false), f))
  /\ (args <> [] ->
      exists f',
        __item_block true f = (Val (Flag true), f')
        /\ cmd_queue f'
           = cmd_queue f ++ map (fun t => PutItem (wrap_args t)) args
        /\ _enqueue_counter f'
           = _enqueue_counter f + Z.of_nat (List.length args)
        /\ SecondLoopConfig.cache_index (second_loop f')
           = SecondLoopConfig.cache_index (second_loop f) + 1
        /\ db f' = db f /\ result_queue f' = result_queue f).
Proof.
  intros Hbatch Hcache Hsize args.
  unfold __item_block. cbn [bind get]. rewrite Hbatch, Hcache.
  cbn [negb assert ret bind get]. rewrite Hcache, Hbatch.
  change (fun '(key, key_a, key_b, path_a, path_b, block_key) =>
            ItemCompareArgs.mk key key_a key_b path_a path_b block_key)
    with wrap_args.
  fold args. destruct args as [|t rest] eqn:Eargs.
  - split; [reflexivity|]. intro H. contradiction.
  - split; [discriminate|]. intros _.
    rewrite (proj2 (Z.eqb_neq _ 0)) by lia.
    rewrite (proj2 (Z.ltb_ge _ 0)) by lia.
    unfold bind. rewrite slices_run; [|lia|lia].
    unfold bump_cache_index, modify, ret.
    eexists. split; [reflexivity|]. simpl.
    repeat split.
    + rewrite map_map. reflexivity.
    + rewrite length_map. reflexivity.
Qed.

Lemma item_block_enqueues_each_pair_witness :
  let f := driver_of unit unscored_pairs (plain_config "/a" None) in
  SecondLoopConfig.batch_args (second_loop f) = false
  /\ SecondLoopConfig.use_ram_cache (second_loop f) = false
  /\ 0 < SecondLoopConfig.batch_size (second_loop f)
  /\ exists f',
      __item_block true f = (Val (Flag true), f')
      /\ cmd_queue f'
         = [PutItem (ItemCompareArgs.mk 1 0 1 "/a/x.jpg" "/a/y.jpg" None);
            PutItem (ItemCompareArgs.mk 2 0 2 "/a/x.jpg" "/a/z.jpg" None);
            PutItem (ItemCompareArgs.mk 3 1 2 "/a/y.jpg" "/a/z.jpg" None)]
      /\ _enqueue_counter f' = 3.
Proof.
  intro f. split; [reflexivity|]. split; [reflexivity|].
  assert (Hsize : 0 < SecondLoopConfig.batch_size (second_loop f))
    by reflexivity.
  split; [exact Hsize|].
  destruct (proj2 (item_block_enqueues_each_pair unit f eq_refl eq_refl Hsize))
    as [f' [E [Hq [Hn _]]]]; [discriminate|].
  exists f'. split; [exact E|]. split; [exact Hq|exact Hn].
Defined.

(** X25.  The step of the slices of [__item_block] is the batch size: for a
    block with an open pair and without RAM cache, a batch size of 0 raises
    the ValueError of [range] with nothing put on the queue and no counter
    changed, and a negative batch size puts nothing on the queue and yet
    adds the number of open pairs to the enqueue counter, moves on to the
    next block and answers True. *)
Theorem item_block_step_not_positive (R : Type) (f : FastDifPy R) :
  SecondLoopConfig.batch_args (second_loop f) = false ->
  SecondLoopConfig.use_ram_cache (second_loop f) = false ->
  let args :=
    get_item_block (SecondLoopConfig.cache_index (second_loop f)) false
                   (db f) in
  args <> [] ->
  (SecondLoopConfig.batch_size (second_loop f) = 0 ->
   __item_block true f = (Raise ValueError, f))
  /\ (SecondLoopConfig.batch_size (second_loop f) < 0 ->
      exists f',
        __item_block true f = (Val (Flag true), f')
        /\ cmd_queue f' = cmd_queue f
        /\ _enqueue_counter f'
           = _enqueue_counter f + Z.of_nat (List.length args)
        /\ SecondLoopConfig.cache_index (second_loop f')
           = SecondLoopConfig.cache_index (second_loop f) + 1).
Proof.
  intros Hbatch Hcache args Hargs.
  unfold __item_block. cbn [bind get]. rewrite Hbatch, Hcache.
  cbn [negb assert ret bind get]. rewrite Hcache.
  change (fun '(key, key_a, key_b, path_a, path_b, block_key) =>
            ItemCompareArgs.mk key key_a key_b path_a path_b block_key)
    with wrap_args.
  fold args. destruct args as [|t rest] eqn:Eargs; [contradiction|].
  split.
  - intro H0. rewrite H0. reflexivity.
  - intro Hneg.
    rewrite (proj2 (Z.eqb_neq _ 0)) by lia.
    rewrite (proj2 (Z.ltb_lt _ 0)) by lia.
    unfold bind, bump_cache_index, modify, ret.
    eexists. split; [reflexivity|]. simpl.
    repeat split. rewrite length_map. reflexivity.
Qed.

Lemma item_block_step_not_positive_witness :
  let zero := driver_of unit unscored_pairs (sized_config 0 false) in
  let negative := driver_of unit unscored_pairs (sized_config (-4) false) in
  get_item_block 1 false unscored_pairs <> []
  /\ __item_block true zero = (Raise ValueError, zero)
  /\ exists f',
      __item_block true negative = (Val (Flag true), f')
      /\ cmd_queue f' = [] /\ _enqueue_counter f' = 3.
Proof.
  intros zero negative.
  assert (Hargs : get_item_block 1 false unscored_pairs <> [])
    by discriminate.
  split; [exact Hargs|]. split.
  - exact (proj1 (item_block_step_not_positive unit zero eq_refl eq_refl Hargs)
             eq_refl).
  - destruct (proj2 (item_block_step_not_positive unit negative eq_refl
                       eq_refl Hargs)) as [f' [E [Hq [Hn _]]]];
      [reflexivity|].
    exists f'. split; [exact E|]. split; [exact Hq|exact Hn].
Defined.

(* ================================================================== *)
(** * Storing the results of item mode *)
(* ================================================================== *)

Lemma dict_set_keys {V : Type} (k x : Z) (v : V) (d : PyDict.t Z V) :
  In x (map fst (PyDict.set Z.eqb k v d)) <-> x = k \/ In x (map fst d).
Proof.
  induction d as [|[k' v'] d IH]; simpl.
  - intuition.
  - destruct (Z.eqb_spec k k') as [E|E]; simpl.
    + subst k'. intuition.
    + rewrite IH. intuition.
Qed.

(** The split of [store_item_second_loop]: as many scores as keys, the keys
    of the results with a score among the keys, and the keys of the results
    without one among the errors. *)
Lemma split_item_results_spec (results : list ItemCompareResult.t)
  (ks0 : list Z) (ds0 : list Q) (e0 : PyDict.t Z string) :
  List.length ks0 = List.length ds0 ->
  match split_item_results results ks0 ds0 e0 with
  | (ks, ds, e) =>
      List.length ks = List.length ds
      /\ (forall k, In k ks \/ In k (map fst e) <->
                    In k ks0 \/ In k (map fst e0)
                    \/ In k (map ItemCompareResult.key results))
  end.
Proof.
  revert ks0 ds0 e0. induction results as [|r rest IH]; intros ks0 ds0 e0 Hl.
  - simpl. split; [exact Hl|]. intro k. tauto.
  - cbn [split_item_results].
    destruct (Qeq_bool (ItemCompareResult.diff r) (-1 # 1)).
    + specialize (IH ks0 ds0
                     (PyDict.set Z.eqb (ItemCompareResult.key r)
                                 (ItemCompareResult.error r) e0) Hl).
      destruct (split_item_results rest ks0 ds0 _) as [[ks ds] e].
      destruct IH as [Hlen Hk]. split; [exact Hlen|].
      intro k. rewrite Hk, dict_set_keys. simpl. intuition.
    + specialize (IH (ks0 ++ [ItemCompareResult.key r])
                     (ds0 ++ [ItemCompareResult.diff r]) e0).
      destruct (split_item_results rest _ _ e0) as [[ks ds] e].
      destruct IH as [Hlen Hk].
      { rewrite !length_app. simpl. lia. }
      split; [exact Hlen|].
      intro k. rewrite Hk, in_app_iff. simpl. intuition.
Qed.

Lemma combine_has (ks : list Z) (ds : list Q) (k : Z) :
  List.length ks = List.length ds -> In k ks ->
  exists d, In (k, d) (combine ks ds).
Proof.
  revert ds. induction ks as [|x ks IH]; intros ds Hl Hin; [contradiction|].
  destruct ds as [|d ds]; [discriminate|]. simpl in Hl.
  destruct Hin as [->|Hin].
  - exists d. left. reflexivity.
  - destruct (IH ds) as [d' Hd']; [lia|exact Hin|].
    exists d'. right. exact Hd'.
Qed.

Lemma scored_by_hit (ks : list Z) (ds : list Q) (r : Dif.row) :
  List.length ks = List.length ds -> In (Dif.key r) ks ->
  Dif.success (scored_by ks ds r) = 1.
Proof.
  intros Hl Hin. unfold scored_by.
  destruct (find (fun kd => fst kd =? Dif.key r) (rev (combine ks ds)))
    as [kd|] eqn:Ef; [reflexivity|]. exfalso.
  destruct (combine_has ks ds (Dif.key r) Hl Hin) as [d Hd].
  apply (in_rev (combine ks ds)) in Hd.
  pose proof (find_none _ _ Ef _ Hd) as H. simpl in H.
  rewrite Z.eqb_refl in H. discriminate.
Qed.

Lemma scored_by_miss (ks : list Z) (ds : list Q) (r : Dif.row) :
  ~ In (Dif.key r) ks -> scored_by ks ds r = r.
Proof.
  intro Hnot. unfold scored_by.
  destruct (find (fun kd => fst kd =? Dif.key r) (rev (combine ks ds)))
    as [[k d]|] eqn:Ef; [|reflexivity]. exfalso.
  apply find_some in Ef. destruct Ef as [Hin E]. simpl in E.
  apply Z.eqb_eq in E. subst k. apply Hnot.
  apply in_rev in Hin. apply in_combine_l in Hin. exact Hin.
Qed.

Lemma scored_by_columns (ks : list Z) (ds : list Q) (r : Dif.row) :
  Dif.key (scored_by ks ds r) = Dif.key r
  /\ Dif.block_key (scored_by ks ds r) = Dif.block_key r.
Proof.
  unfold scored_by.
  destruct (find (fun kd => fst kd =? Dif.key r) (rev (combine ks ds)));
    split; reflexivity.
Qed.

Lemma failed_row_miss (ks : list Z) (r : Dif.row) :
  ~ In (Dif.key r) ks -> failed_row ks r = r.
Proof.
  intro Hnot. unfold failed_row.
  destruct (existsb (Z.eqb (Dif.key r)) ks) eqn:E; [|reflexivity].
  exfalso. apply existsb_exists in E. destruct E as [k [Hk E]].
  apply Z.eqb_eq in E. subst k. contradiction.
Qed.

Lemma keeps_dif_insert_errors (args : list (Z * string)) :
  keeps dif_table (debug_execute_many insert_error_stmt args).
Proof.
  unfold debug_execute_many. apply keeps_for_each. intros a s.
  unfold insert_error_stmt.
  destruct (existsb (fun e => fst e =? fst a) (dif_error_table s));
    reflexivity.
Qed.

Lemma dif_after_errors (to_b64 : string -> string)
  (errors : PyDict.t Z string) (s : SQLiteDB) :
  dif_table (snd (insert_batch_diff_error to_b64 errors s))
  = map (failed_row (map fst errors)) (dif_table s).
Proof.
  unfold insert_batch_diff_error, bind. rewrite set_errors_run.
  pose proof (keeps_dif_insert_errors
                (map (fun kv => (fst kv, to_b64 (snd kv))) errors)
                (set_dif_table
                   (map (failed_row (map fst errors)) (dif_table s)) s)) as H.
  destruct (debug_execute_many insert_error_stmt _ _) as [[u|e] s2];
    simpl in H |- *; rewrite H; destruct s; reflexivity.
Qed.

Lemma keeps_db_prune_cache_item (R : Type) :
  keeps (@db R) (prune_cache_item (R := R)).
Proof. unfold prune_cache_item. repeat keeps_step. Qed.

(** The pair table after [store_item_second_loop], whatever its outcome. *)
Lemma dif_after_store_item (to_b64 : string -> string) (R : Type)
  (results : list ItemCompareResult.t) (f : FastDifPy R) :
  exists ks ds errors,
    split_item_results results [] [] [] = (ks, ds, errors)
    /\ dif_table (db (snd (store_item_second_loop to_b64 results f)))
       = map (fun r => failed_row (map fst errors) (scored_by ks ds r))
             (dif_table (db f)).
Proof.
  unfold store_item_second_loop.
  pose proof (split_item_results_spec results [] [] [] eq_refl) as Hs.
  destruct (split_item_results results [] [] []) as [[ks ds] errors].
  destruct Hs as [Hl _].
  exists ks, ds, errors. split; [reflexivity|].
  unfold bind. unfold on_db at 1. rewrite item_results_run.
  rewrite (proj2 (Nat.ltb_ge _ _)) by lia.
  unfold on_db at 1. cbn [db set_db].
  pose proof (dif_after_errors to_b64 errors
                (set_dif_table (map (scored_by ks ds) (dif_table (db f)))
                               (db f))) as He.
  destruct (insert_batch_diff_error to_b64 errors _) as [[u|e] d2];
    simpl in He.
  - unfold get at 1. cbn [db set_db].
    destruct (SecondLoopConfig.use_ram_cache _).
    + rewrite (keeps_db_prune_cache_item R). cbn [db set_db].
      rewrite He. simpl. rewrite map_map. reflexivity.
    + cbn [ret snd db set_db]. rewrite He. simpl. rewrite map_map.
      reflexivity.
  - cbn [snd db set_db]. rewrite He. simpl. rewrite map_map. reflexivity.
Qed.

(** X26.  For scores that respect the CHECK on [dif],
    [store_item_second_loop] closes the pairs it has results for, whatever
    its outcome: the pair table keeps its keys; a pair row whose key
    is the key of a result has success 0 or 1 afterwards; and when every open
    pair of a block has a result, [verify_item_block] holds for the block
    afterwards. *)
Theorem store_item_second_loop_closes_pairs (to_b64 : string -> string)
  (R : Type) (results : list ItemCompareResult.t) (f : FastDifPy R) :
  (forall r, In r results -> score_ok (ItemCompareResult.diff r)) ->
  let f' := snd (store_item_second_loop to_b64 results f) in
  map Dif.key (dif_table (db f')) = map Dif.key (dif_table (db f))
  /\ (forall d, In d (dif_table (db f')) ->
        In (Dif.key d) (map ItemCompareResult.key results) ->
        Dif.success d = 0 \/ Dif.success d = 1)
  /\ (forall block_key,
        (forall d, In d (dif_table (db f)) ->
           open_in_block block_key d = true ->
           In (Dif.key d) (map ItemCompareResult.key results)) ->
        verify_item_block block_key (db f') = true).
Proof.
  intros _. cbv zeta.
  destruct (dif_after_store_item to_b64 R results f)
    as [ks [ds [errors [Es Et]]]].
  pose proof (split_item_results_spec results [] [] [] eq_refl) as Hs.
  rewrite Es in Hs. destruct Hs as [Hl Hk].
  assert (Hkeys : forall k, In k (map ItemCompareResult.key results) <->
                            In k ks \/ In k (map fst errors)).
  { intro k. rewrite Hk. simpl. tauto. }
  assert (Hrow : forall d,
             let d' := failed_row (map fst errors) (scored_by ks ds d) in
             Dif.key d' = Dif.key d
             /\ Dif.block_key d' = Dif.block_key d
             /\ (In (Dif.key d) (map ItemCompareResult.key results) ->
                 Dif.success d' = 0 \/ Dif.success d' = 1)
             /\ (~ In (Dif.key d) (map ItemCompareResult.key results) ->
                 d' = d)).
  { intro d. cbv zeta.
    destruct (scored_by_columns ks ds d) as [Ek Eb].
    destruct (in_dec Z.eq_dec (Dif.key d) (map fst errors)) as [He|He].
    - rewrite failed_row_In by (rewrite Ek; exact He). simpl.
      rewrite Ek, Eb. repeat split; auto.
      intro Hnot. exfalso. apply Hnot, Hkeys. right. exact He.
    - rewrite failed_row_miss by (rewrite Ek; exact He).
      rewrite Ek, Eb. repeat split.
      + intro Hin. apply Hkeys in Hin. destruct Hin as [Hin|Hin];
          [|contradiction].
        right. apply scored_by_hit; assumption.
      + intro Hnot. apply scored_by_miss. intro Hin. apply Hnot, Hkeys.
        left. exact Hin. }
  rewrite Et. split; [|split].
  - rewrite map_map. apply map_ext. intro d. apply (Hrow d).
  - intros d' Hd' Hin. apply in_map_iff in Hd'. destruct Hd' as [d [<- Hd]].
    destruct (Hrow d) as [Ek [_ [Hhit _]]]. apply Hhit.
    rewrite <- Ek. exact Hin.
  - intros block_key Hall. unfold verify_item_block. rewrite Et.
    fold (open_in_block block_key). rewrite filter_none; [reflexivity|].
    intros d' Hd'. apply in_map_iff in Hd'. destruct Hd' as [d [<- Hd]].
    destruct (Hrow d) as [Ek [Eb [Hhit Hmiss]]].
    destruct (in_dec Z.eq_dec (Dif.key d)
                     (map ItemCompareResult.key results)) as [Hin|Hnot].
    + unfold open_in_block.
      destruct (Hhit Hin) as [E|E]; rewrite E; apply andb_false_r.
    + rewrite (Hmiss Hnot).
      destruct (open_in_block block_key d) eqn:Eo; [|reflexivity].
      exfalso. apply Hnot. apply Hall; assumption.
Qed.

Lemma store_item_second_loop_closes_pairs_witness :
  let results := [ItemCompareResult.mk 3 (-1 # 1) "broken";
                  ItemCompareResult.mk 1 (1 # 2) "";
                  ItemCompareResult.mk 2 (4 # 1) ""] in
  let f := driver_of unit unscored_pairs (plain_config "/a" None) in
  (forall r, In r results -> score_ok (ItemCompareResult.diff r))
  /\ (forall d, In d (dif_table (db f)) -> open_in_block 1 d = true ->
                In (Dif.key d) (map ItemCompareResult.key results))
  /\ verify_item_block 1 (db f) = false
  /\ verify_item_block 1 (db (snd (store_item_second_loop tagged results f)))
     = true
  /\ map Dif.success
       (dif_table (db (snd (store_item_second_loop tagged results f))))
     = [1; 1; 0].
Proof.
  intros results f.
  assert (Hall : forall d, In d (dif_table (db f)) ->
                   open_in_block 1 d = true ->
                   In (Dif.key d) (map ItemCompareResult.key results)).
  { intros d [<-|[<-|[<-|[]]]] _; simpl; tauto. }
  assert (Hok : forall r, In r results ->
                          score_ok (ItemCompareResult.diff r)).
  { intros r [<-|[<-|[<-|[]]]]; unfold score_ok, Qle; simpl; lia. }
  split; [exact Hok|].
  split; [exact Hall|]. split; [reflexivity|]. split; [|reflexivity].
  exact (proj2 (proj2 (store_item_second_loop_closes_pairs tagged unit
                         results f Hok)) 1 Hall).
Defined.

(* ================================================================== *)
(** * The plan and its readers *)
(* ================================================================== *)

(** X27.  The plan [prepopulate_diff_table] leaves is what the readers of
    the pair table expect: on a catalog with distinct keys and an empty pair
    table it returns without touching the catalog, every pair row names two
    files of the catalog and is open (success -1 and score -1), and
    [get_pair_count_diff] is the number of pair rows. *)
Theorem prepopulate_diff_table_plan_is_open (block_size : Z)
  (has_dir_b : bool) (s : SQLiteDB) :
  NoDup (map Directory.key (directory s)) ->
  dif_table s = [] ->
  exists s',
    prepopulate_diff_table block_size has_dir_b s = (Val tt, s')
    /\ directory s' = directory s
    /\ refers_to_files s'
    /\ (forall d, In d (dif_table s') ->
          Dif.success d = -1 /\ Dif.dif d = (-1 # 1)%Q)
    /\ get_pair_count_diff s' = Z.of_nat (List.length (dif_table s')).
Proof.
  intros Hnd Hempty.
  destruct (prepopulate_diff_table_run block_size has_dir_b s Hnd Hempty)
    as [rows [q [Hm [Hopen Hrun]]]].
  set (s' := planned_from rows q block_size has_dir_b s) in *.
  destruct (planned_from_key_pairs rows q block_size has_dir_b s)
    as [Hk Hv]. fold s' in Hk, Hv.
  assert (Hall : forall d, In d (dif_table s') ->
                   Dif.success d = -1 /\ Dif.dif d = (-1 # 1)%Q).
  { intros d Hd.
    assert (Hin : In (Dif.dif d, Dif.success d)
                     (map (fun r => (Dif.dif r, Dif.success r)) rows)).
    { rewrite <- Hv. apply (in_map (fun r => (Dif.dif r, Dif.success r))).
      exact Hd. }
    apply in_map_iff in Hin. destruct Hin as [r [E Hr]].
    rewrite Forall_forall in Hopen. destruct (Hopen r Hr) as [Ed Es].
    injection E as E1 E2. split; congruence. }
  exists s'. split; [exact Hrun|]. split; [reflexivity|].
  split; [|split; [exact Hall|]].
  - intros d Hd.
    assert (Hin : In (key_pair d) (candidate_pairs has_dir_b (directory s))).
    { rewrite <- Hm, <- Hk. apply in_map. exact Hd. }
    apply candidate_pairs_In in Hin.
    destruct Hin as [a [b [Ha [Hb [Ea [Eb _]]]]]].
    split; [exists a|exists b]; split; assumption.
  - unfold get_pair_count_diff. rewrite filter_all; [reflexivity|].
    intros d Hd. destruct (Hall d Hd) as [E _]. rewrite E. reflexivity.
Qed.

Lemma prepopulate_diff_table_plan_is_open_witness :
  NoDup (map Directory.key (directory three_files))
  /\ dif_table three_files = []
  /\ exists s',
      prepopulate_diff_table 2 false three_files = (Val tt, s')
      /\ refers_to_files s'
      /\ get_pair_count_diff s' = 3.
Proof.
  assert (Hnd : NoDup (map Directory.key (directory three_files))).
  { repeat constructor; simpl; intuition lia. }
  split; [exact Hnd|]. split; [reflexivity|].
  destruct (prepopulate_diff_table_plan_is_open 2 false three_files Hnd
              eq_refl) as [s' [E [_ [Hint [_ Hn]]]]].
  exists s'. split; [exact E|]. split; [exact Hint|].
  rewrite Hn. vm_compute in E. injection E as <-. reflexivity.
Defined.

(** X28.  [__build_org_cache] asserts that the RAM cache is in use and the
    thumbnails are not, and refuses a block next to the diagonal whose two
    lists of paths differ in length with a ValueError, the driver being as
    it was in both cases.  Whenever it returns, the cache it files under the
    current cache index holds the images of all keys of the block, [l_x ..
    l_x + len(p_x) - 1] on the side x and [l_y .. l_y + len(p_y) - 1] on the
    side y, and the database and the configuration are not touched; away
    from the diagonal it always returns. *)
Theorem build_org_cache_holds_block (R : Type) (l_x l_y : Z)
  (p_x p_y : list string) (f : FastDifPy R) :
  let run := __build_org_cache l_x l_y p_x p_y f in
  let wanted := (SecondLoopConfig.use_ram_cache (second_loop f)
                 && negb (FirstLoopConfig.compress (first_loop f)))%bool in
  let len_x := Z.of_nat (List.length p_x) in
  let len_y := Z.of_nat (List.length p_y) in
  (wanted = false -> run = (Raise AssertionError, f))
  /\ (wanted = true -> l_x + 1 = l_y -> len_x <> len_y ->
      run = (Raise ValueError, f))
  /\ (wanted = true -> l_x + 1 <> l_y -> fst run = Val tt)
  /\ (forall f',
        run = (Val tt, f') ->
        exists bc,
          PyDict.lookup Z.eqb (SecondLoopConfig.cache_index (second_loop f))
                        (ram_cache f') = Some bc
          /\ holds_keys (BatchCache.x bc) l_x len_x
          /\ holds_keys (BatchCache.y bc) l_y len_y
          /\ db f' = db f /\ config f' = config f).
Proof.
  cbv zeta. unfold __build_org_cache, bind, get, assert.
  destruct (SecondLoopConfig.use_ram_cache (second_loop f)
            && negb (FirstLoopConfig.compress (first_loop f)))%bool.
  - split; [discriminate|]. unfold ret at 1.
    assert (Hreg : forall bc f',
               register_cache l_x (Z.of_nat (List.length p_x)) bc f
               = (Val tt, f') ->
               PyDict.lookup Z.eqb
                 (SecondLoopConfig.cache_index (second_loop f))
                 (ram_cache f') = Some bc
               /\ db f' = db f /\ config f' = config f).
    { intros bc f' E. unfold register_cache, modify in E.
      injection E as <-.
      destruct (SecondLoopConfig.batch_args (second_loop f)); simpl;
        rewrite dict_lookup_set_Z; repeat split. }
    destruct (Z.eqb_spec (l_x + 1) l_y) as [Ed|Ed].
    + destruct (Z.eqb_spec (Z.of_nat (List.length p_x))
                           (Z.of_nat (List.length p_y))) as [El|El];
        cbn [negb].
      * split; [intros _ _ H; contradiction|].
        split; [intros _ H; contradiction|].
        intros f' E. destruct p_x as [|p0 p_x]; [discriminate|].
        unfold bind in E.
        destruct (same_set (p0 :: p_y) ((p0 :: p_x) ++ p_y));
          [|discriminate].
        unfold ret in E. destruct (Hreg _ f' E) as [Hl [Hd Hc]].
        eexists. split; [exact Hl|].
        unfold holds_keys. cbn [BatchCache.x BatchCache.y ImageCache.offset
                                 ImageCache.size List.length] in *.
        repeat split; try assumption; lia.
      * split; [reflexivity|]. split; [intros _ H; contradiction|].
        intros f' E. discriminate.
    + unfold ret at 1. split; [intros _ H; contradiction|].
      split; [intros _ _; reflexivity|].
      intros f' E. destruct (Hreg _ f' E) as [Hl [Hd Hc]].
      eexists. split; [exact Hl|].
      unfold holds_keys. simpl. repeat split; try assumption; lia.
  - split; [reflexivity|]. split; [discriminate|].
    split; [discriminate|]. intros f' E. discriminate.
Qed.

Lemma build_org_cache_holds_block_witness :
  let f := driver_of unit three_pairs org_cache_config in
  (exists f' bc,
     __build_org_cache 0 1 ["/a/x.jpg"; "/a/y.jpg"] ["/a/y.jpg"; "/a/z.jpg"] f
     = (Val tt, f')
     /\ PyDict.lookup Z.eqb 1 (ram_cache f') = Some bc
     /\ holds_keys (BatchCache.x bc) 0 2 /\ holds_keys (BatchCache.y bc) 1 2)
  /\ __build_org_cache 0 1 ["/a/x.jpg"] ["/a/y.jpg"; "/a/z.jpg"] f
     = (Raise ValueError, f).
Proof.
  intro f.
  pose proof (build_org_cache_holds_block unit 0 1
                ["/a/x.jpg"; "/a/y.jpg"] ["/a/y.jpg"; "/a/z.jpg"] f) as H1.
  pose proof (build_org_cache_holds_block unit 0 1
                ["/a/x.jpg"] ["/a/y.jpg"; "/a/z.jpg"] f) as H2.
  cbv zeta in H1, H2. split.
  - assert (E : __build_org_cache 0 1 ["/a/x.jpg"; "/a/y.jpg"]
                                   ["/a/y.jpg"; "/a/z.jpg"] f
                 = (Val tt,
                    snd (__build_org_cache 0 1 ["/a/x.jpg"; "/a/y.jpg"]
                                           ["/a/y.jpg"; "/a/z.jpg"] f)))
      by reflexivity.
    destruct (proj2 (proj2 (proj2 H1)) _ E) as [bc [Hl [Hx [Hy _]]]].
    eexists. exists bc. split; [exact E|]. split; [exact Hl|].
    split; [exact Hx|exact Hy].
  - apply (proj1 (proj2 H2)); [reflexivity|reflexivity|discriminate].
Defined.

(* ================================================================== *)
(** * From indexing to keys that start at 0 *)
(* ================================================================== *)

Lemma run_from_rising (k : Z) (n : nat) : rising (run_from k n).
Proof.
  revert k. induction n as [|n IH]; intro k; simpl; constructor.
  - apply IH.
  - apply Forall_forall. intros x Hx. apply run_from_In in Hx. lia.
Qed.

Lemma run_from_sub (k j : Z) (n : nat) :
  map (fun x => x - k) (run_from j n) = run_from (j - k) n.
Proof.
  revert j. induction n as [|n IH]; intro j; simpl; [reflexivity|].
  rewrite IH. do 2 f_equal. lia.
Qed.

Lemma run_from_app (k : Z) (m n : nat) :
  run_from k (m + n) = run_from k m ++ run_from (k + Z.of_nat m) n.
Proof.
  revert k. induction m as [|m IH]; intro k.
  - simpl. f_equal. lia.
  - cbn [Nat.add run_from app]. rewrite IH. do 3 f_equal. lia.
Qed.

Lemma bulk_insert_rows (tgt : list (string * string * Z)) (s s' : SQLiteDB) :
  for_each insert_file_stmt tgt s = (Val tt, s') ->
  exists added,
    directory s' = directory s ++ added
    /\ map (with_key 0) added = map new_file tgt.
Proof.
  revert s. induction tgt as [|arg tgt IH]; intros s E.
  - simpl in E. injection E as <-. exists []. rewrite app_nil_r. auto.
  - cbn [for_each] in E. unfold bind in E.
    destruct (insert_file_stmt_cases arg s) as [[_ E1]|[_ [k E1]]];
      rewrite E1 in E; [discriminate|].
    apply IH in E. destruct E as [added [Ed Em]]. simpl in Ed.
    exists (with_key k (new_file arg) :: added). split.
    + rewrite Ed, <- app_assoc. reflexivity.
    + simpl. rewrite Em. f_equal. destruct arg as [[p f] b]. reflexivity.
Qed.

Lemma zero_index_consecutive (s : SQLiteDB) (k : Z) (n : nat) :
  map Directory.key (directory s) = run_from k n -> 0 <= k ->
  set_keys_zero_index s
  = (Val tt,
     set_directory (map (fun r => with_key (Directory.key r - k) r)
                        (directory s)) s).
Proof.
  intros Ek Hk. unfold set_keys_zero_index. rewrite Ek.
  destruct n as [|n].
  - apply map_eq_nil in Ek. rewrite Ek. simpl. destruct s. simpl in Ek.
    subst. reflexivity.
  - rewrite min_of_run_from.
    rewrite (shift_keys_rising k (directory s) [] Hk).
    + reflexivity.
    + rewrite Ek. apply run_from_rising.
    + intros d r [].
Qed.

(** X29.  From indexing to keys that start at 0: on an empty catalog whose
    counter is not negative, when [bulk_insert_file] has added the files of
    directory a and then the files of directory b, [set_keys_zero_index]
    returns and the keys of the catalog are 0, 1, ..., n - 1 in the order of
    insertion; the files of a come first, and with a file in b the offset
    [get_b_offset] of partition b is the number of files of a. *)
Theorem index_then_zero_index_dense (path_a path_b : string)
  (files_a files_b : list string) (s s1 s2 : SQLiteDB) :
  directory s = [] -> 0 <= directory_seq s ->
  bulk_insert_file path_a files_a false s = (Val tt, s1) ->
  bulk_insert_file path_b files_b true s1 = (Val tt, s2) ->
  exists s3,
    set_keys_zero_index s2 = (Val tt, s3)
    /\ map Directory.key (directory s3)
       = run_from 0 (List.length files_a + List.length files_b)
    /\ map Directory.dir_b (directory s3)
       = repeat 0 (List.length files_a) ++ repeat 1 (List.length files_b)
    /\ (files_b <> [] ->
        get_b_offset s3 = Some (Z.of_nat (List.length files_a))).
Proof.
  intros Hempty Hseq Ea Eb.
  unfold bulk_insert_file, debug_execute_many in Ea, Eb.
  assert (Hcov : seq_covers s) by (intros r Hr; rewrite Hempty in Hr; contradiction).
  destruct (bulk_insert_keys _ s s1 Hcov Ea) as [Ka [Qa Hcov1]].
  destruct (bulk_insert_keys _ s1 s2 Hcov1 Eb) as [Kb [Qb _]].
  destruct (bulk_insert_rows _ s s1 Ea) as [ra [Da Ma]].
  destruct (bulk_insert_rows _ s1 s2 Eb) as [rb [Db Mb]].
  rewrite length_map in Ka, Qa, Kb, Qb.
  rewrite Hempty in Ka, Da. simpl in Ka, Da.
  set (k := directory_seq s + 1) in *.
  set (na := List.length files_a) in *. set (nb := List.length files_b) in *.
  assert (Lra : List.length ra = na).
  { apply (f_equal (@List.length _)) in Ma. rewrite !length_map in Ma.
    exact Ma. }
  assert (Lrb : List.length rb = nb).
  { apply (f_equal (@List.length _)) in Mb. rewrite !length_map in Mb.
    exact Mb. }
  assert (Hlabel : forall (b : Z) (files : list string) (p : string) rows,
             map (with_key 0) rows
             = map new_file (map (fun f => (os_path_join p f, f, b)) files) ->
             forall r, In r rows -> Directory.dir_b r = b).
  { intros b files p rows Hm r Hr.
    assert (Hin : In (with_key 0 r) (map (with_key 0) rows))
      by (apply in_map; exact Hr).
    rewrite Hm, map_map in Hin. apply in_map_iff in Hin.
    destruct Hin as [f [E _]]. apply (f_equal Directory.dir_b) in E.
    simpl in E. congruence. }
  pose proof (Hlabel 0 files_a path_a ra Ma) as La.
  pose proof (Hlabel 1 files_b path_b rb Mb) as Lb.
  assert (Kra : map Directory.key ra = run_from k na).
  { rewrite <- Da. exact Ka. }
  assert (Kall : map Directory.key (directory s2) = run_from k (na + nb)).
  { rewrite Kb, Ka, Qa, run_from_app. do 2 f_equal. unfold k. lia. }
  assert (Krb : map Directory.key rb = run_from (k + Z.of_nat na) nb).
  { rewrite Db, Da, map_app, Kra, run_from_app in Kall.
    apply app_inv_head in Kall. exact Kall. }
  assert (Hk : 0 <= k) by (unfold k; lia).
  eexists. split; [apply (zero_index_consecutive s2 k (na + nb) Kall Hk)|].
  simpl. repeat split.
  - transitivity (map (fun x => x - k) (map Directory.key (directory s2))).
    + rewrite !map_map. apply map_ext. intro r. destruct r. reflexivity.
    + rewrite Kall, run_from_sub. f_equal. lia.
  - transitivity (map Directory.dir_b (directory s2));
      [rewrite map_map; apply map_ext; intro r; reflexivity|].
    rewrite Db, Da, map_app.
    assert (Hrep : forall (b : Z) l,
               (forall x, In x l -> Directory.dir_b x = b) ->
               map Directory.dir_b l = repeat b (List.length l)).
    { intros b l. induction l as [|x l IH]; intro H; simpl; [reflexivity|].
      rewrite (H x (or_introl eq_refl)), IH; [reflexivity|].
      intros y Hy. apply H. right. exact Hy. }
    rewrite (Hrep 0 ra La), (Hrep 1 rb Lb), Lra, Lrb. reflexivity.
  - intro Hne. unfold get_b_offset. simpl.
    rewrite Db, Da, map_app, filter_app.
    rewrite (filter_none _ (map _ ra)), (filter_all _ (map _ rb)).
    + simpl. rewrite map_map. simpl.
      transitivity (Sql.min_of (map (fun x => x - k) (map Directory.key rb))).
      * rewrite map_map. reflexivity.
      * rewrite Krb, run_from_sub.
        destruct nb as [|nb'] eqn:Enb.
        -- exfalso. apply Hne. apply length_zero_iff_nil. exact Enb.
        -- rewrite min_of_run_from. f_equal. lia.
    + intros x Hx. apply in_map_iff in Hx. destruct Hx as [r [<- Hr]].
      simpl. rewrite (Lb r Hr). reflexivity.
    + intros x Hx. apply in_map_iff in Hx. destruct Hx as [r [<- Hr]].
      simpl. rewrite (La r Hr). reflexivity.
Qed.

Lemma index_then_zero_index_dense_witness :
  exists s1 s2 s3,
    bulk_insert_file "/a" ["x.jpg"; "y.jpg"] false empty_db = (Val tt, s1)
    /\ bulk_insert_file "/b" ["z.jpg"] true s1 = (Val tt, s2)
    /\ map Directory.key (directory s2) = [1; 2; 3]
    /\ set_keys_zero_index s2 = (Val tt, s3)
    /\ map Directory.key (directory s3) = [0; 1; 2]
    /\ get_b_offset s3 = Some 2.
Proof.
  eexists. eexists.
  assert (Ea : bulk_insert_file "/a" ["x.jpg"; "y.jpg"] false empty_db
               = (Val tt,
                  snd (bulk_insert_file "/a" ["x.jpg"; "y.jpg"] false
                                        empty_db))) by reflexivity.
  assert (Eb : bulk_insert_file "/b" ["z.jpg"] true
                 (snd (bulk_insert_file "/a" ["x.jpg"; "y.jpg"] false
                                        empty_db))
               = (Val tt,
                  snd (bulk_insert_file "/b" ["z.jpg"] true
                         (snd (bulk_insert_file "/a" ["x.jpg"; "y.jpg"] false
                                                empty_db))))) by reflexivity.
  destruct (index_then_zero_index_dense "/a" "/b" ["x.jpg"; "y.jpg"]
              ["z.jpg"] empty_db _ _ eq_refl (Z.le_refl 0) Ea Eb)
    as [s3 [E3 [K3 [_ Ho]]]].
  exists s3. split; [exact Ea|]. split; [exact Eb|].
  split; [reflexivity|]. split; [exact E3|]. split; [exact K3|].
  apply Ho. discriminate.
Defined.
